(** * freespringer: the taxonomy index and the download loop

    A shallow embedding of [freespringer.py]: the rows that
    [get_raw_list_of_books] takes from the sheet, the index built by
    [setup_globals], the listing done by [print_books_in_topic] and the
    download loop of [download_books] / [_download_book], followed by the
    properties of the specification that concern them.

    Conventions of the embedding.
    - A Python [str] is a [string]; each character stands for the code
      point of the same number (0..255).  [len] is [String.length] and the
      order used by [sorted] is the lexicographic order on code points.
    - A cell of the listing is a [value]: [None] (an empty cell) or a [str].
    - Dictionaries and sets are [gmap] and [gset]; the two dictionaries that
      are local to [setup_globals] and whose [items()] are iterated are kept
      as insertion-ordered association lists.
    - Exceptions are explicit: a computation ends in [Ret] or in [Exc].
    - Paths follow [pathlib.PurePosixPath]. *)

From stdpp Require Import gmap strings list fin_maps sorting pretty.
From Stdlib Require Import ZArith Ascii String.

Open Scope Z_scope.

(** ** Python values and exceptions *)

Abbreviation value := (option string).

Inductive exn :=
| KeyError | TypeError | AttributeError | ValueError | OSError | ConnectionError
| RuntimeError | StopIteration.

Inductive result (A : Type) :=
| Ret (a : A)
| Exc (e : exn).
Arguments Ret {A} a.
Arguments Exc {A} e.

(** ** Strings *)

Module Str.

(** [str.isspace] for one character (code points below 256). *)
Definition isspace (c : ascii) : bool :=
  let n := nat_of_ascii c in
  (((9 <=? n) && (n <=? 13)) || ((28 <=? n) && (n <=? 32))
   || (n =? 133) || (n =? 160))%nat.

Fixpoint lstrip (s : string) : string :=
  match s with
  | EmptyString => EmptyString
  | String c s' => if isspace c then lstrip s' else s
  end.

Definition rstrip (s : string) : string := String.rev (lstrip (String.rev s)).

(** [s.strip()] *)
Definition strip (s : string) : string := rstrip (lstrip s).

(** [s.split(sep)] for a one-character separator: empty pieces are kept. *)
Fixpoint split_on (sep : ascii) (s : string) : list string :=
  match s with
  | EmptyString => [EmptyString]
  | String c s' =>
      if decide (c = sep) then EmptyString :: split_on sep s'
      else match split_on sep s' with
           | w :: ws => String c w :: ws
           | [] => [String c EmptyString]
           end
  end.

(** [s.split()]: the maximal runs of non-whitespace characters. *)
Fixpoint split (s : string) : list string :=
  match s with
  | EmptyString => []
  | String c s' =>
      if isspace c then split s'
      else match s' with
           | EmptyString => [String c EmptyString]
           | String c' _ =>
               if isspace c' then String c EmptyString :: split s'
               else match split s' with
                    | w :: ws => String c w :: ws
                    | [] => [String c EmptyString]
                    end
           end
  end.

(** [sep.join(l)] *)
Fixpoint join (sep : string) (l : list string) : string :=
  match l with
  | [] => EmptyString
  | [w] => w
  | w :: ws => w +:+ sep +:+ join sep ws
  end.

(** [s[:n]] *)
Fixpoint take (n : nat) (s : string) : string :=
  match n, s with
  | S n', String c s' => String c (take n' s')
  | _, _ => EmptyString
  end.

(** [s[n:]] *)
Fixpoint drop (n : nat) (s : string) : string :=
  match n, s with
  | S n', String _ s' => drop n' s'
  | _, _ => s
  end.

(** [s.rfind(".")], [None] standing for [-1]. *)
Fixpoint rfind_dot (s : string) : option nat :=
  match s with
  | EmptyString => None
  | String c s' =>
      match rfind_dot s' with
      | Some i => Some (S i)
      | None => if decide (c = "."%char) then Some 0%nat else None
      end
  end.

Fixpoint contains (c : ascii) (s : string) : bool :=
  match s with
  | EmptyString => false
  | String c' s' => if decide (c' = c) then true else contains c s'
  end.

(** [str(x)] as an f-string prints it. *)
Definition fmt (v : value) : string :=
  match v with
  | None => "None"
  | Some s => s
  end.

Definition fmt_int (z : Z) : string := pretty z.

(** [urllib.parse.quote(s, safe='')]: every character outside
    [A-Za-z0-9_.-~] is replaced by the percent-escapes of its UTF-8 bytes. *)
Definition unreserved (c : ascii) : bool :=
  let n := nat_of_ascii c in
  (((65 <=? n) && (n <=? 90)) || ((97 <=? n) && (n <=? 122))
   || ((48 <=? n) && (n <=? 57))
   || (n =? 95) || (n =? 46) || (n =? 45) || (n =? 126))%nat.

Definition hex_digit (n : nat) : ascii :=
  if (n <? 10)%nat then ascii_of_nat (48 + n) else ascii_of_nat (55 + n).

Definition pct (b : nat) : string :=
  String "%" (String (hex_digit (b / 16)) (String (hex_digit (b mod 16)) EmptyString)).

Definition quote_char (c : ascii) : string :=
  let n := nat_of_ascii c in
  if unreserved c then String c EmptyString
  else if (n <? 128)%nat then pct n
  else pct (192 + n / 64) +:+ pct (128 + n mod 64).

Fixpoint quote (s : string) : string :=
  match s with
  | EmptyString => EmptyString
  | String c s' => quote_char c +:+ quote s'
  end.

End Str.

(** ** Paths ([pathlib.PurePosixPath]) *)

Record Path := mkPath {
  root : string;          (* "", "/" or "//" *)
  parts : list string     (* the components after the root *)
}.

Module Pathlib.

Definition sep : ascii := "/"%char.

Fixpoint lstrip_sep (s : string) : string :=
  match s with
  | String c s' => if decide (c = sep) then lstrip_sep s' else s
  | EmptyString => EmptyString
  end.

(** [splitroot]: exactly two leading slashes are kept as a root of their
    own, any other number of them is the root [/]. *)
Definition splitroot (part : string) : string * string :=
  match part with
  | String c _ =>
      if decide (c = sep) then
        let rel := lstrip_sep part in
        if decide (String.length part - String.length rel = 2)%nat
        then ("//", rel) else ("/", rel)
      else ("", part)
  | EmptyString => ("", part)
  end.

Definition keep_part (x : string) : bool :=
  negb (bool_decide (x = "")) && negb (bool_decide (x = ".")).

Definition parse_segment (seg : string) : string * list string :=
  let '(r, rel) := splitroot seg in
  (r, List.filter keep_part (Str.split_on sep rel)).

Definition join1 (p : Path) (seg : string) : Path :=
  let '(r, ps) := parse_segment seg in
  if decide (r = "") then mkPath (root p) (parts p ++ ps) else mkPath r ps.

(** [p.joinpath(segs...)]; a segment that is [None] raises [TypeError]. *)
Definition joinpath (p : Path) (segs : list value) : result Path :=
  match mapM id segs with
  | Some strs => Ret (foldl join1 p strs)
  | None => Exc TypeError
  end.

(** [p.name] *)
Definition name (p : Path) : string := List.last (parts p) "".

(** The suffix of a file name: from its last dot on, unless that dot is
    the first or the last character. *)
Definition suffix_of (nm : string) : string :=
  match Str.rfind_dot nm with
  | Some i =>
      if ((0 <? i) && (i + 1 <? String.length nm))%nat then Str.drop i nm else ""
  | None => ""
  end.

(** [p.with_suffix(suffix)] *)
Definition with_suffix (p : Path) (suffix : string) : result Path :=
  if Str.contains sep suffix then Exc ValueError
  else if bool_decide (suffix = ".") then Exc ValueError
  else match suffix with
       | String c _ =>
           if decide (c = "."%char) then
             let nm := name p in
             if decide (nm = "") then Exc ValueError
             else
               let old := suffix_of nm in
               let nm' :=
                 if decide (old = "") then nm +:+ suffix
                 else Str.take (String.length nm - String.length old) nm +:+ suffix in
               Ret (mkPath (root p) (removelast (parts p) ++ [nm']))
           else Exc ValueError
       | EmptyString =>
           let nm := name p in
           if decide (nm = "") then Exc ValueError
           else
             let old := suffix_of nm in
             let nm' :=
               if decide (old = "") then nm
               else Str.take (String.length nm - String.length old) nm in
             Ret (mkPath (root p) (removelast (parts p) ++ [nm']))
       end.

(** [p.parent] *)
Definition parent (p : Path) : Path :=
  match parts p with
  | [] => p
  | _ => mkPath (root p) (removelast (parts p))
  end.

End Pathlib.

(** ** Computations: state and exceptions *)

(** A computation reads and updates a state of type [S] and either returns
    or raises; the state reached when an exception is raised is kept, as the
    dictionaries updated so far stay updated. *)
Definition M (S A : Type) : Type := S → result A * S.

Global Instance M_ret {S} : MRet (M S) := λ A a s, (Ret a, s).
Global Instance M_bind {S} : MBind (M S) := λ A B f m s,
  match m s with
  | (Ret a, s') => f a s'
  | (Exc e, s') => (Exc e, s')
  end.

Definition raise {S A} (e : exn) : M S A := λ s, (Exc e, s).
Definition get {S} : M S S := λ s, (Ret s, s).
Definition modify {S} (f : S → S) : M S unit := λ s, (Ret tt, f s).

(** [for x in l: acc = body(acc, x)] *)
Fixpoint foldM {S A B} (body : A → B → M S A) (acc : A) (l : list B) : M S A :=
  match l with
  | [] => mret acc
  | x :: l' => acc' ← body acc x; foldM body acc' l'
  end.

(** ** The index *)

(** One row of the listing: [(title, package, subjects, doi)]. *)
Record book_row := mkRow {
  r_title : value;
  r_package : value;
  r_subjects : value;
  r_doi : value
}.

(** The module-level dictionaries.  The names of subjects are produced by
    [str] methods and are always strings; the other keys are cells. *)
Record index := mkIndex {
  BOOKS_TITLES : gmap value value;         (* {doi: title} *)
  BOOKS_PACKAGES : gmap value value;
  IDS_OF_PACKAGES : list (value * Z);      (* {package: id}, iterated in insertion order *)
  IDS_OF_SUBJECTS : gmap string Z;         (* {subject: id} *)
  TOPICS_BOOKS : gmap Z (list value);      (* {id: [list of dois]}, a defaultdict *)
  TOPICS_IDS : gmap Z value;               (* {id: topic} *)
  PACKAGES_RELS : gmap value (gset string);(* {package: {set of subjects}} *)
  SUBJECTS_RELS : gmap string (gset value) (* {subject: {set of packages}} *)
}.

Definition LONGEST : nat := 50.

(** The state of a freshly imported module. *)
Definition fresh : index := mkIndex ∅ ∅ [] ∅ ∅ ∅ ∅ ∅.

(** [d[k] = v] and [d.get(k)] on an [OrderedDict] whose order is observed:
    a new key goes to the end, a known key keeps its place. *)
Fixpoint od_set {K V} `{EqDecision K} (k : K) (v : V) (d : list (K * V)) : list (K * V) :=
  match d with
  | [] => [(k, v)]
  | (k', v') :: d' => if decide (k' = k) then (k, v) :: d' else (k', v') :: od_set k v d'
  end.

Fixpoint od_get {K V} `{EqDecision K} (k : K) (d : list (K * V)) : option V :=
  match d with
  | [] => None
  | (k', v') :: d' => if decide (k' = k) then Some v' else od_get k d'
  end.

(** [d[k].append(x)] on a local [defaultdict(list)], in insertion order. *)
Fixpoint append_to {K} `{EqDecision K} (k : K) (x : value)
    (d : list (K * list value)) : list (K * list value) :=
  match d with
  | [] => [(k, [x])]
  | (k', l) :: d' =>
      if decide (k' = k) then (k', l ++ [x]) :: d' else (k', l) :: append_to k x d'
  end.

(** The two dictionaries local to [setup_globals]. *)
Record locals := mkLocals {
  PACKAGES_BOOKS : list (value * list value);  (* {package: [list of dois]} *)
  SUBJECTS_BOOKS : list (string * list value)  (* {subject: [list of dois]} *)
}.

(** [subj if len(subj) < LONGEST else subj[:LONGEST-3]+"..."] *)
Definition shorten (subj : string) : string :=
  if (String.length subj <? LONGEST)%nat then subj
  else Str.take (LONGEST - 3) subj +:+ "...".

(** The two comprehensions over [subjects.split(';')]. *)
Definition subjects_of (field : string) : list string :=
  shorten <$> (Str.strip <$> Str.split_on ";" field).

(** The body of [for subj in subjects]. *)
Definition add_subject (package doi : value) (gl : index * locals) (subj : string)
    : index * locals :=
  let '(g, loc) := gl in
  (mkIndex (BOOKS_TITLES g) (BOOKS_PACKAGES g) (IDS_OF_PACKAGES g) (IDS_OF_SUBJECTS g)
     (TOPICS_BOOKS g) (TOPICS_IDS g)
     (<[package := default ∅ (PACKAGES_RELS g !! package) ∪ {[subj]}]> (PACKAGES_RELS g))
     (<[subj := default ∅ (SUBJECTS_RELS g !! subj) ∪ {[package]}]> (SUBJECTS_RELS g)),
   mkLocals (PACKAGES_BOOKS loc) (append_to subj doi (SUBJECTS_BOOKS loc))).

(** The body of [for title, package, subjects, doi in books]; [subjects] is
    [None] when the cell is empty, and [None.split] raises. *)
Definition add_row (row : book_row) (gl : index * locals) : result unit * (index * locals) :=
  match r_subjects row with
  | None => (Exc AttributeError, gl)
  | Some field =>
      let subjects := subjects_of field in
      let '(g, loc) := gl in
      let loc1 := mkLocals (append_to (r_package row) (r_doi row) (PACKAGES_BOOKS loc))
                    (SUBJECTS_BOOKS loc) in
      let g1 := mkIndex (BOOKS_TITLES g) (<[r_doi row := r_package row]> (BOOKS_PACKAGES g))
                  (IDS_OF_PACKAGES g) (IDS_OF_SUBJECTS g) (TOPICS_BOOKS g) (TOPICS_IDS g)
                  (PACKAGES_RELS g) (SUBJECTS_RELS g) in
      let '(g2, loc2) := foldl (add_subject (r_package row) (r_doi row)) (g1, loc1) subjects in
      (Ret tt,
       (mkIndex (<[r_doi row := r_title row]> (BOOKS_TITLES g2)) (BOOKS_PACKAGES g2)
          (IDS_OF_PACKAGES g2) (IDS_OF_SUBJECTS g2) (TOPICS_BOOKS g2) (TOPICS_IDS g2)
          (PACKAGES_RELS g2) (SUBJECTS_RELS g2), loc2))
  end.

Fixpoint add_rows (books : list book_row) (gl : index * locals)
    : result unit * (index * locals) :=
  match books with
  | [] => (Ret tt, gl)
  | row :: rest =>
      match add_row row gl with
      | (Ret _, gl') => add_rows rest gl'
      | (Exc e, gl') => (Exc e, gl')
      end
  end.

(** [sorted] on the names of subjects, which are strings: the keys of a
    dictionary are pairwise distinct, so the result is the one increasing
    arrangement of them. *)
Definition sorted_str (l : list string) : list string := merge_sort String.le l.

(** The order of cells where they can be compared; the place given to
    [None] is never looked at by [sorted]. *)
Definition value_le (a b : value) : Prop :=
  match a, b with
  | Some x, Some y => String.le x y
  | None, _ => True
  | Some _, None => False
  end.

Global Instance value_le_dec : RelDecision value_le.
Proof. intros [x|] [y|]; simpl; apply _. Defined.

(** [sorted] on cells: comparing [None] with a string raises [TypeError],
    and every element of a list of two or more is compared at least once. *)
Definition sorted (l : list value) : result (list value) :=
  if decide (2 ≤ List.length l ∧ None ∈ l)%nat then Exc TypeError
  else Ret (merge_sort value_le l).

(** [enumerate(l, start)] *)
Fixpoint enumerate {A} (start : Z) (l : list A) : list (Z * A) :=
  match l with
  | [] => []
  | x :: l' => (start, x) :: enumerate (start + 1) l'
  end.

Definition keys {K V} `{Countable K} (m : gmap K V) : list K := (map_to_list m).*1.

Definition number_package (g : index) (it : Z * value) : index :=
  mkIndex (BOOKS_TITLES g) (BOOKS_PACKAGES g) (od_set it.2 it.1 (IDS_OF_PACKAGES g))
    (IDS_OF_SUBJECTS g) (TOPICS_BOOKS g) (<[it.1 := it.2]> (TOPICS_IDS g))
    (PACKAGES_RELS g) (SUBJECTS_RELS g).

Definition number_subject (g : index) (it : Z * string) : index :=
  mkIndex (BOOKS_TITLES g) (BOOKS_PACKAGES g) (IDS_OF_PACKAGES g)
    (<[it.2 := it.1]> (IDS_OF_SUBJECTS g)) (TOPICS_BOOKS g) (<[it.1 := Some it.2]> (TOPICS_IDS g))
    (PACKAGES_RELS g) (SUBJECTS_RELS g).

Definition set_TOPICS_BOOKS (tb : gmap Z (list value)) (g : index) : index :=
  mkIndex (BOOKS_TITLES g) (BOOKS_PACKAGES g) (IDS_OF_PACKAGES g) (IDS_OF_SUBJECTS g)
    tb (TOPICS_IDS g) (PACKAGES_RELS g) (SUBJECTS_RELS g).

(** [for topic, books in d.items(): TOPICS_BOOKS[ids[topic]] = books], where
    [ids] reads the dictionary of IDs. *)
Fixpoint rekey {K} (ids : K → option Z) (items : list (K * list value))
    : M index unit :=
  match items with
  | [] => mret tt
  | (topic, books) :: rest =>
      match ids topic with
      | None => raise KeyError
      | Some id => modify (λ g, set_TOPICS_BOOKS (<[id := books]> (TOPICS_BOOKS g)) g);;
                   rekey ids rest
      end
  end.

(** [setup_globals], given the rows that [get_raw_list_of_books] returned.
    The calls of [logger.debug] are left out. *)
Definition setup_globals (books : list book_row) : M index unit := λ g,
  match add_rows books (g, mkLocals [] []) with
  | (Exc e, (g1, _)) => (Exc e, g1)
  | (Ret _, (g1, loc)) =>
      match sorted (keys (PACKAGES_RELS g1)) with
      | Exc e => (Exc e, g1)
      | Ret pk =>
          let g2 := foldl number_package g1 (enumerate 1 pk) in
          let sk := sorted_str (keys (SUBJECTS_RELS g2)) in
          let g3 := foldl number_subject g2
                      (enumerate (1 + Z.of_nat (size (PACKAGES_RELS g2))) sk) in
          (rekey (λ topic, od_get topic (IDS_OF_PACKAGES g3)) (PACKAGES_BOOKS loc);;
           rekey (λ topic, IDS_OF_SUBJECTS g3 !! topic) (SUBJECTS_BOOKS loc)) g3
      end
  end.

(** The example of the specification. *)
Definition example_rows : list book_row :=
  [ mkRow (Some "Book A") (Some "Pkg1") (Some "Math; Physics") (Some "10.1/aaa");
    mkRow (Some "Book B") (Some "Pkg1") (Some "Math") (Some "10.1/bbb");
    mkRow (Some "Book C") (Some "Pkg2") (Some "Physics") (Some "10.1/ccc") ].

Definition example_index : index := (setup_globals example_rows fresh).2.

(** ** The listing read from the workbook *)

(** [s.lstrip(chars)] and [s.strip(chars)]: the characters that occur in
    [chars] are removed from the ends of [s]. *)
Fixpoint lstrip_chars (chars s : string) : string :=
  match s with
  | EmptyString => EmptyString
  | String c s' => if Str.contains c chars then lstrip_chars chars s' else s
  end.

Definition strip_chars (chars s : string) : string :=
  String.rev (lstrip_chars chars (String.rev (lstrip_chars chars s))).

(** One row of the active sheet: the values of its cells in the columns A
    (title), L (package), T (subjects) and R (address of the identifier). *)
Record sheet_row := mkCells {
  cell_A : value;
  cell_L : value;
  cell_T : value;
  cell_R : value
}.

(** One turn of [zip(titles, packages, subjects, doinrs)]: the fourth
    generator calls [c.value.strip("http://doi.org/")], which raises on an
    empty cell. *)
Definition zipped (c : sheet_row) : result book_row :=
  match cell_R c with
  | None => Exc AttributeError
  | Some address =>
      Ret (mkRow (cell_A c) (cell_L c) (cell_T c)
             (Some (strip_chars "http://doi.org/" address)))
  end.

(** [list(iterator)] *)
Fixpoint collect (cells : list sheet_row) : result (list book_row) :=
  match cells with
  | [] => Ret []
  | c :: rest =>
      match zipped c with
      | Exc e => Exc e
      | Ret row =>
          match collect rest with
          | Exc e => Exc e
          | Ret rows => Ret (row :: rows)
          end
      end
  end.

(** [get_raw_list_of_books], from the active sheet of the workbook that it
    opens: [headers = next(iterator)] takes the first row, and raises
    [StopIteration] when there is none; [books = list(iterator)] takes the
    others.  Fetching and caching the workbook and the log lines are left
    out. *)
Definition get_raw_list_of_books (sheet : list sheet_row) : result (list book_row) :=
  match sheet with
  | [] => Exc StopIteration
  | headers :: cells =>
      match zipped headers with
      | Exc e => Exc e
      | Ret _ => collect cells
      end
  end.

(** [setup_globals] together with the call of [get_raw_list_of_books] that
    opens it: an exception raised while the listing is read leaves the
    dictionaries as they were. *)
Definition setup_globals_from_sheet (sheet : list sheet_row) : M index unit := λ g,
  match get_raw_list_of_books sheet with
  | Exc e => (Exc e, g)
  | Ret books => setup_globals books g
  end.

(** ** The world outside: console, log, network and file system *)

Inductive level := DEBUG | INFO | WARNING | ERROR.

(** What the program does to the outside, in the order it does it.  [Get]
    and [Write] carry the identifier of the book on whose behalf they are
    done. *)
Inductive event :=
| Print (line : string)
| Log (lvl : level) (msg : string)
| Mkdir (p : Path)                        (* p.mkdir(exist_ok=True) *)
| Get (doi : string) (link : string)      (* requests.get(link, stream=True) *)
| Write (doi : string) (p : Path).        (* p.open("wb") and the chunk loop *)

(** How the outside answers.  The first argument is the number of events
    that came before, so the answers may change from one call to the next. *)
Record environment := mkEnv {
  response : nat → string → option Z;  (* the status code; None: requests.get raises *)
  mkdir_ok : nat → Path → bool;       (* false: mkdir raises an OSError *)
  write_ok : nat → Path → bool        (* false: opening or writing raises an OSError *)
}.

Record world := mkWorld {
  idx : index;
  trace : list event
}.

Definition emit (e : event) : M world unit :=
  modify (λ w, mkWorld (idx w) (trace w ++ [e])).

Definition clock : M world nat := λ w, (Ret (List.length (trace w)), w).

Definition log (lvl : level) (msg : string) : M world unit := emit (Log lvl msg).

Definition print (line : string) : M world unit := emit (Print line).

(** [d[k]] on a plain dictionary. *)
Definition getitem {S K V} `{Countable K} (d : gmap K V) (k : K) : M S V :=
  match d !! k with
  | Some v => mret v
  | None => raise KeyError
  end.

(** [TOPICS_BOOKS[tid]]: reading a missing key of the [defaultdict] stores
    an empty list under it. *)
Definition topics_books (tid : Z) : M world (list value) := λ w,
  match TOPICS_BOOKS (idx w) !! tid with
  | Some books => (Ret books, w)
  | None =>
      (Ret [], mkWorld (set_TOPICS_BOOKS (<[tid := []]> (TOPICS_BOOKS (idx w))) (idx w))
                 (trace w))
  end.

Definition dquote : string := String (ascii_of_nat 34) EmptyString.
Definition newline : string := String (ascii_of_nat 10) EmptyString.

(** The body shared by the two loops of [print_books_in_topic], after the
    test of the range. *)
Definition print_topic (kind : string) (i : Z) : M world unit :=
  w ← get;
  topic ← getitem (TOPICS_IDS (idx w)) i;
  print (newline +:+ "Books in " +:+ kind +:+ " " +:+ dquote +:+ Str.fmt topic
           +:+ dquote +:+ ":");;
  books ← topics_books i;
  foldM (λ _ doi,
           w ← get;
           title ← getitem (BOOKS_TITLES (idx w)) doi;
           match title with
           | Some t => print ("   " +:+ t)
           | None => raise TypeError
           end) tt books.

Definition print_books_in_topic (subjects packages : option (list Z)) : M world unit :=
  let subjects := default [] subjects in
  let packages := default [] packages in
  foldM (λ _ i,
           w ← get;
           if negb ((0 <? i) && (i <=? Z.of_nat (size (PACKAGES_RELS (idx w)))))
           then print ("NO PACKAGE WITH ID = " +:+ Str.fmt_int i +:+ ".")
           else print_topic "package" i) tt packages;;
  foldM (λ _ i,
           w ← get;
           if negb ((Z.of_nat (size (PACKAGES_RELS (idx w))) <? i)
                    && (i <=? Z.of_nat (size (SUBJECTS_RELS (idx w)))))
           then print ("NO SUBJECT WITH ID = " +:+ Str.fmt_int i +:+ ".")
           else print_topic "subject" i) tt subjects.

(** ** The table of packages *)

(** [c * n], and the format specifications [: <n] and [: >n] on a string:
    padding with spaces on the right and on the left; nothing is cut. *)
Fixpoint times (c : ascii) (n : nat) : string :=
  match n with
  | O => EmptyString
  | S n' => String c (times c n')
  end.

Definition ljust (n : nat) (s : string) : string := s +:+ times " " (n - String.length s).
Definition rjust (n : nat) (s : string) : string := times " " (n - String.length s) +:+ s.

(** The line of a package in the table of packages. *)
Definition package_line (i : Z) (name : string) (books : nat) : string :=
  rjust 5 (Str.fmt_int i) +:+ "   " +:+ ljust LONGEST name +:+ "   "
    +:+ rjust 5 (Str.fmt_int (Z.of_nat books)).

(** [print_available_packages].  The fields of the line are formatted from
    left to right: a package that is [None] raises [TypeError] before
    [TOPICS_BOOKS] is read. *)
Definition print_available_packages : M world unit :=
  print (newline +:+ "List of available packages:" +:+ newline);;
  print (" ID   " +:+ ljust LONGEST "PACKAGE NAME" +:+ "   BOOKS");;
  print ("   " +:+ times "-" (13 + LONGEST));;
  w ← get;
  foldM (λ _ it,
           name ← match it.1 with Some n => mret n | None => raise TypeError end;
           books ← topics_books it.2;
           print (package_line it.2 name (List.length books)))
        tt (IDS_OF_PACKAGES (idx w)).

(** ** Downloading *)

(** [LINKS]: for each format, the text before and after [{doi}]. *)
Definition LINKS (ext : string) : option (string * string) :=
  if decide (ext = "pdf") then Some ("https://link.springer.com/content/pdf/", ".pdf")
  else if decide (ext = "epub") then Some ("https://link.springer.com/download/epub/", ".epub")
  else None.

Definition lift {S A} (r : result A) : M S A :=
  match r with
  | Ret a => mret a
  | Exc e => raise e
  end.

(** The two lines of [_download_book] that compute where the book goes:
    [filename = "-".join(bookname.split())] and
    [path = dest.joinpath(group, filename).with_suffix('.' + ext)]. *)
Definition book_path (dest : Path) (group : value) (ext title : string) : result Path :=
  let filename := Str.join "-" (Str.split title) in
  match Pathlib.joinpath dest [group; Some filename] with
  | Ret joined => Pathlib.with_suffix joined ("." +:+ ext)
  | Exc e => Exc e
  end.

Section Download.

Context (env : environment).

Definition mkdir (p : Path) : M world unit :=
  now ← clock;
  emit (Mkdir p);;
  if mkdir_ok env now p then mret tt else raise OSError.

Definition requests_get (doi link : string) : M world Z :=
  now ← clock;
  emit (Get doi link);;
  match response env now link with
  | Some status => mret status
  | None => raise ConnectionError
  end.

Definition write_file (doi : string) (p : Path) : M world unit :=
  now ← clock;
  emit (Write doi p);;
  if write_ok env now p then mret tt else raise OSError.

Definition _download_book (doi : value) (dest : Path) (ext : string) (group : value)
    (already_downloaded : gset value) : M world (gset value) :=
  if decide (doi ∈ already_downloaded) then
    log DEBUG ("Book " +:+ Str.fmt doi +:+ " already downloaded in " +:+ ext
                 +:+ " format, skipping.");;
    mret already_downloaded
  else
    log INFO ("Downloading book " +:+ Str.fmt doi +:+ ".");;
    w ← get;
    bookname ← getitem (BOOKS_TITLES (idx w)) doi;
    id ← match doi with Some d => mret d | None => raise TypeError end;
    let escaped := Str.quote id in
    title ← match bookname with Some t => mret t | None => raise AttributeError end;
    path ← lift (book_path dest group ext title);
    mkdir (Pathlib.parent path);;
    template ← match LINKS ext with Some t => mret t | None => raise KeyError end;
    let link := template.1 +:+ escaped +:+ template.2 in
    status ← requests_get id link;
    if negb (status =? 200) then
      log WARNING ("Couldn't download book '" +:+ title +:+ "' (response code: "
                     +:+ Str.fmt_int status +:+ ").");;
      mret already_downloaded
    else
      write_file id path;;
      log INFO ("Book " +:+ id +:+ " saved.");;
      mret (already_downloaded ∪ {[doi]}).

(** The two nested loops of [download_books]; the set is the one object
    that every call of [_download_book] receives and updates. *)
Definition download_loop (topics : list Z) (dest : Path) (extention : string)
    (group : bool) (already_downloaded : gset value) : M world (gset value) :=
  foldM (λ already tid,
           books ← topics_books tid;
           foldM (λ already doi,
                    w ← get;
                    grp ← (if group then getitem (BOOKS_PACKAGES (idx w)) doi
                           else mret (Some EmptyString));
                    _download_book doi dest extention grp already) already books)
        already_downloaded topics.

(** [download_books].  [setup_globals()] is called without its argument,
    which raises [TypeError]. *)
Definition download_books (topics : list Z) (dest : Path) (extention : string)
    (group : bool) : M world unit :=
  match LINKS extention with
  | None => log ERROR ("Unsupported format: '" +:+ extention +:+ "'.")
  | Some _ =>
      w ← get;
      (if decide (BOOKS_TITLES (idx w) = ∅) then raise TypeError else mret tt);;
      log INFO ("Entering " +:+ extention +:+ " download section.");;
      download_loop topics dest extention group ∅;;
      log INFO ("Downloading books in " +:+ extention +:+ " format finished.")
  end.

End Download.

(** ** Vocabulary of the properties *)

(** [d[k]] on a local [defaultdict(list)] read without being changed. *)
Fixpoint aget {K} `{EqDecision K} (k : K) (d : list (K * list value)) : list value :=
  match d with
  | [] => []
  | (k', l) :: d' => if decide (k' = k) then l else aget k d'
  end.

(** The names of the subjects of a row, as the first loop sees them. *)
Definition row_subjects (row : book_row) : list string :=
  from_option subjects_of [] (r_subjects row).

(** The books of a package and of a subject, in the order of the listing. *)
Definition books_in_package (q : value) (books : list book_row) : list value :=
  r_doi <$> filter (λ row, r_package row = q) books.

Definition books_in_subject (s : string) (books : list book_row) : list value :=
  books ≫= λ row, (λ _, r_doi row) <$> filter (λ s', s' = s) (row_subjects row).

Definition subjects_with (q : value) (books : list book_row) : gset string :=
  list_to_set (filter (λ row, r_package row = q) books ≫= row_subjects).

Definition packages_with (s : string) (books : list book_row) : gset value :=
  list_to_set (r_package <$> filter (λ row, s ∈ row_subjects row) books).

Abbreviation rel_of m k := (default ∅ (m !! k)).

(** What the first loop has added to the dictionaries once it has gone
    through [books], from the state [gl] to the state [gl']. *)
Record indexed (books : list book_row) (gl gl' : index * locals) : Prop := {
  ix_ids_p : IDS_OF_PACKAGES gl'.1 = IDS_OF_PACKAGES gl.1;
  ix_ids_s : IDS_OF_SUBJECTS gl'.1 = IDS_OF_SUBJECTS gl.1;
  ix_tb : TOPICS_BOOKS gl'.1 = TOPICS_BOOKS gl.1;
  ix_ti : TOPICS_IDS gl'.1 = TOPICS_IDS gl.1;
  ix_titles : dom (BOOKS_TITLES gl'.1)
              = dom (BOOKS_TITLES gl.1) ∪ list_to_set (r_doi <$> books);
  ix_prel_dom : dom (PACKAGES_RELS gl'.1)
                = dom (PACKAGES_RELS gl.1) ∪ list_to_set (r_package <$> books);
  ix_prel : ∀ q, rel_of (PACKAGES_RELS gl'.1) q
                 = rel_of (PACKAGES_RELS gl.1) q ∪ subjects_with q books;
  ix_srel_dom : dom (SUBJECTS_RELS gl'.1)
                = dom (SUBJECTS_RELS gl.1) ∪ list_to_set (books ≫= row_subjects);
  ix_srel : ∀ s, rel_of (SUBJECTS_RELS gl'.1) s
                 = rel_of (SUBJECTS_RELS gl.1) s ∪ packages_with s books;
  ix_pb_keys : ∀ q, q ∈ (PACKAGES_BOOKS gl'.2).*1
                    ↔ q ∈ r_package <$> books ∨ q ∈ (PACKAGES_BOOKS gl.2).*1;
  ix_pb_nodup : NoDup (PACKAGES_BOOKS gl.2).*1 → NoDup (PACKAGES_BOOKS gl'.2).*1;
  ix_pb : ∀ q, aget q (PACKAGES_BOOKS gl'.2)
               = aget q (PACKAGES_BOOKS gl.2) ++ books_in_package q books;
  ix_sb_keys : ∀ s, s ∈ (SUBJECTS_BOOKS gl'.2).*1
                    ↔ s ∈ books ≫= row_subjects ∨ s ∈ (SUBJECTS_BOOKS gl.2).*1;
  ix_sb_nodup : NoDup (SUBJECTS_BOOKS gl.2).*1 → NoDup (SUBJECTS_BOOKS gl'.2).*1;
  ix_sb : ∀ s, aget s (SUBJECTS_BOOKS gl'.2)
               = aget s (SUBJECTS_BOOKS gl.2) ++ books_in_subject s books
}.

(** Two indexes that differ at most in [TOPICS_BOOKS]. *)
Definition same_but_topics_books (g g' : index) : Prop :=
  BOOKS_TITLES g' = BOOKS_TITLES g ∧ BOOKS_PACKAGES g' = BOOKS_PACKAGES g ∧
  IDS_OF_PACKAGES g' = IDS_OF_PACKAGES g ∧ IDS_OF_SUBJECTS g' = IDS_OF_SUBJECTS g ∧
  TOPICS_IDS g' = TOPICS_IDS g ∧
  PACKAGES_RELS g' = PACKAGES_RELS g ∧ SUBJECTS_RELS g' = SUBJECTS_RELS g.

(** The index [g] reached from [g0]: [g1] is the state after the first
    loop, [pk] and [sk] the sorted names of packages and subjects. *)
Record numbered (books : list book_row) (g0 g1 g : index)
    (pk : list value) (sk : list string) : Prop := {
  nb_titles : BOOKS_TITLES g = BOOKS_TITLES g1;
  nb_packages : BOOKS_PACKAGES g = BOOKS_PACKAGES g1;
  nb_prel : PACKAGES_RELS g = PACKAGES_RELS g1;
  nb_srel : SUBJECTS_RELS g = SUBJECTS_RELS g1;
  nb_pk : pk ≡ₚ keys (PACKAGES_RELS g1);
  nb_pk_sorted : StronglySorted value_le pk;
  nb_sk : sk ≡ₚ keys (SUBJECTS_RELS g1);
  nb_sk_sorted : StronglySorted String.le sk;
  nb_ids_p_list : IDS_OF_PACKAGES g
                  = IDS_OF_PACKAGES (foldl number_package g1 (enumerate 1 pk));
  nb_ids_p : ∀ (k : nat) p, pk !! k = Some p →
               od_get p (IDS_OF_PACKAGES g) = Some (1 + Z.of_nat k);
  nb_ids_p_old : ∀ p, p ∉ pk → od_get p (IDS_OF_PACKAGES g) = od_get p (IDS_OF_PACKAGES g0);
  nb_ids_s : ∀ (k : nat) s, sk !! k = Some s →
               IDS_OF_SUBJECTS g !! s = Some (1 + Z.of_nat (List.length pk) + Z.of_nat k);
  nb_ids_s_old : ∀ s, s ∉ sk → IDS_OF_SUBJECTS g !! s = IDS_OF_SUBJECTS g0 !! s;
  nb_tids_p : ∀ (k : nat) p, pk !! k = Some p → TOPICS_IDS g !! (1 + Z.of_nat k) = Some p;
  nb_tids_s : ∀ (k : nat) s, sk !! k = Some s →
               TOPICS_IDS g !! (1 + Z.of_nat (List.length pk) + Z.of_nat k) = Some (Some s);
  nb_tids_old : ∀ i, ¬ (1 ≤ i < 1 + Z.of_nat (List.length pk) + Z.of_nat (List.length sk)) →
               TOPICS_IDS g !! i = TOPICS_IDS g0 !! i;
  nb_tb_p : ∀ (k : nat) p, pk !! k = Some p → p ∈ r_package <$> books →
               TOPICS_BOOKS g !! (1 + Z.of_nat k) = Some (books_in_package p books);
  nb_tb_s : ∀ (k : nat) s, sk !! k = Some s → s ∈ books ≫= row_subjects →
               TOPICS_BOOKS g !! (1 + Z.of_nat (List.length pk) + Z.of_nat k)
               = Some (books_in_subject s books);
  nb_tb_old : ∀ i,
      (∀ (k : nat) p, pk !! k = Some p → p ∈ r_package <$> books → i ≠ 1 + Z.of_nat k) →
      (∀ (k : nat) s, sk !! k = Some s → s ∈ books ≫= row_subjects →
                      i ≠ 1 + Z.of_nat (List.length pk) + Z.of_nat k) →
      TOPICS_BOOKS g !! i = TOPICS_BOOKS g0 !! i
}.

(** The rows on which [setup_globals] does not raise: every subjects cell
    is a string, and the package cells are all strings or all empty. *)
Definition rows_ok (books : list book_row) : Prop :=
  Forall (λ row, is_Some (r_subjects row)) books ∧
  ¬ (None ∈ r_package <$> books ∧ ∃ p, Some p ∈ r_package <$> books).

(** Concrete listings used in the examples. *)
Definition rows_with_empty_subjects : list book_row :=
  [ mkRow (Some "Book A") (Some "Pkg1") (Some "") (Some "10.1/aaa") ].

(** Two rows that differ at most in the raw text of their subjects cells,
    the names displayed being the same. *)
Definition same_display (r1 r2 : book_row) : Prop :=
  r_title r1 = r_title r2 ∧ r_package r1 = r_package r2 ∧ r_doi r1 = r_doi r2 ∧
  subjects_of <$> r_subjects r1 = subjects_of <$> r_subjects r2.

Definition long_name_1 : string :=
  "Computational Intelligence and Complexity in the Natural Sciences".

Definition long_name_2 : string :=
  "Computational Intelligence and Complexity in the Social Sciences".

(** The exception of an outcome, if it is one. *)
Definition exn_of {A} (r : result A) : option exn :=
  match r with
  | Ret _ => None
  | Exc e => Some e
  end.

(** [adds Q m]: whatever [m] does, it only appends events, and the events
    [t] appended at time [n] with the outcome [r] satisfy [Q n t r]. *)
Definition adds {A} (Q : nat → list event → option exn → Prop) (m : M world A) : Prop :=
  ∀ w r w', m w = (r, w') →
    ∃ t, trace w' = trace w ++ t ∧ Q (List.length (trace w)) t (exn_of r).

(** A property of appended events that survives sequencing. *)
Record sequential (Q : nat → list event → option exn → Prop) : Prop := {
  seq_nil : ∀ n r, Q n [] r;
  seq_app : ∀ n t1 t2 r,
      Q n t1 None → Q (n + List.length t1)%nat t2 r → Q n (t1 ++ t2) r
}.

(** The address from which the book [d] is fetched in the format [ext]. *)
Definition link_of (ext d : string) : option string :=
  (λ t, t.1 +:+ Str.quote d +:+ t.2) <$> LINKS ext.

(** The book [doi] has an identifier [d], a title and a destination. *)
Definition locates (g : index) (doi : value) (dest : Path) (ext : string) (grp : value)
    (d : string) (path : Path) : Prop :=
  doi = Some d ∧
  ∃ title, BOOKS_TITLES g !! doi = Some (Some title) ∧
           book_path dest grp ext title = Ret path.

(** The ways a call can go: its outcome and the events it appends, when it
    starts at time [n] with the set [ad] of books already downloaded. *)
Inductive book_run (env : environment) (n : nat) (g : index) (doi : value)
    (dest : Path) (ext : string) (grp : value) (ad : gset value)
    : result (gset value) → list event → Prop :=
| br_skip msg :
    doi ∈ ad →
    book_run env n g doi dest ext grp ad (Ret ad) [Log DEBUG msg]
| br_early e msg :
    doi ∉ ad →
    book_run env n g doi dest ext grp ad (Exc e) [Log INFO msg]
| br_mkdir_fails d path msg :
    doi ∉ ad → locates g doi dest ext grp d path →
    mkdir_ok env (n + 1) (Pathlib.parent path) = false →
    book_run env n g doi dest ext grp ad (Exc OSError)
      [Log INFO msg; Mkdir (Pathlib.parent path)]
| br_no_link d path msg :
    doi ∉ ad → locates g doi dest ext grp d path →
    mkdir_ok env (n + 1) (Pathlib.parent path) = true →
    link_of ext d = None →
    book_run env n g doi dest ext grp ad (Exc KeyError)
      [Log INFO msg; Mkdir (Pathlib.parent path)]
| br_get_fails d path link msg :
    doi ∉ ad → locates g doi dest ext grp d path →
    mkdir_ok env (n + 1) (Pathlib.parent path) = true →
    link_of ext d = Some link →
    response env (n + 2) link = None →
    book_run env n g doi dest ext grp ad (Exc ConnectionError)
      [Log INFO msg; Mkdir (Pathlib.parent path); Get d link]
| br_refused d path link status msg msg' :
    doi ∉ ad → locates g doi dest ext grp d path →
    mkdir_ok env (n + 1) (Pathlib.parent path) = true →
    link_of ext d = Some link →
    response env (n + 2) link = Some status → status ≠ 200 →
    book_run env n g doi dest ext grp ad (Ret ad)
      [Log INFO msg; Mkdir (Pathlib.parent path); Get d link; Log WARNING msg']
| br_write_fails d path link msg :
    doi ∉ ad → locates g doi dest ext grp d path →
    mkdir_ok env (n + 1) (Pathlib.parent path) = true →
    link_of ext d = Some link →
    response env (n + 2) link = Some 200 →
    write_ok env (n + 3) path = false →
    book_run env n g doi dest ext grp ad (Exc OSError)
      [Log INFO msg; Mkdir (Pathlib.parent path); Get d link; Write d path]
| br_saved d path link msg msg' :
    doi ∉ ad → locates g doi dest ext grp d path →
    mkdir_ok env (n + 1) (Pathlib.parent path) = true →
    link_of ext d = Some link →
    response env (n + 2) link = Some 200 →
    write_ok env (n + 3) path = true →
    book_run env n g doi dest ext grp ad (Ret (ad ∪ {[doi]}))
      [Log INFO msg; Mkdir (Pathlib.parent path); Get d link; Write d path; Log INFO msg'].

(** The body of the inner loop of [download_books]. *)
Definition book_body (env : environment) (dest : Path) (ext : string) (group : bool)
    (already : gset value) (doi : value) : M world (gset value) :=
  w ← get;
  grp ← (if group then getitem (BOOKS_PACKAGES (idx w)) doi else mret (Some EmptyString));
  _download_book env doi dest ext grp already.

(** The body of the outer loop. *)
Definition topic_body (env : environment) (dest : Path) (ext : string) (group : bool)
    (already : gset value) (tid : Z) : M world (gset value) :=
  books ← topics_books tid;
  foldM (book_body env dest ext group) already books.

(** The books of the requested topics, in the order the loops visit them. *)
Definition books_of (g : index) (tid : Z) : list value := default [] (TOPICS_BOOKS g !! tid).

Definition flat_books (g : index) (topics : list Z) : list value :=
  topics ≫= books_of g.

(** Two worlds that the download loop cannot tell apart: the same trace, the
    same titles and packages of books, and the same books under every ID
    (a missing ID and an ID with an empty list read the same). *)
Definition alike (w1 w2 : world) : Prop :=
  trace w1 = trace w2 ∧
  BOOKS_TITLES (idx w1) = BOOKS_TITLES (idx w2) ∧
  BOOKS_PACKAGES (idx w1) = BOOKS_PACKAGES (idx w2) ∧
  ∀ tid, books_of (idx w1) tid = books_of (idx w2) tid.

(** The directory asked for by [download_books] for a book: the package of
    the book when [group] is set, nothing otherwise. *)
Definition group_of (g : index) (group : bool) (doi : value) : option value :=
  if group then BOOKS_PACKAGES g !! doi else Some (Some EmptyString).

(** The two log lines around the loops of [download_books]. *)
Definition entering (ext : string) : event :=
  Log INFO ("Entering " +:+ ext +:+ " download section.").

Definition finished (ext : string) : event :=
  Log INFO ("Downloading books in " +:+ ext +:+ " format finished.").

(** The fetches and the writes done for the book [d]. *)
Definition is_get (d : string) (e : event) : bool :=
  match e with
  | Get d' _ => bool_decide (d' = d)
  | _ => false
  end.

Definition is_write (d : string) (e : event) : bool :=
  match e with
  | Write d' _ => bool_decide (d' = d)
  | _ => false
  end.

(** How often the book [d] is fetched, and how often its file is written,
    in a list of events. *)
Definition fetches (d : string) (t : list event) : nat :=
  List.length (List.filter (is_get d) t).

Definition writes (d : string) (t : list event) : nat :=
  List.length (List.filter (is_write d) t).

(** How often a book is listed under the requested topics. *)
Definition occurrences (d : string) (l : list value) : nat :=
  List.length (filter (λ x, x = Some d) l).

(** A destination directory for the examples. *)
Definition out_dir : Path := mkPath "" ["out"].

(** A server that answers every request with 200, one that answers every
    request with 404; both on a file system without failures. *)
Definition env_serving : environment := mkEnv (λ _ _, Some 200) (λ _ _, true) (λ _ _, true).

Definition env_refusing : environment := mkEnv (λ _ _, Some 404) (λ _ _, true) (λ _ _, true).

Definition refused_run : result unit * world :=
  download_books env_refusing [1; 3] out_dir "pdf" false (mkWorld example_index []).

(** The exception that the event [e], done at time [n], raises, if any. *)
Definition raises_at (env : environment) (n : nat) (e : event) : option exn :=
  match e with
  | Mkdir p => if mkdir_ok env n p then None else Some OSError
  | Write _ p => if write_ok env n p then None else Some OSError
  | Get _ link => if response env n link is Some _ then None else Some ConnectionError
  | _ => None
  end.

(** Of the events [t] appended from time [n] on: an event that raises is the
    last one and its exception is the outcome; a write comes right after the
    fetch of the same book, which comes right after the creation of the
    parent directory of the written path. *)
Definition fail_stop (env : environment) (n : nat) (t : list event) (r : option exn) : Prop :=
  (∀ k e x, t !! k = Some e → raises_at env (n + k) e = Some x →
            r = Some x ∧ List.length t = S k) ∧
  (∀ k d p, t !! k = Some (Write d p) →
            ∃ link, (2 ≤ k)%nat ∧ t !! (k - 1)%nat = Some (Get d link) ∧
                    t !! (k - 2)%nat = Some (Mkdir (Pathlib.parent p))).

(** Case analysis on the position [k] of a lookup in an explicit list. *)
Ltac split_lookup k Hk :=
  lazymatch type of Hk with
  | None = Some _ => discriminate Hk
  | [] !! _ = Some _ => by destruct k
  | (_ :: _) !! _ = Some _ =>
      destruct k as [|k]; [cbn in Hk | cbn in Hk; split_lookup k Hk]
  end.

(** A file system on which the creation of a directory fails once, at the
    time of the first book. *)
Definition env_first_mkdir_fails : environment :=
  mkEnv (λ _ _, Some 200) (λ n _, negb (n =? 2)%nat) (λ _ _, true).

Definition interrupted_run : result unit * world :=
  download_books env_first_mkdir_fails [1] out_dir "pdf" false (mkWorld example_index []).

(** The sanitised file name in the words of the specification, to be
    compared with what [book_path] computes: the title with every run of
    whitespace replaced by one hyphen. *)
Fixpoint spec_sanitized (title : string) : string :=
  match title with
  | EmptyString => EmptyString
  | String c rest =>
      if Str.isspace c then
        match rest with
        | String c' _ => if Str.isspace c' then spec_sanitized rest
                         else String "-" (spec_sanitized rest)
        | EmptyString => "-"
        end
      else String c (spec_sanitized rest)
  end.

(** A listing with a title that contains a dot, and its download. *)
Definition rows_with_dotted_title : list book_row :=
  [ mkRow (Some "Python 3.8 Guide") (Some "Pkg1") (Some "Math") (Some "10.1/ddd") ].

Definition dotted_run : result unit * world :=
  download_books env_serving [1] out_dir "pdf" false
    (mkWorld (setup_globals rows_with_dotted_title fresh).2 []).

(** A write goes where [book_path] sends the title of its book. *)
Definition saved_at (g : index) (dest : Path) (ext : string) (group : bool) (e : event) : Prop :=
  match e with
  | Write d p =>
      ∃ title grp, BOOKS_TITLES g !! Some d = Some (Some title) ∧
                   group_of g group (Some d) = Some grp ∧
                   book_path dest grp ext title = Ret p
  | _ => True
  end.

(** The row that the loop of [setup_globals] receives for a row of the
    sheet whose identifier cell is filled. *)
Definition book_of (c : sheet_row) : book_row :=
  mkRow (cell_A c) (cell_L c) (cell_T c) (strip_chars "http://doi.org/" <$> cell_R c).

(** The title that [BOOKS_TITLES] holds for [d] after the rows [books]:
    that of the last row with this identifier. *)
Definition title_of (books : list book_row) (d : value) : option value :=
  r_title <$> last (filter (λ row, r_doi row = d) books).

(** A sheet with a header and two books, the first without a title; and a
    sheet whose only book has every required field but an empty subjects
    cell. *)
Definition header_cells : sheet_row :=
  mkCells (Some "Book Title") (Some "English Package Name")
    (Some "Subject Classification") (Some "DOI URL").

Definition sheet_missing_title : list sheet_row :=
  [ header_cells;
    mkCells None (Some "Pkg1") (Some "Math") (Some "http://doi.org/10.1007/aaa");
    mkCells (Some "Book B") (Some "Pkg1") (Some "Math") (Some "http://doi.org/10.1007/bbb") ].

Definition sheet_missing_subjects : list sheet_row :=
  [ header_cells;
    mkCells (Some "Book A") (Some "Pkg1") None (Some "http://doi.org/10.1007/aaa") ].

Definition sheet_partial : list sheet_row :=
  sheet_missing_title
    ++ [ mkCells (Some "Book C") (Some "Pkg2") None (Some "http://doi.org/10.1007/ccc") ].

(** A book that [download_books] can take as far as the fetch: it has an
    identifier, a title, a directory and a destination path. *)
Definition ready (g : index) (dest : Path) (ext : string) (group : bool) (doi : value) : Prop :=
  ∃ d title grp path,
    doi = Some d ∧ BOOKS_TITLES g !! doi = Some (Some title) ∧
    group_of g group doi = Some grp ∧ book_path dest grp ext title = Ret path.

(** A file system that never fails and a server that always answers. *)
Definition never_fails (env : environment) : Prop :=
  (∀ n p, mkdir_ok env n p = true) ∧ (∀ n p, write_ok env n p = true) ∧
  (∀ n link, is_Some (response env n link)).

(** The warning logged for a refused fetch. *)
Definition refusal (title : string) (status : Z) : event :=
  Log WARNING ("Couldn't download book '" +:+ title +:+ "' (response code: "
                 +:+ Str.fmt_int status +:+ ").").

(** The package that [BOOKS_PACKAGES] holds for [d] after the rows [books]:
    that of the last row with this identifier. *)
Definition package_of (books : list book_row) (d : value) : option value :=
  r_package <$> last (filter (λ row, r_doi row = d) books).

(** Every character of [s] satisfies [P]. *)
Fixpoint all_chars (P : ascii → bool) (s : string) : bool :=
  match s with
  | EmptyString => true
  | String c s' => P c && all_chars P s'
  end.

(** The characters that [quote] lets through or produces. *)
Definition quoted_char (c : ascii) : bool := Str.unreserved c || bool_decide (c = "%"%char).

(** Of the events [t] appended from time [n] on: every fetch comes right
    after the successful creation of a directory and asks for the link of
    the format with the identifier of its book. *)
Definition fetch_follows_mkdir (env : environment) (ext : string)
    (n : nat) (t : list event) (r : option exn) : Prop :=
  ∀ k d link, t !! k = Some (Get d link) →
    link_of ext d = Some link ∧
    ∃ p, (1 ≤ k)%nat ∧ t !! (k - 1)%nat = Some (Mkdir p) ∧
         mkdir_ok env (n + (k - 1)) p = true.

(** The index [g'] is [g] but for empty book lists stored under IDs of [T]
    that had none. *)
Definition same_books (T : list Z) (g g' : index) : Prop :=
  same_but_topics_books g g' ∧
  ∀ tid, TOPICS_BOOKS g' !! tid = TOPICS_BOOKS g !! tid
         ∨ (tid ∈ T ∧ TOPICS_BOOKS g !! tid = None ∧ TOPICS_BOOKS g' !! tid = Some []).

(** The two lines that [print_books_in_topic] prints for an ID that it
    rejects, and the line that opens the books of a topic. *)
Definition no_package (i : Z) : event :=
  Print ("NO PACKAGE WITH ID = " +:+ Str.fmt_int i +:+ ".").

Definition no_subject (i : Z) : event :=
  Print ("NO SUBJECT WITH ID = " +:+ Str.fmt_int i +:+ ".").

Definition books_in (kind : string) (topic : value) : event :=
  Print (newline +:+ "Books in " +:+ kind +:+ " " +:+ dquote +:+ Str.fmt topic +:+ dquote +:+ ":").

(** The three lines above the table of packages. *)
Definition packages_head : list string :=
  [ newline +:+ "List of available packages:" +:+ newline;
    " ID   " +:+ ljust LONGEST "PACKAGE NAME" +:+ "   BOOKS";
    "   " +:+ times "-" (13 + LONGEST) ].

(** * Properties *)

(** ** Strings *)

Lemma take_length n s : String.length (Str.take n s) = (n `min` String.length s)%nat.
Proof. revert s; induction n as [|n IH]; intros [|c s]; simpl; auto. Qed.

Lemma append_length (a b : string) :
  String.length (a +:+ b) = (String.length a + String.length b)%nat.
Proof. induction a as [|c a IH]; simpl; auto. Qed.

Lemma shorten_short s : (String.length s < LONGEST)%nat → shorten s = s.
Proof. intros Hs. unfold shorten. destruct (Nat.ltb_spec (String.length s) LONGEST); [done|lia]. Qed.

Lemma shorten_long s :
  (LONGEST ≤ String.length s)%nat → shorten s = Str.take 47 s +:+ "...".
Proof. intros Hs. unfold shorten. destruct (Nat.ltb_spec (String.length s) LONGEST); [lia|done]. Qed.

Lemma shorten_length s : (String.length (shorten s) ≤ LONGEST)%nat.
Proof.
  unfold shorten. destruct (Nat.ltb_spec (String.length s) LONGEST) as [H|H]; [lia|].
  rewrite append_length, take_length. unfold LONGEST in *.
  change (String.length "...") with 3%nat. lia.
Qed.

Lemma split_on_nonempty c s : Str.split_on c s ≠ [].
Proof. destruct s as [|a s]; simpl; [done|]. case_decide; [done|]. by destruct (Str.split_on c s). Qed.

Lemma subjects_of_nonempty field : subjects_of field ≠ [].
Proof.
  unfold subjects_of. pose proof (split_on_nonempty ";" field).
  by destruct (Str.split_on ";" field).
Qed.

Lemma subjects_of_length field s : s ∈ subjects_of field → (String.length s ≤ LONGEST)%nat.
Proof.
  unfold subjects_of. intros (x & -> & _)%list_elem_of_fmap. apply shorten_length.
Qed.

(** ** Insertion-ordered dictionaries of lists *)

Section alist.

Context {K : Type} `{EqDecision K}.
Implicit Types (d : list (K * list value)) (k : K).

Lemma aget_append_to_eq k x d : aget k (append_to k x d) = aget k d ++ [x].
Proof.
  induction d as [|[k' l] d IH]; simpl.
  - by rewrite decide_True.
  - case_decide; simpl; case_decide; try done.
Qed.

Lemma aget_append_to_ne k k' x d : k ≠ k' → aget k' (append_to k x d) = aget k' d.
Proof.
  intros Hne. induction d as [|[k'' l] d IH]; simpl.
  - by rewrite decide_False.
  - case_decide; simpl; case_decide; subst; try done.
Qed.

Lemma elem_of_keys_append_to k k' x d :
  k' ∈ (append_to k x d).*1 ↔ k' = k ∨ k' ∈ d.*1.
Proof.
  induction d as [|[k'' l] d IH]; simpl.
  - set_solver.
  - case_decide; subst; simpl; set_solver.
Qed.

Lemma NoDup_keys_append_to k x d : NoDup d.*1 → NoDup (append_to k x d).*1.
Proof.
  induction d as [|[k'' l] d IH]; simpl; intros Hnd.
  - apply NoDup_singleton.
  - apply NoDup_cons in Hnd as [Hni Hnd].
    case_decide; subst; simpl; apply NoDup_cons; split; auto.
    rewrite elem_of_keys_append_to. naive_solver.
Qed.

Lemma aget_mono k k' x d y : y ∈ aget k' d → y ∈ aget k' (append_to k x d).
Proof.
  destruct (decide (k = k')) as [->|Hne].
  - rewrite aget_append_to_eq. set_solver.
  - by rewrite aget_append_to_ne.
Qed.

Lemma aget_not_key k d : k ∉ d.*1 → aget k d = [].
Proof.
  induction d as [|[k' l] d IH]; simpl; [done|].
  intros Hni. case_decide; set_solver.
Qed.

End alist.

Section odict.

Context {K V : Type} `{EqDecision K}.
Implicit Types (d : list (K * V)) (k : K) (v : V).

Lemma od_get_set_eq k v d : od_get k (od_set k v d) = Some v.
Proof.
  induction d as [|[k' v'] d IH]; simpl.
  - by rewrite decide_True.
  - case_decide; simpl; [by rewrite decide_True|by rewrite decide_False].
Qed.

Lemma od_get_set_ne k k' v d : k ≠ k' → od_get k' (od_set k v d) = od_get k' d.
Proof.
  intros Hne. induction d as [|[k'' v''] d IH]; simpl.
  - by rewrite decide_False.
  - case_decide; simpl; subst.
    + by rewrite !decide_False.
    + case_decide; done.
Qed.

Lemma od_set_id k v d : od_get k d = Some v → od_set k v d = d.
Proof.
  induction d as [|[k' v'] d IH]; simpl; [done|].
  case_decide; [by intros [= ->]; subst|]. intros Hg. by rewrite IH.
Qed.

Lemma od_set_fresh k v d : od_get k d = None → od_set k v d = d ++ [(k, v)].
Proof.
  induction d as [|[k' v'] d IH]; simpl; [done|].
  case_decide; [done|]. intros Hg. by rewrite IH.
Qed.

Lemma od_get_app_None k d d' : od_get k d = None → od_get k (d ++ d') = od_get k d'.
Proof.
  induction d as [|[k' v'] d IH]; simpl; [done|]. case_decide; [done|auto].
Qed.

Lemma od_get_None k d : od_get k d = None ↔ k ∉ d.*1.
Proof.
  induction d as [|[k' v'] d IH]; simpl.
  - split; [intros _; apply not_elem_of_nil|done].
  - case_decide; subst.
    + split; [done|]. intros Hn. destruct Hn. apply list_elem_of_here.
    + rewrite IH, not_elem_of_cons. naive_solver.
Qed.

End odict.

(** ** The first loop of [setup_globals] *)

Section inner_loop.

Context (p d : value).

Lemma add_subjects_frame subs g loc :
  let gl := foldl (add_subject p d) (g, loc) subs in
  BOOKS_TITLES gl.1 = BOOKS_TITLES g ∧ BOOKS_PACKAGES gl.1 = BOOKS_PACKAGES g ∧
  IDS_OF_PACKAGES gl.1 = IDS_OF_PACKAGES g ∧ IDS_OF_SUBJECTS gl.1 = IDS_OF_SUBJECTS g ∧
  TOPICS_BOOKS gl.1 = TOPICS_BOOKS g ∧ TOPICS_IDS gl.1 = TOPICS_IDS g ∧
  PACKAGES_BOOKS gl.2 = PACKAGES_BOOKS loc.
Proof.
  revert g loc. induction subs as [|s subs IH]; intros g loc; [done|].
  cbn [foldl]. set (gl1 := add_subject p d (g, loc) s).
  specialize (IH gl1.1 gl1.2). rewrite <-surjective_pairing in IH.
  cbv zeta in *. destruct IH as (-> & -> & -> & -> & -> & -> & ->). done.
Qed.

Lemma add_subjects_packages_rels subs g loc :
  let gl := foldl (add_subject p d) (g, loc) subs in
  dom (PACKAGES_RELS gl.1)
    = dom (PACKAGES_RELS g) ∪ (if subs is [] then ∅ else {[p]}) ∧
  ∀ q, rel_of (PACKAGES_RELS gl.1) q
       = rel_of (PACKAGES_RELS g) q ∪ (if decide (q = p) then list_to_set subs else ∅).
Proof.
  revert g loc. induction subs as [|s subs IH]; intros g loc.
  - simpl. split; [set_solver|]. intros q. case_decide; set_solver.
  - cbn [foldl]. set (gl1 := add_subject p d (g, loc) s).
    specialize (IH gl1.1 gl1.2). rewrite <-surjective_pairing in IH.
    cbv zeta in *. destruct IH as [IH1 IH2]. split.
    + rewrite IH1. simpl. rewrite dom_insert_L. destruct subs; set_solver.
    + intros q. rewrite IH2. simpl. destruct (decide (q = p)) as [->|Hne].
      * rewrite lookup_insert_eq. simpl. set_solver.
      * rewrite lookup_insert_ne by done. set_solver.
Qed.

Lemma add_subjects_subjects_rels subs g loc :
  let gl := foldl (add_subject p d) (g, loc) subs in
  dom (SUBJECTS_RELS gl.1) = dom (SUBJECTS_RELS g) ∪ list_to_set subs ∧
  ∀ s, rel_of (SUBJECTS_RELS gl.1) s
       = rel_of (SUBJECTS_RELS g) s ∪ (if decide (s ∈ subs) then {[p]} else ∅).
Proof.
  revert g loc. induction subs as [|x subs IH]; intros g loc.
  - simpl. split; [set_solver|]. intros s. repeat case_decide; set_solver.
  - cbn [foldl]. set (gl1 := add_subject p d (g, loc) x).
    specialize (IH gl1.1 gl1.2). rewrite <-surjective_pairing in IH.
    cbv zeta in *. destruct IH as [IH1 IH2]. split.
    + rewrite IH1. simpl. rewrite dom_insert_L. set_solver.
    + intros s. rewrite IH2. simpl. destruct (decide (x = s)) as [->|Hne].
      * rewrite lookup_insert_eq. simpl. repeat case_decide; set_solver.
      * rewrite lookup_insert_ne by done. repeat case_decide; set_solver.
Qed.

Lemma add_subjects_subjects_books subs g loc :
  let gl := foldl (add_subject p d) (g, loc) subs in
  (∀ s, s ∈ (SUBJECTS_BOOKS gl.2).*1 ↔ s ∈ subs ∨ s ∈ (SUBJECTS_BOOKS loc).*1) ∧
  (NoDup (SUBJECTS_BOOKS loc).*1 → NoDup (SUBJECTS_BOOKS gl.2).*1) ∧
  ∀ s, aget s (SUBJECTS_BOOKS gl.2)
       = aget s (SUBJECTS_BOOKS loc) ++ ((λ _, d) <$> filter (λ s', s' = s) subs).
Proof.
  revert g loc. induction subs as [|x subs IH]; intros g loc.
  - simpl. split_and!; [set_solver|done|]. intros s. by rewrite app_nil_r.
  - cbn [foldl]. set (gl1 := add_subject p d (g, loc) x).
    specialize (IH gl1.1 gl1.2). rewrite <-surjective_pairing in IH.
    cbv zeta in *. destruct IH as (IH1 & IH2 & IH3). split_and!.
    + intros s. rewrite IH1. simpl. rewrite elem_of_keys_append_to. set_solver.
    + intros Hnd. apply IH2. simpl. by apply NoDup_keys_append_to.
    + intros s. rewrite IH3. simpl. rewrite filter_cons.
      destruct (decide (x = s)) as [->|Hne].
      * rewrite aget_append_to_eq. by rewrite <-app_assoc.
      * by rewrite aget_append_to_ne.
Qed.

End inner_loop.

Lemma indexed_nil gl : indexed [] gl gl.
Proof.
  split; try done; unfold subjects_with, packages_with, books_in_package, books_in_subject;
    simpl; try set_solver; intros; by rewrite app_nil_r.
Qed.

Lemma indexed_cons row books gl gl1 gl2 :
  indexed [row] gl gl1 → indexed books gl1 gl2 → indexed (row :: books) gl gl2.
Proof.
  intros H1 H2. split.
  - rewrite (ix_ids_p _ _ _ H2). apply (ix_ids_p _ _ _ H1).
  - rewrite (ix_ids_s _ _ _ H2). apply (ix_ids_s _ _ _ H1).
  - rewrite (ix_tb _ _ _ H2). apply (ix_tb _ _ _ H1).
  - rewrite (ix_ti _ _ _ H2). apply (ix_ti _ _ _ H1).
  - rewrite (ix_titles _ _ _ H2), (ix_titles _ _ _ H1). clear. set_solver.
  - rewrite (ix_prel_dom _ _ _ H2), (ix_prel_dom _ _ _ H1). clear. set_solver.
  - intros q. rewrite (ix_prel _ _ _ H2), (ix_prel _ _ _ H1). clear. unfold subjects_with.
    rewrite (filter_cons _ row books), (filter_cons _ row []), filter_nil.
    destruct (decide (r_package row = q)); simpl; set_solver.
  - rewrite (ix_srel_dom _ _ _ H2), (ix_srel_dom _ _ _ H1). clear. set_solver.
  - intros s. rewrite (ix_srel _ _ _ H2), (ix_srel _ _ _ H1). clear. unfold packages_with.
    rewrite (filter_cons _ row books), (filter_cons _ row []), filter_nil.
    destruct (decide (s ∈ row_subjects row)); simpl; set_solver.
  - intros q. rewrite (ix_pb_keys _ _ _ H2), (ix_pb_keys _ _ _ H1). clear. set_solver.
  - intros Hnd. apply (ix_pb_nodup _ _ _ H2), (ix_pb_nodup _ _ _ H1), Hnd.
  - intros q. rewrite (ix_pb _ _ _ H2), (ix_pb _ _ _ H1). unfold books_in_package.
    rewrite (filter_cons _ row books), (filter_cons _ row []), filter_nil.
    rewrite <-app_assoc. f_equal. destruct (decide (r_package row = q)); simpl; done.
  - intros s. rewrite (ix_sb_keys _ _ _ H2), (ix_sb_keys _ _ _ H1). clear. set_solver.
  - intros Hnd. apply (ix_sb_nodup _ _ _ H2), (ix_sb_nodup _ _ _ H1), Hnd.
  - intros s. rewrite (ix_sb _ _ _ H2), (ix_sb _ _ _ H1). unfold books_in_subject. simpl.
    rewrite app_nil_r. by rewrite <-app_assoc.
Qed.

Lemma add_row_indexed row field gl :
  r_subjects row = Some field →
  ∃ gl', add_row row gl = (Ret tt, gl') ∧ indexed [row] gl gl'.
Proof.
  intros Hf. destruct gl as [g loc]. unfold add_row. rewrite Hf.
  set (g1 := mkIndex _ _ _ _ _ _ _ _). set (loc1 := mkLocals _ _).
  pose proof (add_subjects_frame (r_package row) (r_doi row) (subjects_of field) g1 loc1) as Hfr.
  pose proof (add_subjects_packages_rels (r_package row) (r_doi row) (subjects_of field) g1 loc1) as Hpr.
  pose proof (add_subjects_subjects_rels (r_package row) (r_doi row) (subjects_of field) g1 loc1) as Hsr.
  pose proof (add_subjects_subjects_books (r_package row) (r_doi row) (subjects_of field) g1 loc1) as Hsb.
  pose proof (subjects_of_nonempty field) as Hne.
  destruct (foldl _ _ _) as [g2 loc2]. cbv zeta in *. simpl in Hfr, Hpr, Hsr, Hsb.
  destruct Hfr as (Ht & Hp & Hip & His & Htb & Hti & Hpb).
  simpl in Hip. destruct Hpr as [Hpr1 Hpr2]. destruct Hsr as [Hsr1 Hsr2]. destruct Hsb as (Hsb1 & Hsb2 & Hsb3).
  eexists; split; [done|].
  assert (row_subjects row = subjects_of field) as Hrs by (unfold row_subjects; by rewrite Hf).
  split; simpl; try done; clear Hip.
  - rewrite dom_insert_L, Ht. set_solver.
  - rewrite Hpr1. destruct (subjects_of field); [done|]. set_solver.
  - intros q. rewrite Hpr2. unfold subjects_with. rewrite filter_cons, filter_nil.
    repeat case_decide; simplify_eq; simpl; rewrite ?app_nil_r, ?Hrs; set_solver.
  - rewrite Hsr1, Hrs. set_solver.
  - intros s. rewrite Hsr2. unfold packages_with. rewrite filter_cons, filter_nil, Hrs.
    repeat case_decide; simpl; set_solver.
  - intros q. rewrite Hpb. simpl. rewrite elem_of_keys_append_to. set_solver.
  - intros Hnd. rewrite Hpb. simpl. by apply NoDup_keys_append_to.
  - intros q. rewrite Hpb. simpl. unfold books_in_package. rewrite filter_cons, filter_nil.
    case_decide as Hq; simpl.
    + rewrite Hq. by rewrite aget_append_to_eq.
    + rewrite aget_append_to_ne by done. by rewrite app_nil_r.
  - intros s. rewrite Hsb1, app_nil_r, Hrs. done.
  - intros s. rewrite Hsb3. unfold books_in_subject. simpl. by rewrite app_nil_r, Hrs.
Qed.

Lemma add_rows_indexed books gl :
  Forall (λ row, is_Some (r_subjects row)) books →
  ∃ gl', add_rows books gl = (Ret tt, gl') ∧ indexed books gl gl'.
Proof.
  revert gl. induction books as [|row books IH]; intros gl Hall.
  - exists gl. split; [done|apply indexed_nil].
  - apply Forall_cons in Hall as [[field Hf] Hall].
    destruct (add_row_indexed row field gl Hf) as (gl1 & Hrow & Hix1).
    destruct (IH gl1 Hall) as (gl2 & Hrows & Hix2).
    exists gl2. split; [|by eapply indexed_cons].
    simpl. by rewrite Hrow.
Qed.

(** A row whose subjects cell is empty stops the loop with [AttributeError];
    the rows before it stay indexed. *)
Lemma add_rows_raises books gl :
  ¬ Forall (λ row, is_Some (r_subjects row)) books →
  ∃ done_rows row rest gl',
    books = done_rows ++ row :: rest ∧ r_subjects row = None ∧
    add_rows books gl = (Exc AttributeError, gl') ∧ indexed done_rows gl gl'.
Proof.
  revert gl. induction books as [|row books IH]; intros gl Hall.
  - destruct Hall. constructor.
  - destruct (r_subjects row) as [field|] eqn:Hf.
    + destruct (add_row_indexed row field gl Hf) as (gl1 & Hrow & Hix1).
      destruct (IH gl1) as (dr & row' & rest & gl' & -> & Hnone & Hrun & Hix).
      { intros Hall'. apply Hall. constructor; [by rewrite Hf|done]. }
      exists (row :: dr), row', rest, gl'. split_and!; [done|done| |by eapply indexed_cons].
      simpl. by rewrite Hrow.
    + exists [], row, books, gl. split_and!; [done|done| |apply indexed_nil].
      simpl. unfold add_row. by rewrite Hf.
Qed.

(** ** Sorting and numbering *)

Global Instance value_le_trans : Transitive value_le.
Proof.
  intros [x|] [y|] [z|]; simpl; try done. apply (transitivity (R:=String.le)).
Qed.

Global Instance value_le_total : Total value_le.
Proof. intros [x|] [y|]; simpl; auto. apply (total String.le). Qed.

Global Instance value_le_antisymm : AntiSymm (=) value_le.
Proof.
  intros [x|] [y|]; simpl; try done. intros ??. f_equal. by apply (anti_symm String.le).
Qed.

Lemma sorted_perm l1 l2 : l1 ≡ₚ l2 → sorted l1 = sorted l2.
Proof.
  intros Hp. unfold sorted.
  assert (merge_sort value_le l1 = merge_sort value_le l2) as ->.
  { apply (StronglySorted_unique value_le); try apply StronglySorted_merge_sort; try apply _.
    by rewrite !merge_sort_Permutation. }
  destruct (decide (2 ≤ List.length l1 ∧ None ∈ l1)%nat) as [H1|H1];
    destruct (decide (2 ≤ List.length l2 ∧ None ∈ l2)%nat) as [H2|H2]; try done;
    exfalso; [apply H2|apply H1]; [rewrite <-Hp|rewrite Hp]; done.
Qed.

Lemma sorted_Ret l pk :
  sorted l = Ret pk → pk ≡ₚ l ∧ StronglySorted value_le pk.
Proof.
  unfold sorted. case_decide; [done|]. intros [= <-]. split.
  - apply merge_sort_Permutation.
  - apply StronglySorted_merge_sort; apply _.
Qed.

Lemma sorted_Exc l e :
  sorted l = Exc e ↔ e = TypeError ∧ (2 ≤ List.length l)%nat ∧ None ∈ l.
Proof.
  unfold sorted. case_decide as H; split; try done.
  - by intros [= <-].
  - by intros [-> _].
  - intros (_ & ? & ?). destruct H. done.
Qed.

Lemma sorted_str_perm l : sorted_str l ≡ₚ l.
Proof. apply merge_sort_Permutation. Qed.

Lemma sorted_str_sorted l : StronglySorted String.le (sorted_str l).
Proof. apply StronglySorted_merge_sort; apply _. Qed.

Lemma sorted_str_unique l1 l2 : l1 ≡ₚ l2 → sorted_str l1 = sorted_str l2.
Proof.
  intros Hp. apply (StronglySorted_unique String.le); try apply sorted_str_sorted; try apply _.
  by rewrite !sorted_str_perm.
Qed.

Section keys.

Context {K V : Type} `{Countable K}.
Implicit Types m : gmap K V.

Lemma elem_of_keys m k : k ∈ keys m ↔ k ∈ dom m.
Proof.
  unfold keys. rewrite elem_of_dom, list_elem_of_fmap. split.
  - intros ([k' v] & -> & Hin). apply elem_of_map_to_list in Hin. eauto.
  - intros [v Hv]. exists (k, v). split; [done|]. by apply elem_of_map_to_list.
Qed.

Lemma NoDup_keys m : NoDup (keys m).
Proof. apply NoDup_fst_map_to_list. Qed.

Lemma length_keys m : List.length (keys m) = size m.
Proof. unfold keys. by rewrite length_fmap, length_map_to_list. Qed.

Lemma keys_perm m1 m2 : dom m1 = dom m2 → keys m1 ≡ₚ keys m2.
Proof.
  intros Hd. apply NoDup_Permutation; try apply NoDup_keys.
  intros k. by rewrite !elem_of_keys, Hd.
Qed.

Lemma size_dom_eq m1 m2 : dom m1 = dom m2 → size m1 = size m2.
Proof. intros Hd. rewrite <-!length_keys. by rewrite (keys_perm m1 m2). Qed.

End keys.

Lemma enumerate_lookup {A} (l : list A) start k x :
  l !! k = Some x → enumerate start l !! k = Some (start + Z.of_nat k, x).
Proof.
  revert start k. induction l as [|y l IH]; intros start [|k] Hl; simplify_eq/=.
  - do 2 f_equal. lia.
  - rewrite (IH _ _ Hl). do 2 f_equal. lia.
Qed.

(** The loop that numbers the packages. *)
Lemma number_packages_spec pk start g :
  NoDup pk →
  let g' := foldl number_package g (enumerate start pk) in
  (BOOKS_TITLES g' = BOOKS_TITLES g ∧ BOOKS_PACKAGES g' = BOOKS_PACKAGES g ∧
   IDS_OF_SUBJECTS g' = IDS_OF_SUBJECTS g ∧ TOPICS_BOOKS g' = TOPICS_BOOKS g ∧
   PACKAGES_RELS g' = PACKAGES_RELS g ∧ SUBJECTS_RELS g' = SUBJECTS_RELS g) ∧
  (∀ (k : nat) p, pk !! k = Some p →
                  od_get p (IDS_OF_PACKAGES g') = Some (start + Z.of_nat k)) ∧
  (∀ p, p ∉ pk → od_get p (IDS_OF_PACKAGES g') = od_get p (IDS_OF_PACKAGES g)) ∧
  (∀ (k : nat) p, pk !! k = Some p → TOPICS_IDS g' !! (start + Z.of_nat k) = Some p) ∧
  (∀ i, ¬ (start ≤ i < start + Z.of_nat (List.length pk)) →
        TOPICS_IDS g' !! i = TOPICS_IDS g !! i).
Proof.
  revert start g. induction pk as [|p pk IH]; intros start g Hnd; cbn [enumerate foldl].
  - cbv zeta. split_and!; try done.
  - apply NoDup_cons in Hnd as [Hni Hnd].
    specialize (IH (start + 1) (number_package g (start, p)) Hnd). cbv zeta in *.
    destruct IH as ((-> & -> & -> & -> & -> & ->) & IHa & IHb & IHc & IHd).
    split_and!; try done.
    + intros [|k] q Hq; simplify_eq/=.
      * rewrite IHb by done. simpl. rewrite od_get_set_eq. f_equal. lia.
      * rewrite (IHa _ _ Hq). f_equal. lia.
    + intros q Hq. apply not_elem_of_cons in Hq as [Hne Hq].
      rewrite IHb by done. simpl. by rewrite od_get_set_ne.
    + intros [|k] q Hq; simplify_eq/=.
      * rewrite IHd by lia. simpl. rewrite Z.add_0_r. by rewrite lookup_insert_eq.
      * replace (start + Z.of_nat (S k)) with (start + 1 + Z.of_nat k) by lia. eauto.
    + intros i Hi. simpl in Hi. rewrite IHd by lia. simpl.
      rewrite lookup_insert_ne; [done|lia].
Qed.

(** Numbering packages that already have these numbers changes nothing. *)
Lemma number_packages_same pk start g :
  (∀ (k : nat) p, pk !! k = Some p →
                  od_get p (IDS_OF_PACKAGES g) = Some (start + Z.of_nat k)) →
  IDS_OF_PACKAGES (foldl number_package g (enumerate start pk)) = IDS_OF_PACKAGES g.
Proof.
  revert start g. induction pk as [|p pk IH]; intros start g Hall; cbn [enumerate foldl]; [done|].
  assert (IDS_OF_PACKAGES (number_package g (start, p)) = IDS_OF_PACKAGES g) as Hstep.
  { simpl. apply od_set_id. rewrite (Hall 0%nat p eq_refl). f_equal. lia. }
  rewrite IH; [done|]. intros k q Hq. rewrite Hstep, (Hall (S k) q Hq). f_equal. lia.
Qed.

(** From no numbers at all, the packages come out in the order of [pk]. *)
Lemma number_packages_order pk start g :
  NoDup pk → (∀ p, p ∈ pk → od_get p (IDS_OF_PACKAGES g) = None) →
  IDS_OF_PACKAGES (foldl number_package g (enumerate start pk))
  = IDS_OF_PACKAGES g ++ ((λ it, (it.2, it.1)) <$> enumerate start pk).
Proof.
  revert start g. induction pk as [|p pk IH]; intros start g Hnd Hnew; cbn [enumerate foldl].
  - by rewrite app_nil_r.
  - apply NoDup_cons in Hnd as [Hni Hnd]. rewrite IH; [|done|].
    + simpl. rewrite od_set_fresh by (apply Hnew; set_solver). by rewrite <-app_assoc.
    + intros q Hq. simpl. rewrite od_get_set_ne by set_solver. apply Hnew. set_solver.
Qed.

(** The loop that numbers the subjects. *)
Lemma number_subjects_spec sk start g :
  NoDup sk →
  let g' := foldl number_subject g (enumerate start sk) in
  (BOOKS_TITLES g' = BOOKS_TITLES g ∧ BOOKS_PACKAGES g' = BOOKS_PACKAGES g ∧
   IDS_OF_PACKAGES g' = IDS_OF_PACKAGES g ∧ TOPICS_BOOKS g' = TOPICS_BOOKS g ∧
   PACKAGES_RELS g' = PACKAGES_RELS g ∧ SUBJECTS_RELS g' = SUBJECTS_RELS g) ∧
  (∀ (k : nat) s, sk !! k = Some s → IDS_OF_SUBJECTS g' !! s = Some (start + Z.of_nat k)) ∧
  (∀ s, s ∉ sk → IDS_OF_SUBJECTS g' !! s = IDS_OF_SUBJECTS g !! s) ∧
  (∀ (k : nat) s, sk !! k = Some s → TOPICS_IDS g' !! (start + Z.of_nat k) = Some (Some s)) ∧
  (∀ i, ¬ (start ≤ i < start + Z.of_nat (List.length sk)) →
        TOPICS_IDS g' !! i = TOPICS_IDS g !! i).
Proof.
  revert start g. induction sk as [|p sk IH]; intros start g Hnd; cbn [enumerate foldl].
  - cbv zeta. split_and!; try done.
  - apply NoDup_cons in Hnd as [Hni Hnd].
    specialize (IH (start + 1) (number_subject g (start, p)) Hnd). cbv zeta in *.
    destruct IH as ((-> & -> & -> & -> & -> & ->) & IHa & IHb & IHc & IHd).
    split_and!; try done.
    + intros [|k] q Hq; simplify_eq/=.
      * rewrite IHb by done. simpl. rewrite lookup_insert_eq. f_equal. lia.
      * rewrite (IHa _ _ Hq). f_equal. lia.
    + intros q Hq. apply not_elem_of_cons in Hq as [Hne Hq].
      rewrite IHb by done. simpl. by rewrite lookup_insert_ne.
    + intros [|k] q Hq; simplify_eq/=.
      * rewrite IHd by lia. simpl. rewrite Z.add_0_r. by rewrite lookup_insert_eq.
      * replace (start + Z.of_nat (S k)) with (start + 1 + Z.of_nat k) by lia. eauto.
    + intros i Hi. simpl in Hi. rewrite IHd by lia. simpl.
      rewrite lookup_insert_ne; [done|lia].
Qed.

(** ** Re-keying the book lists by topic ID *)

Lemma bind_run {S A B} (m : M S A) (f : A → M S B) s :
  (m ≫= f) s = match m s with
               | (Ret a, s') => f a s'
               | (Exc e, s') => (Exc e, s')
               end.
Proof. reflexivity. Qed.

Lemma rekey_spec {K} `{EqDecision K} (ids : K → option Z) items g :
  NoDup items.*1 →
  (∀ k, k ∈ items.*1 → is_Some (ids k)) →
  (∀ k1 k2 i, k1 ∈ items.*1 → k2 ∈ items.*1 →
              ids k1 = Some i → ids k2 = Some i → k1 = k2) →
  ∃ g', rekey ids items g = (Ret tt, g') ∧ same_but_topics_books g g' ∧
    (∀ k i, k ∈ items.*1 → ids k = Some i → TOPICS_BOOKS g' !! i = Some (aget k items)) ∧
    (∀ i, (∀ k, k ∈ items.*1 → ids k ≠ Some i) → TOPICS_BOOKS g' !! i = TOPICS_BOOKS g !! i).
Proof.
  revert g. induction items as [|[k0 l0] items IH]; intros g Hnd Hdom Hinj.
  - exists g. split_and!; try done. intros k i Hk. by apply elem_of_nil in Hk.
  - simpl in Hnd. apply NoDup_cons in Hnd as [Hni Hnd].
    destruct (Hdom k0) as [i0 Hi0]; [set_solver|].
    destruct (IH (set_TOPICS_BOOKS (<[i0 := l0]> (TOPICS_BOOKS g)) g)) as (g' & Hrun & Hfr & Ha & Hb).
    { done. } { intros k Hk. apply Hdom. set_solver. }
    { intros k1 k2 i Hk1 Hk2. apply Hinj; set_solver. }
    exists g'. split_and!.
    + cbn [rekey]. rewrite Hi0. rewrite bind_run. simpl. apply Hrun.
    + apply Hfr.
    + intros k i Hk Hi. simpl. case_decide as Hk0.
      * subst k. simplify_eq. rewrite Hb; [simpl; by rewrite lookup_insert_eq|].
        intros k Hk' Hki. assert (k = k0) as -> by (eapply Hinj; [set_solver|set_solver|done|done]).
        done.
      * apply Ha; [|done]. set_solver.
    + intros i Hi. rewrite Hb.
      * simpl. rewrite lookup_insert_ne; [done|]. intros ->. by apply (Hi k0); [set_solver|].
      * intros k Hk. apply Hi. set_solver.
Qed.

(** ** What [setup_globals] leaves in the dictionaries *)

Lemma lookup_inj_NoDup {A} (l : list A) i j x :
  NoDup l → l !! i = Some x → l !! j = Some x → i = j.
Proof. intros Hnd Hi Hj. by eapply NoDup_lookup. Qed.

Lemma setup_globals_numbered books g0 g1 loc pk :
  add_rows books (g0, mkLocals [] []) = (Ret tt, (g1, loc)) →
  indexed books (g0, mkLocals [] []) (g1, loc) →
  sorted (keys (PACKAGES_RELS g1)) = Ret pk →
  ∃ g, setup_globals books g0 = (Ret tt, g) ∧
       numbered books g0 g1 g pk (sorted_str (keys (SUBJECTS_RELS g1))).
Proof.
  intros Hrows Hix Hsorted. set (sk := sorted_str (keys (SUBJECTS_RELS g1))).
  destruct (sorted_Ret _ _ Hsorted) as [Hpk Hpks].
  assert (NoDup pk) as Hpknd by (rewrite Hpk; apply NoDup_keys).
  assert (sk ≡ₚ keys (SUBJECTS_RELS g1)) as Hsk by apply sorted_str_perm.
  assert (NoDup sk) as Hsknd by (rewrite Hsk; apply NoDup_keys).
  pose proof (number_packages_spec pk 1 g1 Hpknd) as Hnp.
  set (g2 := foldl number_package g1 (enumerate 1 pk)) in *. cbv zeta in Hnp.
  destruct Hnp as ((Hbt2 & Hbp2 & His2 & Htb2 & Hpr2 & Hsr2) & Hp_a & Hp_b & Hp_c & Hp_d).
  assert (Z.of_nat (size (PACKAGES_RELS g2)) = Z.of_nat (List.length pk)) as HP.
  { rewrite Hpr2, <-length_keys. by rewrite Hpk. }
  pose proof (number_subjects_spec sk (1 + Z.of_nat (List.length pk)) g2 Hsknd) as Hns.
  set (g3 := foldl number_subject g2 (enumerate (1 + Z.of_nat (List.length pk)) sk)) in *.
  cbv zeta in Hns.
  destruct Hns as ((Hbt3 & Hbp3 & Hip3 & Htb3 & Hpr3 & Hsr3) & Hs_a & Hs_b & Hs_c & Hs_d).
  destruct Hix. simpl in *.
  (* the packages are re-keyed *)
  destruct (rekey_spec (λ topic, od_get topic (IDS_OF_PACKAGES g3)) (PACKAGES_BOOKS loc) g3)
    as (g4 & Hrun4 & Hfr4 & Ha4 & Hb4).
  { apply ix_pb_nodup0. constructor. }
  { intros p [Hp|Hp]%ix_pb_keys0; [|by apply elem_of_nil in Hp].
    assert (p ∈ pk) as [k Hk]%list_elem_of_lookup.
    { rewrite Hpk, elem_of_keys, ix_prel_dom0. set_solver. }
    rewrite Hip3. eauto. }
  { intros p1 p2 i [Hp1|Hp1]%ix_pb_keys0 [Hp2|Hp2]%ix_pb_keys0;
      try (by apply elem_of_nil in Hp1); try (by apply elem_of_nil in Hp2).
    assert (p1 ∈ pk) as [k1 Hk1]%list_elem_of_lookup.
    { rewrite Hpk, elem_of_keys, ix_prel_dom0. set_solver. }
    assert (p2 ∈ pk) as [k2 Hk2]%list_elem_of_lookup.
    { rewrite Hpk, elem_of_keys, ix_prel_dom0. set_solver. }
    rewrite Hip3, (Hp_a _ _ Hk1), (Hp_a _ _ Hk2). intros [= <-] [= Heq].
    assert (k1 = k2) as -> by lia. congruence. }
  destruct Hfr4 as (Hbt4 & Hbp4 & Hip4 & His4 & Hti4 & Hpr4 & Hsr4).
  (* the subjects are re-keyed *)
  destruct (rekey_spec (λ topic, IDS_OF_SUBJECTS g3 !! topic) (SUBJECTS_BOOKS loc) g4)
    as (g5 & Hrun5 & Hfr5 & Ha5 & Hb5).
  { apply ix_sb_nodup0. constructor. }
  { intros s [Hs|Hs]%ix_sb_keys0; [|by apply elem_of_nil in Hs].
    assert (s ∈ sk) as [k Hk]%list_elem_of_lookup.
    { rewrite Hsk, elem_of_keys, ix_srel_dom0. set_solver. }
    eauto. }
  { intros s1 s2 i [Hs1|Hs1]%ix_sb_keys0 [Hs2|Hs2]%ix_sb_keys0;
      try (by apply elem_of_nil in Hs1); try (by apply elem_of_nil in Hs2).
    assert (s1 ∈ sk) as [k1 Hk1]%list_elem_of_lookup.
    { rewrite Hsk, elem_of_keys, ix_srel_dom0. set_solver. }
    assert (s2 ∈ sk) as [k2 Hk2]%list_elem_of_lookup.
    { rewrite Hsk, elem_of_keys, ix_srel_dom0. set_solver. }
    rewrite (Hs_a _ _ Hk1), (Hs_a _ _ Hk2). intros [= <-] [= Heq].
    assert (k1 = k2) as -> by lia. congruence. }
  destruct Hfr5 as (Hbt5 & Hbp5 & Hip5 & His5 & Hti5 & Hpr5 & Hsr5).
  exists g5. split.
  { unfold setup_globals. rewrite Hrows, Hsorted. fold g2. rewrite HP, Hsr2. fold sk. fold g3.
    rewrite bind_run, Hrun4. apply Hrun5. }
  split.
  - congruence.
  - congruence.
  - congruence.
  - congruence.
  - done.
  - done.
  - done.
  - apply sorted_str_sorted.
  - by rewrite Hip5, Hip4, Hip3.
  - intros k p Hk. rewrite Hip5, Hip4, Hip3. eauto.
  - intros p Hp. rewrite Hip5, Hip4, Hip3, Hp_b by done. by rewrite ix_ids_p0.
  - intros k s Hk. rewrite His5, His4. eauto.
  - intros s Hs. rewrite His5, His4, Hs_b, His2 by done. by rewrite ix_ids_s0.
  - intros k p Hk. rewrite Hti5, Hti4, Hs_d.
    + eauto.
    + apply lookup_lt_Some in Hk. lia.
  - intros k s Hk. rewrite Hti5, Hti4. eauto.
  - intros i Hi. rewrite Hti5, Hti4, Hs_d, Hp_d by lia. by rewrite ix_ti0.
  - intros k p Hk Hp. rewrite Hb5.
    + rewrite (Ha4 p).
      * by rewrite ix_pb0.
      * apply ix_pb_keys0. by left.
      * rewrite Hip3. eauto.
    + intros s [Hs|Hs]%ix_sb_keys0; [|by apply elem_of_nil in Hs].
      assert (s ∈ sk) as [k' Hk']%list_elem_of_lookup.
      { rewrite Hsk, elem_of_keys, ix_srel_dom0. set_solver. }
      rewrite (Hs_a _ _ Hk'). apply lookup_lt_Some in Hk. intros [=]. lia.
  - intros k s Hk Hs. rewrite (Ha5 s).
    + by rewrite ix_sb0.
    + apply ix_sb_keys0. by left.
    + eauto.
  - intros i Hnp Hns. rewrite Hb5, Hb4, Htb3, Htb2, ix_tb0. { done. }
    + intros p [Hp|Hp]%ix_pb_keys0; [|by apply elem_of_nil in Hp].
      assert (p ∈ pk) as [k Hk]%list_elem_of_lookup.
      { rewrite Hpk, elem_of_keys, ix_prel_dom0. set_solver. }
      rewrite Hip3, (Hp_a _ _ Hk). intros [= <-]. by eapply Hnp.
    + intros s [Hs|Hs]%ix_sb_keys0; [|by apply elem_of_nil in Hs].
      assert (s ∈ sk) as [k Hk]%list_elem_of_lookup.
      { rewrite Hsk, elem_of_keys, ix_srel_dom0. set_solver. }
      rewrite (Hs_a _ _ Hk). intros [= <-]. by eapply Hns.
Qed.

(** ** The index built from the empty dictionaries *)

Lemma NoDup_two {A} `{EqDecision A} (l : list A) x :
  NoDup l → (2 ≤ List.length l)%nat → ∃ y, y ∈ l ∧ y ≠ x.
Proof.
  destruct l as [|a [|b l]]; simpl; try lia. intros Hnd _.
  apply NoDup_cons in Hnd as [Hab _].
  destruct (decide (a = x)) as [->|Hne].
  - exists b. split; [set_solver|]. intros ->. set_solver.
  - exists a. split; [set_solver|done].
Qed.

Lemma length_two {A} (l : list A) x y : x ∈ l → y ∈ l → x ≠ y → (2 ≤ List.length l)%nat.
Proof.
  destruct l as [|a [|b l]]; simpl; intros Hx Hy Hne; try lia; set_solver.
Qed.

Lemma setup_globals_sorted_ok books g0 g1 loc :
  indexed books (g0, mkLocals [] []) (g1, loc) →
  PACKAGES_RELS g0 = ∅ →
  ¬ (None ∈ r_package <$> books ∧ ∃ p, Some p ∈ r_package <$> books) →
  ∃ pk, sorted (keys (PACKAGES_RELS g1)) = Ret pk.
Proof.
  intros Hix Hg0 Hpk. destruct (sorted (keys (PACKAGES_RELS g1))) as [pk|e] eqn:Hs; [eauto|].
  apply sorted_Exc in Hs as (_ & Hlen & Hnone). destruct Hpk.
  destruct (NoDup_two _ None (NoDup_keys _) Hlen) as ([p|] & Hin & Hne); [|done].
  destruct Hix. simpl in *. rewrite elem_of_keys, ix_prel_dom0, Hg0 in Hin, Hnone.
  split; [set_solver|]. exists p. set_solver.
Qed.

Lemma setup_globals_fresh books :
  rows_ok books →
  ∃ g g1 loc pk,
    setup_globals books fresh = (Ret tt, g) ∧
    indexed books (fresh, mkLocals [] []) (g1, loc) ∧
    sorted (keys (PACKAGES_RELS g1)) = Ret pk ∧
    numbered books fresh g1 g pk (sorted_str (keys (SUBJECTS_RELS g1))).
Proof.
  intros [Hsub Hpk].
  destruct (add_rows_indexed books (fresh, mkLocals [] []) Hsub) as ([g1 loc] & Hrows & Hix).
  destruct (setup_globals_sorted_ok books fresh g1 loc Hix eq_refl Hpk) as [pk Hsorted].
  destruct (setup_globals_numbered books fresh g1 loc pk Hrows Hix Hsorted) as (g & Hrun & Hnb).
  by exists g, g1, loc, pk.
Qed.

Lemma setup_globals_succeeds_iff books :
  (setup_globals books fresh).1 = Ret tt ↔ rows_ok books.
Proof.
  split.
  - intros Hrun. split.
    + destruct (decide (Forall (λ row, is_Some (r_subjects row)) books)) as [|Hno]; [done|].
      destruct (add_rows_raises books (fresh, mkLocals [] []) Hno)
        as (dr & row & rest & [g' loc'] & _ & _ & Hexc & _).
      unfold setup_globals in Hrun. by rewrite Hexc in Hrun.
    + intros [Hnone [p Hp]].
      destruct (decide (Forall (λ row, is_Some (r_subjects row)) books)) as [Hsub|Hno].
      * destruct (add_rows_indexed books (fresh, mkLocals [] []) Hsub) as ([g1 loc] & Hrows & Hix).
        unfold setup_globals in Hrun. rewrite Hrows in Hrun.
        assert (sorted (keys (PACKAGES_RELS g1)) = Exc TypeError) as Hs.
        { apply sorted_Exc. split; [done|]. destruct Hix; simpl in *.
          assert (∀ q, q ∈ keys (PACKAGES_RELS g1) ↔ q ∈ r_package <$> books) as Hk.
          { intros q. rewrite elem_of_keys, ix_prel_dom0. set_solver. }
          split; [|by apply Hk].
          apply (length_two _ None (Some p)); [by apply Hk|by apply Hk|done]. }
        by rewrite Hs in Hrun.
      * destruct (add_rows_raises books (fresh, mkLocals [] []) Hno)
          as (dr & row & rest & [g' loc'] & _ & _ & Hexc & _).
        unfold setup_globals in Hrun. by rewrite Hexc in Hrun.
  - intros Hok. destruct (setup_globals_fresh books Hok) as (g & g1 & loc & pk & -> & _). done.
Qed.

Lemma all_Some_fmap (l : list value) : Forall is_Some l → l = Some <$> omap id l.
Proof.
  induction 1 as [|x l [y ->] _ IH]; [done|]. csimpl. f_equal. exact IH.
Qed.

Lemma StronglySorted_Some (pn : list string) :
  StronglySorted value_le (Some <$> pn) → StronglySorted String.le pn.
Proof.
  induction pn as [|p pn IH]; [constructor|].
  rewrite fmap_cons. intros [Hall Hs]%StronglySorted_cons. apply StronglySorted_cons.
  split; [|auto]. by rewrite Forall_fmap in Hall.
Qed.

(** Running [setup_globals] again on the index it has built, with the same
    rows, numbers the topics as before. *)
Lemma setup_globals_again books g g1 loc pk :
  Forall (λ row, is_Some (r_subjects row)) books →
  indexed books (fresh, mkLocals [] []) (g1, loc) →
  sorted (keys (PACKAGES_RELS g1)) = Ret pk →
  numbered books fresh g1 g pk (sorted_str (keys (SUBJECTS_RELS g1))) →
  ∃ g', setup_globals books g = (Ret tt, g') ∧
        IDS_OF_PACKAGES g' = IDS_OF_PACKAGES g ∧ IDS_OF_SUBJECTS g' = IDS_OF_SUBJECTS g ∧
        TOPICS_IDS g' = TOPICS_IDS g.
Proof.
  intros Hsub Hix Hsorted Hnb.
  destruct (add_rows_indexed books (g, mkLocals [] []) Hsub) as ([g1' loc'] & Hrows & Hix').
  assert (dom (PACKAGES_RELS g1') = dom (PACKAGES_RELS g1)) as Hdp.
  { destruct Hix, Hix', Hnb. simpl in *. rewrite ix_prel_dom1, nb_prel0, ix_prel_dom0. set_solver. }
  assert (dom (SUBJECTS_RELS g1') = dom (SUBJECTS_RELS g1)) as Hds.
  { destruct Hix, Hix', Hnb. simpl in *. rewrite ix_srel_dom1, nb_srel0, ix_srel_dom0. set_solver. }
  assert (sorted (keys (PACKAGES_RELS g1')) = Ret pk) as Hsorted'.
  { rewrite (sorted_perm _ (keys (PACKAGES_RELS g1))); [done|]. by apply keys_perm. }
  assert (sorted_str (keys (SUBJECTS_RELS g1')) = sorted_str (keys (SUBJECTS_RELS g1))) as Hsk.
  { apply sorted_str_unique. by apply keys_perm. }
  destruct (setup_globals_numbered books g g1' loc' pk Hrows Hix' Hsorted') as (g' & Hrun & Hnb').
  rewrite Hsk in Hnb'. set (sk := sorted_str (keys (SUBJECTS_RELS g1))) in *.
  exists g'. split; [done|]. destruct Hnb, Hnb'.
  assert (NoDup pk) as Hpknd by (rewrite nb_pk0; apply NoDup_keys).
  assert (NoDup sk) as Hsknd by (rewrite nb_sk0; apply NoDup_keys).
  split_and!.
  - rewrite nb_ids_p_list1, number_packages_same.
    + apply (ix_ids_p _ _ _ Hix').
    + intros k p Hk. pose proof (ix_ids_p _ _ _ Hix') as Heq. simpl in Heq.
      rewrite Heq. eauto.
  - apply map_eq. intros s. destruct (decide (s ∈ sk)) as [[k Hk]%list_elem_of_lookup|Hs].
    + by rewrite (nb_ids_s0 _ _ Hk), (nb_ids_s1 _ _ Hk).
    + by rewrite nb_ids_s_old1.
  - apply map_eq. intros i.
    destruct (decide (1 ≤ i < 1 + Z.of_nat (List.length pk) + Z.of_nat (List.length sk))) as [Hi|Hi].
    + destruct (decide (i < 1 + Z.of_nat (List.length pk))) as [Hlt|Hge].
      * destruct (lookup_lt_is_Some_2 pk (Z.to_nat (i - 1))) as [p Hp]; [lia|].
        pose proof (nb_tids_p0 _ _ Hp) as H0. pose proof (nb_tids_p1 _ _ Hp) as H1.
        replace (1 + Z.of_nat (Z.to_nat (i - 1))) with i in * by lia. congruence.
      * destruct (lookup_lt_is_Some_2 sk (Z.to_nat (i - 1 - Z.of_nat (List.length pk))))
          as [s Hs]; [lia|].
        pose proof (nb_tids_s0 _ _ Hs) as H0. pose proof (nb_tids_s1 _ _ Hs) as H1.
        replace (1 + Z.of_nat (List.length pk)
                 + Z.of_nat (Z.to_nat (i - 1 - Z.of_nat (List.length pk)))) with i in * by lia.
        congruence.
    + by rewrite nb_tids_old1.
Qed.

(** C3.  For rows whose package and subjects cells are strings, indexing
    from the empty dictionaries numbers the distinct package names 1..P in
    increasing lexicographic order and the distinct subject names P+1..P+S in
    increasing lexicographic order; [TOPICS_IDS] is the inverse numbering;
    and running the indexing again on the same rows leaves all three
    numberings as they are. *)
Theorem C3_ids_follow_sorted_names books :
  Forall (λ row, is_Some (r_package row) ∧ is_Some (r_subjects row)) books →
  ∃ g (pn sn : list string),
    setup_globals books fresh = (Ret tt, g) ∧
    (StronglySorted String.le pn ∧ NoDup pn ∧
     ∀ p, p ∈ pn ↔ Some p ∈ r_package <$> books) ∧
    (StronglySorted String.le sn ∧ NoDup sn ∧
     ∀ s, s ∈ sn ↔ s ∈ books ≫= row_subjects) ∧
    (∀ p i, od_get p (IDS_OF_PACKAGES g) = Some i
            ↔ ∃ (k : nat) name, pn !! k = Some name ∧ p = Some name ∧ i = 1 + Z.of_nat k) ∧
    (∀ s i, IDS_OF_SUBJECTS g !! s = Some i
            ↔ ∃ k : nat, sn !! k = Some s ∧ i = Z.of_nat (List.length pn) + 1 + Z.of_nat k) ∧
    (∀ i t, TOPICS_IDS g !! i = Some t
            ↔ od_get t (IDS_OF_PACKAGES g) = Some i
              ∨ ∃ s, t = Some s ∧ IDS_OF_SUBJECTS g !! s = Some i) ∧
    ∃ g', setup_globals books g = (Ret tt, g') ∧
          IDS_OF_PACKAGES g' = IDS_OF_PACKAGES g ∧
          IDS_OF_SUBJECTS g' = IDS_OF_SUBJECTS g ∧
          TOPICS_IDS g' = TOPICS_IDS g.
Proof.
  intros Hwf.
  assert (rows_ok books) as Hok.
  { split.
    - eapply Forall_impl; [done|]. by intros row [_ ?].
    - intros [Hnone _]. apply list_elem_of_fmap in Hnone as (row & Hrow & Hin).
      rewrite Forall_forall in Hwf. destruct (Hwf row Hin) as [[p Hp] _]. congruence. }
  destruct (setup_globals_fresh books Hok) as (g & g1 & loc & pk & Hrun & Hix & Hsorted & Hnb).
  set (sk := sorted_str (keys (SUBJECTS_RELS g1))) in *.
  pose proof Hnb as []. pose proof Hix as []. simpl in *.
  assert (∀ q, q ∈ pk ↔ q ∈ r_package <$> books) as Hpk_in.
  { intros q. rewrite nb_pk0, elem_of_keys, ix_prel_dom0. set_solver. }
  assert (∀ s, s ∈ sk ↔ s ∈ books ≫= row_subjects) as Hsk_in.
  { intros s. rewrite nb_sk0, elem_of_keys, ix_srel_dom0. set_solver. }
  assert (NoDup pk) as Hpknd by (rewrite nb_pk0; apply NoDup_keys).
  assert (NoDup sk) as Hsknd by (rewrite nb_sk0; apply NoDup_keys).
  assert (Forall is_Some pk) as Hsome.
  { apply Forall_forall. intros q Hq%Hpk_in. apply list_elem_of_fmap in Hq as (row & -> & Hin).
    rewrite Forall_forall in Hwf. by destruct (Hwf row Hin). }
  set (pn := omap id pk). pose proof (all_Some_fmap pk Hsome) as Hpn. fold pn in Hpn.
  assert (List.length pk = List.length pn) as Hlen by (rewrite Hpn at 1; by rewrite length_fmap).
  assert (∀ (k : nat) name, pn !! k = Some name ↔ pk !! k = Some (Some name)) as Hlk.
  { intros k name. rewrite Hpn, list_lookup_fmap. destruct (pn !! k); simpl; naive_solver. }
  assert (∀ p i, od_get p (IDS_OF_PACKAGES g) = Some i
                 ↔ ∃ k : nat, pk !! k = Some p ∧ i = 1 + Z.of_nat k) as Hids_p.
  { intros p i. split.
    - intros Hi. destruct (decide (p ∈ pk)) as [[k Hk]%list_elem_of_lookup|Hp].
      + rewrite (nb_ids_p0 _ _ Hk) in Hi. exists k. split; [done|congruence].
      + by rewrite nb_ids_p_old0 in Hi.
    - intros (k & Hk & ->). eauto. }
  assert (∀ s i, IDS_OF_SUBJECTS g !! s = Some i
                 ↔ ∃ k : nat, sk !! k = Some s
                              ∧ i = 1 + Z.of_nat (List.length pk) + Z.of_nat k) as Hids_s.
  { intros s i. split.
    - intros Hi. destruct (decide (s ∈ sk)) as [[k Hk]%list_elem_of_lookup|Hs].
      + rewrite (nb_ids_s0 _ _ Hk) in Hi. exists k. split; [done|congruence].
      + by rewrite nb_ids_s_old0 in Hi.
    - intros (k & Hk & ->). eauto. }
  exists g, pn, sk. split_and!.
  - done.
  - apply StronglySorted_Some. by rewrite <-Hpn.
  - apply (NoDup_fmap_1 Some). by rewrite <-Hpn.
  - intros p. rewrite <-Hpk_in, Hpn. rewrite list_elem_of_fmap. naive_solver.
  - done.
  - done.
  - done.
  - intros p i. rewrite Hids_p. split.
    + intros (k & Hk & ->). destruct p as [name|].
      * exists k, name. by rewrite Hlk.
      * rewrite Forall_forall in Hsome. destruct (Hsome None) as [? [=]].
        apply list_elem_of_lookup. eauto.
    + intros (k & name & Hk & -> & ->). exists k. by rewrite <-Hlk.
  - intros s i. rewrite Hids_s, <-Hlen. split; intros (k & Hk & ->); exists k; split; [done|lia|done|lia].
  - intros i t. rewrite Hids_p. setoid_rewrite Hids_s. split.
    + intros Hi.
      destruct (decide (1 ≤ i < 1 + Z.of_nat (List.length pk) + Z.of_nat (List.length sk))) as [Hr|Hr].
      * destruct (decide (i < 1 + Z.of_nat (List.length pk))) as [Hlt|Hge].
        -- destruct (lookup_lt_is_Some_2 pk (Z.to_nat (i - 1))) as [p Hp]; [lia|].
           pose proof (nb_tids_p0 _ _ Hp) as H0.
           replace (1 + Z.of_nat (Z.to_nat (i - 1))) with i in * by lia.
           left. exists (Z.to_nat (i - 1)). split; [congruence|lia].
        -- destruct (lookup_lt_is_Some_2 sk (Z.to_nat (i - 1 - Z.of_nat (List.length pk))))
             as [s Hs]; [lia|].
           pose proof (nb_tids_s0 _ _ Hs) as H0.
           replace (1 + Z.of_nat (List.length pk)
                    + Z.of_nat (Z.to_nat (i - 1 - Z.of_nat (List.length pk)))) with i in * by lia.
           right. exists s. split; [congruence|]. eexists. split; [done|lia].
      * by rewrite nb_tids_old0 in Hi.
    + intros [(k & Hk & ->)|(s & -> & k & Hk & ->)]; eauto.
  - eapply setup_globals_again; try done. by destruct Hok.
Qed.

(** Where a row of the listing is found in the index built from it. *)
Lemma row_under_its_subjects books g row s :
  setup_globals books fresh = (Ret tt, g) → row ∈ books → s ∈ row_subjects row →
  ∃ i, IDS_OF_SUBJECTS g !! s = Some i ∧ TOPICS_IDS g !! i = Some (Some s) ∧
       TOPICS_BOOKS g !! i = Some (books_in_subject s books) ∧
       r_doi row ∈ books_in_subject s books ∧
       s ∈ rel_of (PACKAGES_RELS g) (r_package row) ∧
       r_package row ∈ rel_of (SUBJECTS_RELS g) s.
Proof.
  intros Hrun Hrow Hs.
  assert (rows_ok books) as Hok by (apply setup_globals_succeeds_iff; by rewrite Hrun).
  destruct (setup_globals_fresh books Hok) as (g' & g1 & loc & pk & Hrun' & Hix & Hsorted & Hnb).
  assert (g' = g) as -> by congruence.
  set (sk := sorted_str (keys (SUBJECTS_RELS g1))) in *.
  destruct Hnb, Hix. simpl in *.
  assert (s ∈ books ≫= row_subjects) as Hin by (apply list_elem_of_bind; eauto).
  assert (s ∈ sk) as [k Hk]%list_elem_of_lookup.
  { rewrite nb_sk0, elem_of_keys, ix_srel_dom0. set_solver. }
  eexists. split_and!; eauto.
  - unfold books_in_subject. apply list_elem_of_bind. exists row. split; [|done].
    apply list_elem_of_fmap. exists s. split; [done|]. by apply list_elem_of_filter.
  - rewrite nb_prel0, ix_prel0. apply elem_of_union_r. unfold subjects_with.
    apply elem_of_list_to_set, list_elem_of_bind. exists row. split; [done|].
    by apply list_elem_of_filter.
  - rewrite nb_srel0, ix_srel0. apply elem_of_union_r. unfold packages_with.
    apply elem_of_list_to_set, list_elem_of_fmap. exists row. split; [done|].
    by apply list_elem_of_filter.
Qed.

Lemma row_under_its_package books g row :
  setup_globals books fresh = (Ret tt, g) → row ∈ books →
  ∃ j, od_get (r_package row) (IDS_OF_PACKAGES g) = Some j ∧ TOPICS_IDS g !! j = Some (r_package row) ∧
       TOPICS_BOOKS g !! j = Some (books_in_package (r_package row) books) ∧
       r_doi row ∈ books_in_package (r_package row) books.
Proof.
  intros Hrun Hrow.
  assert (rows_ok books) as Hok by (apply setup_globals_succeeds_iff; by rewrite Hrun).
  destruct (setup_globals_fresh books Hok) as (g' & g1 & loc & pk & Hrun' & Hix & Hsorted & Hnb).
  assert (g' = g) as -> by congruence.
  destruct Hnb, Hix. simpl in *.
  assert (r_package row ∈ r_package <$> books) as Hin by (apply list_elem_of_fmap; eauto).
  assert (r_package row ∈ pk) as [k Hk]%list_elem_of_lookup.
  { rewrite nb_pk0, elem_of_keys, ix_prel_dom0. set_solver. }
  eexists. split_and!; eauto.
  unfold books_in_package. apply list_elem_of_fmap. exists row. split; [done|].
  by apply list_elem_of_filter.
Qed.

(** The names of subjects kept by the index are at most [LONGEST] long. *)
Lemma subject_names_bounded books g s :
  setup_globals books fresh = (Ret tt, g) →
  s ∈ dom (IDS_OF_SUBJECTS g) ∨ s ∈ dom (SUBJECTS_RELS g)
    ∨ (∃ q, s ∈ rel_of (PACKAGES_RELS g) q) →
  (String.length s ≤ LONGEST)%nat.
Proof.
  intros Hrun Hs.
  assert (rows_ok books) as Hok by (apply setup_globals_succeeds_iff; by rewrite Hrun).
  destruct (setup_globals_fresh books Hok) as (g' & g1 & loc & pk & Hrun' & Hix & Hsorted & Hnb).
  assert (g' = g) as -> by congruence.
  set (sk := sorted_str (keys (SUBJECTS_RELS g1))) in *.
  destruct Hnb, Hix. simpl in *.
  assert (s ∈ books ≫= row_subjects) as (row & Hin & _)%list_elem_of_bind.
  { destruct Hs as [Hs|[Hs|[q Hs]]].
    - apply elem_of_dom in Hs as [i Hi].
      destruct (decide (s ∈ sk)) as [Hsk|Hsk].
      + rewrite nb_sk0, elem_of_keys, ix_srel_dom0 in Hsk. set_solver.
      + by rewrite nb_ids_s_old0 in Hi.
    - rewrite nb_srel0, ix_srel_dom0 in Hs. set_solver.
    - rewrite nb_prel0, ix_prel0 in Hs. unfold subjects_with in Hs.
      apply elem_of_union in Hs as [Hs|Hs]; [set_solver|].
      apply elem_of_list_to_set, list_elem_of_bind in Hs as (row & Hs & [_ Hrow]%list_elem_of_filter).
      apply list_elem_of_bind. by exists row. }
  unfold row_subjects in Hin. destruct (r_subjects row) as [field|]; simpl in Hin.
  - by eapply subjects_of_length.
  - by apply elem_of_nil in Hin.
Qed.

(** ** C5: what makes indexing fail *)

Lemma zipped_Ret c row : zipped c = Ret row → is_Some (cell_R c) ∧ row = book_of c.
Proof. unfold zipped, book_of. destruct (cell_R c); [|done]. intros [= <-]. eauto. Qed.

Lemma zipped_Some c : is_Some (cell_R c) → zipped c = Ret (book_of c).
Proof. unfold zipped, book_of. by intros [a ->]. Qed.

Lemma zipped_Exc c e : zipped c = Exc e → e = AttributeError ∧ cell_R c = None.
Proof. unfold zipped. destruct (cell_R c); [done|]. by intros [= <-]. Qed.

Lemma collect_spec cells :
  (Forall (λ c, is_Some (cell_R c)) cells ∧ collect cells = Ret (book_of <$> cells))
  ∨ (collect cells = Exc AttributeError ∧ ∃ c, c ∈ cells ∧ cell_R c = None).
Proof.
  induction cells as [|c cells IH]; [left; by split|].
  cbn [collect]. destruct (zipped c) as [row|e] eqn:Hz.
  - apply zipped_Ret in Hz as [Hc ->]. destruct IH as [[Hall ->]|[-> (c' & Hin & Hnone)]].
    + left. split; [by constructor|done].
    + right. split; [done|]. exists c'. split; [by apply list_elem_of_further|done].
  - apply zipped_Exc in Hz as [-> Hnone]. right. split; [done|].
    exists c. split; [apply list_elem_of_here|done].
Qed.

(** What [get_raw_list_of_books] returns or raises. *)
Lemma get_raw_list_of_books_spec sheet :
  (sheet = [] ∧ get_raw_list_of_books sheet = Exc StopIteration)
  ∨ (sheet ≠ [] ∧ Forall (λ c, is_Some (cell_R c)) sheet ∧
     get_raw_list_of_books sheet = Ret (book_of <$> tail sheet))
  ∨ (sheet ≠ [] ∧ (∃ c, c ∈ sheet ∧ cell_R c = None) ∧
     get_raw_list_of_books sheet = Exc AttributeError).
Proof.
  destruct sheet as [|h cells]; [by left|]. right. cbn [get_raw_list_of_books tail].
  destruct (zipped h) as [row|e] eqn:Hz.
  - apply zipped_Ret in Hz as [Hh _].
    destruct (collect_spec cells) as [[Hall ->]|[-> (c & Hin & Hnone)]].
    + left. split_and!; [done|by constructor|done].
    + right. split_and!; [done| |done]. exists c. split; [by apply list_elem_of_further|done].
  - apply zipped_Exc in Hz as [-> Hnone]. right. split_and!; [done| |done].
    exists h. split; [apply list_elem_of_here|done].
Qed.

Lemma rows_ok_book_of cells :
  rows_ok (book_of <$> cells)
  ↔ Forall (λ c, is_Some (cell_T c)) cells
    ∧ ¬ (None ∈ cell_L <$> cells ∧ ∃ p, Some p ∈ cell_L <$> cells).
Proof.
  unfold rows_ok. rewrite Forall_fmap, <-list_fmap_compose. done.
Qed.

(** The titles after one row and after the rows of the first loop. *)
Lemma add_row_titles row gl gl' :
  add_row row gl = (Ret tt, gl') →
  BOOKS_TITLES gl'.1 = <[r_doi row := r_title row]> (BOOKS_TITLES gl.1).
Proof.
  destruct gl as [g loc]. unfold add_row. destruct (r_subjects row) as [field|]; [|done].
  set (g1 := mkIndex _ _ _ _ _ _ _ _). set (loc1 := mkLocals _ _).
  pose proof (add_subjects_frame (r_package row) (r_doi row) (subjects_of field) g1 loc1) as Hfr.
  cbv zeta in Hfr. destruct Hfr as (Ht & _).
  destruct (foldl _ (g1, loc1) _) as [g2 loc2]. intros [= <-]. cbn in *. by rewrite Ht.
Qed.

Lemma add_rows_titles books gl gl' :
  add_rows books gl = (Ret tt, gl') →
  ∀ d, BOOKS_TITLES gl'.1 !! d
       = match title_of books d with
         | Some title => Some title
         | None => BOOKS_TITLES gl.1 !! d
         end.
Proof.
  revert gl. induction books as [|row books IH]; intros gl Hrun d.
  - cbn in Hrun. by simplify_eq.
  - cbn [add_rows] in Hrun. destruct (add_row row gl) as [[[]|e] gl1] eqn:Hrow; [|done].
    rewrite (IH _ Hrun d), (add_row_titles _ _ _ Hrow). unfold title_of.
    rewrite filter_cons. destruct (decide (r_doi row = d)) as [<-|Hne].
    + rewrite last_cons. destruct (last (filter _ books)); cbn; [done|].
      by rewrite lookup_insert_eq.
    + destruct (last (filter _ books)); cbn; [done|]. by rewrite lookup_insert_ne.
Qed.

(** The first loop stops at the first row without a subjects cell, with
    the rows before it entered. *)
Lemma add_rows_stop done_rows row rest gl :
  Forall (λ r, is_Some (r_subjects r)) done_rows → r_subjects row = None →
  ∃ gl', add_rows done_rows gl = (Ret tt, gl') ∧
         add_rows (done_rows ++ row :: rest) gl = (Exc AttributeError, gl').
Proof.
  intros Hall Hnone. revert gl. induction Hall as [|r dr [field Hf] _ IH]; intros gl.
  - exists gl. split; [done|]. cbn. unfold add_row. by rewrite Hnone.
  - destruct (add_row_indexed r field gl Hf) as (gl1 & Hrow & _).
    destruct (IH gl1) as (gl' & H1 & H2). exists gl'. cbn. by rewrite Hrow.
Qed.

(** The rows before the first one without a subjects cell. *)
Lemma first_without_subjects books :
  ¬ Forall (λ r, is_Some (r_subjects r)) books →
  ∃ done_rows row rest,
    books = done_rows ++ row :: rest ∧
    Forall (λ r, is_Some (r_subjects r)) done_rows ∧ r_subjects row = None.
Proof.
  induction books as [|r books IH]; intros Hall; [by destruct Hall|].
  destruct (r_subjects r) as [field|] eqn:Hf.
  - destruct IH as (dr & row & rest & -> & Hdr & Hnone).
    { intros Hall'. apply Hall. constructor; [by rewrite Hf|done]. }
    exists (r :: dr), row, rest. split_and!; [done| |done]. constructor; [by rewrite Hf|done].
  - by exists [], r, books.
Qed.

(** The three ways [setup_globals] ends on rows indexed from the empty
    dictionaries. *)
Lemma setup_globals_outcome books :
  (rows_ok books ∧
   ∃ g g1 loc, setup_globals books fresh = (Ret tt, g) ∧
               add_rows books (fresh, mkLocals [] []) = (Ret tt, (g1, loc)) ∧
               BOOKS_TITLES g = BOOKS_TITLES g1)
  ∨ (∃ done_rows row rest g loc,
       books = done_rows ++ row :: rest ∧
       Forall (λ r, is_Some (r_subjects r)) done_rows ∧ r_subjects row = None ∧
       add_rows done_rows (fresh, mkLocals [] []) = (Ret tt, (g, loc)) ∧
       setup_globals books fresh = (Exc AttributeError, g))
  ∨ (Forall (λ r, is_Some (r_subjects r)) books ∧
     (None ∈ r_package <$> books ∧ ∃ p, Some p ∈ r_package <$> books) ∧
     ∃ g loc, add_rows books (fresh, mkLocals [] []) = (Ret tt, (g, loc)) ∧
              setup_globals books fresh = (Exc TypeError, g)).
Proof.
  destruct (decide (Forall (λ r, is_Some (r_subjects r)) books)) as [Hsub|Hno].
  - destruct (add_rows_indexed books (fresh, mkLocals [] []) Hsub) as ([g1 loc] & Hrows & Hix).
    destruct (sorted (keys (PACKAGES_RELS g1))) as [pk|e] eqn:Hs.
    + left. destruct (setup_globals_numbered books fresh g1 loc pk Hrows Hix Hs) as (g & Hrun & Hnb).
      split; [apply setup_globals_succeeds_iff; by rewrite Hrun|].
      exists g, g1, loc. split_and!; [done|done|]. apply (nb_titles _ _ _ _ _ _ Hnb).
    + right. right. split; [done|].
      assert (¬ rows_ok books) as Hbad.
      { intros Hok%setup_globals_succeeds_iff. unfold setup_globals in Hok.
        by rewrite Hrows, Hs in Hok. }
      split.
      { destruct (decide (None ∈ r_package <$> books)) as [Hn|Hn];
          [|destruct Hbad; split; [done|]; by intros [? _]].
        split; [done|].
        destruct (decide (Exists is_Some (r_package <$> books))) as [Hex|Hex].
        - apply Exists_exists in Hex as (x & Hin & [p ->]). eauto.
        - destruct Hbad. split; [done|]. intros [_ [p Hp]]. apply Hex, Exists_exists. eauto. }
      exists g1, loc. split; [done|]. pose proof (proj1 (sorted_Exc _ _) Hs) as (-> & _).
      unfold setup_globals. by rewrite Hrows, Hs.
  - right. left. destruct (first_without_subjects books Hno) as (dr & row & rest & -> & Hdr & Hnone).
    destruct (add_rows_stop dr row rest (fresh, mkLocals [] []) Hdr Hnone)
      as ([g loc] & Hdone & Hstop).
    exists dr, row, rest, g, loc. split_and!; try done.
    unfold setup_globals. by rewrite Hstop.
Qed.

(** C5, counterexample.  A sheet whose first book has no title is indexed
    without any error: the missing title is stored as the title of the book,
    which is listed under package 1.  And a sheet whose only book has a
    title, a package and an identifier, but an empty subjects cell, is not
    indexed: [AttributeError]. *)
Lemma C5_missing_title_is_indexed :
  (setup_globals_from_sheet sheet_missing_title fresh).1 = Ret tt ∧
  BOOKS_TITLES (setup_globals_from_sheet sheet_missing_title fresh).2
    !! Some "10.1007/aaa" = Some None ∧
  TOPICS_BOOKS (setup_globals_from_sheet sheet_missing_title fresh).2
    !! 1 = Some [Some "10.1007/aaa"; Some "10.1007/bbb"] ∧
  (setup_globals_from_sheet sheet_missing_subjects fresh).1 = Exc AttributeError.
Proof. vm_compute. done. Qed.

(** C5, as amended.  Indexing checks no field and has no error of its own.
    From the empty dictionaries it succeeds exactly when the sheet has a
    header row, every identifier cell (the header's included) is filled,
    every book has a subjects cell, and the package cells of the books are
    not a mix of empty cells and names; every title, missing or not, is then
    stored as it is.  When it fails: either the listing could not be read
    ([StopIteration] for a sheet without rows, [AttributeError] for an empty
    identifier cell) and nothing was entered; or a book has no subjects cell
    ([AttributeError]) and the dictionaries hold what the first loop entered
    for the books before it; or the packages do not sort ([TypeError]) and
    the dictionaries hold what the first loop entered for all the books. *)
Theorem C5_indexing_checks_no_field sheet :
  ((setup_globals_from_sheet sheet fresh).1 = Ret tt
   ↔ sheet ≠ [] ∧ Forall (λ c, is_Some (cell_R c)) sheet
     ∧ Forall (λ c, is_Some (cell_T c)) (tail sheet)
     ∧ ¬ (None ∈ cell_L <$> tail sheet ∧ ∃ p, Some p ∈ cell_L <$> tail sheet)) ∧
  (∀ g, setup_globals_from_sheet sheet fresh = (Ret tt, g) →
        ∀ d, BOOKS_TITLES g !! d = title_of (book_of <$> tail sheet) d) ∧
  (∀ e g, setup_globals_from_sheet sheet fresh = (Exc e, g) →
     (g = fresh ∧
      ((sheet = [] ∧ e = StopIteration)
       ∨ (e = AttributeError ∧ ∃ c, c ∈ sheet ∧ cell_R c = None)))
     ∨ (e = AttributeError ∧
        ∃ done_rows row rest loc,
          book_of <$> tail sheet = done_rows ++ row :: rest ∧
          Forall (λ r, is_Some (r_subjects r)) done_rows ∧ r_subjects row = None ∧
          add_rows done_rows (fresh, mkLocals [] []) = (Ret tt, (g, loc)) ∧
          ∀ d, BOOKS_TITLES g !! d = title_of done_rows d)
     ∨ (e = TypeError ∧
        Forall (λ c, is_Some (cell_T c)) (tail sheet) ∧
        (None ∈ cell_L <$> tail sheet ∧ ∃ p, Some p ∈ cell_L <$> tail sheet) ∧
        ∃ loc,
          add_rows (book_of <$> tail sheet) (fresh, mkLocals [] []) = (Ret tt, (g, loc)) ∧
          ∀ d, BOOKS_TITLES g !! d = title_of (book_of <$> tail sheet) d)).
Proof.
  assert (∀ rows g loc, add_rows rows (fresh, mkLocals [] []) = (Ret tt, (g, loc)) →
                        ∀ d, BOOKS_TITLES g !! d = title_of rows d) as Htitles.
  { intros rows g loc Hrows d. pose proof (add_rows_titles _ _ _ Hrows d) as Hd.
    cbn in Hd. rewrite Hd. by destruct (title_of rows d). }
  unfold setup_globals_from_sheet.
  destruct (get_raw_list_of_books_spec sheet)
    as [[-> ->]|[(Hne & Hids & ->)|(Hne & (c & Hin & Hnone) & ->)]].
  - split_and!; [by split; [|intros [? _]]|done|].
    intros e g [= <- <-]. left. split; [done|]. by left.
  - set (books := book_of <$> tail sheet).
    pose proof (rows_ok_book_of (tail sheet)) as Hok. fold books in Hok.
    destruct (setup_globals_outcome books)
      as [(Hrows_ok & g & g1 & loc & Hrun & Hrows & Hbt)
         |[(dr & row & rest & g & loc & Hbooks & Hdr & Hnone & Hrows & Hrun)
          |(Hsub & Hmixed & g & loc & Hrows & Hrun)]]; rewrite Hrun; cbn [fst].
    + split_and!.
      * split; [intros _|done]. apply Hok in Hrows_ok as [? ?]. done.
      * intros g' [= <-] d. rewrite Hbt. by eapply Htitles.
      * done.
    + split_and!.
      * split; [done|]. intros (_ & _ & Hsub & _).
        assert (Forall (λ r, is_Some (r_subjects r)) books) as Hall
          by (unfold books; by rewrite Forall_fmap).
        rewrite Hbooks in Hall. apply Forall_app in Hall as [_ Hall].
        apply Forall_cons in Hall as [[? Hs] _]. congruence.
      * done.
      * intros e g' [= <- <-]. right. left. split; [done|].
        exists dr, row, rest, loc. split_and!; try done. by eapply Htitles.
    + split_and!.
      * split; [done|]. intros (_ & _ & _ & Hnot). destruct Hnot.
        unfold books in Hmixed. by rewrite <-list_fmap_compose in Hmixed.
      * done.
      * intros e g' [= <- <-]. right. right. split; [done|].
        unfold books in Hsub, Hmixed. rewrite Forall_fmap in Hsub.
        rewrite <-list_fmap_compose in Hmixed.
        split; [done|]. split; [done|]. exists loc. split; [done|]. by eapply Htitles.
  - split_and!.
    + split; [done|]. intros (_ & Hids & _). rewrite Forall_forall in Hids.
      destruct (Hids c Hin) as [? Hc]. congruence.
    + done.
    + intros e g [= <- <-]. left. split; [done|]. right. eauto.
Qed.

(** The sheet of the example above with a third book whose subjects cell
    is empty: indexing fails and the two books before it stay entered, while
    no topic has an ID yet. *)
Example ex_partial_catalog :
  (setup_globals_from_sheet sheet_partial fresh).1 = Exc AttributeError ∧
  BOOKS_TITLES (setup_globals_from_sheet sheet_partial fresh).2 !! Some "10.1007/aaa"
  = Some None ∧
  BOOKS_TITLES (setup_globals_from_sheet sheet_partial fresh).2 !! Some "10.1007/bbb"
  = Some (Some "Book B") ∧
  BOOKS_TITLES (setup_globals_from_sheet sheet_partial fresh).2 !! Some "10.1007/ccc"
  = None ∧
  IDS_OF_PACKAGES (setup_globals_from_sheet sheet_partial fresh).2 = [] ∧
  TOPICS_BOOKS (setup_globals_from_sheet sheet_partial fresh).2 = ∅.
Proof. vm_compute. done. Qed.

(** ** C4: a row whose subjects cell is the empty string *)

(** C4, counterexample.  One row with an empty subjects cell: the index has a
    subject whose name is the empty string, numbered 2, with the book in its
    list and related to the package in both directions. *)
Lemma C4_empty_subjects_cell_makes_a_subject :
  (setup_globals rows_with_empty_subjects fresh).1 = Ret tt ∧
  IDS_OF_SUBJECTS (setup_globals rows_with_empty_subjects fresh).2 !! "" = Some 2 ∧
  TOPICS_BOOKS (setup_globals rows_with_empty_subjects fresh).2 !! 2
    = Some [Some "10.1/aaa"] ∧
  PACKAGES_RELS (setup_globals rows_with_empty_subjects fresh).2 !! Some "Pkg1"
    = Some {[ "" ]} ∧
  SUBJECTS_RELS (setup_globals rows_with_empty_subjects fresh).2 !! ""
    = Some {[ Some "Pkg1" ]}.
Proof. vm_compute. done. Qed.

(** C4, as amended.  In every listing that is indexed, a row whose subjects
    cell is the empty string is recorded under its package and under the
    subject named by the empty string: that subject has an ID, its list holds
    the book, and it is related to the package in both directions. *)
Theorem C4_empty_subjects_cell_is_the_empty_subject books g row :
  setup_globals books fresh = (Ret tt, g) → row ∈ books → r_subjects row = Some "" →
  (∃ j l, od_get (r_package row) (IDS_OF_PACKAGES g) = Some j ∧
          TOPICS_BOOKS g !! j = Some l ∧ r_doi row ∈ l) ∧
  (∃ i l, IDS_OF_SUBJECTS g !! "" = Some i ∧ TOPICS_IDS g !! i = Some (Some "") ∧
          TOPICS_BOOKS g !! i = Some l ∧ r_doi row ∈ l) ∧
  "" ∈ default ∅ (PACKAGES_RELS g !! r_package row) ∧
  r_package row ∈ default ∅ (SUBJECTS_RELS g !! "").
Proof.
  intros Hrun Hrow Hfield.
  assert ("" ∈ row_subjects row) as Hs.
  { unfold row_subjects. rewrite Hfield. vm_compute. apply list_elem_of_here. }
  destruct (row_under_its_package books g row Hrun Hrow) as (j & Hj & _ & Hjb & Hjin).
  destruct (row_under_its_subjects books g row "" Hrun Hrow Hs)
    as (i & Hi & Hti & Hib & Hiin & Hp & Hq).
  split_and!; eauto 10.
Qed.

Lemma C4_witness :
  ∃ j, od_get (Some "Pkg1")
         (IDS_OF_PACKAGES (setup_globals rows_with_empty_subjects fresh).2) = Some j.
Proof.
  destruct (C4_empty_subjects_cell_is_the_empty_subject rows_with_empty_subjects
              (setup_globals rows_with_empty_subjects fresh).2
              (mkRow (Some "Book A") (Some "Pkg1") (Some "") (Some "10.1/aaa")))
    as ((j & l & Hj & _) & _).
  - vm_compute. reflexivity.
  - apply list_elem_of_here.
  - reflexivity.
  - exists j. exact Hj.
Defined.

Lemma C3_witness :
  ∃ g, setup_globals example_rows fresh = (Ret tt, g) ∧
       IDS_OF_SUBJECTS g !! "Math" = Some 3.
Proof.
  destruct (C3_ids_follow_sorted_names example_rows) as (g & pn & sn & Hrun & _).
  - repeat constructor; simpl; eauto.
  - exists g. split; [exact Hrun|].
    assert (g = (setup_globals example_rows fresh).2) as -> by (by rewrite Hrun).
    vm_compute. reflexivity.
Defined.

(** ** C7: truncated subject names *)

Lemma add_row_same_display r1 r2 gl : same_display r1 r2 → add_row r1 gl = add_row r2 gl.
Proof.
  intros (Ht & Hp & Hd & Hs). unfold add_row. rewrite Ht, Hp, Hd.
  destruct (r_subjects r1) as [f1|], (r_subjects r2) as [f2|]; simplify_eq/=; [|done].
  by rewrite Hs.
Qed.

Lemma add_rows_same_display books1 books2 gl :
  Forall2 same_display books1 books2 → add_rows books1 gl = add_rows books2 gl.
Proof.
  intros Hall. revert gl. induction Hall as [|r1 r2 b1 b2 Hr _ IH]; intros gl; [done|].
  simpl. rewrite (add_row_same_display r1 r2 gl Hr).
  destruct (add_row r2 gl) as [[[]|e] gl']; [apply IH|done].
Qed.

(** C7.  A subject name longer than 50 characters is cut to its first 47
    characters followed by three dots, 50 characters in all; every subject
    name kept by the index is at most 50 characters long; the index depends
    on the raw names only through their displayed form; and two raw names
    with the same displayed form are one topic: one ID, whose book list holds
    the books of both rows. *)
Theorem C7_subject_names_are_truncated_before_indexing :
  (∀ name, (LONGEST < String.length name)%nat →
     shorten name = Str.take 47 name +:+ "..." ∧ String.length (shorten name) = 50%nat) ∧
  (∀ books g s,
     setup_globals books fresh = (Ret tt, g) →
     s ∈ dom (IDS_OF_SUBJECTS g) ∨ s ∈ dom (SUBJECTS_RELS g)
       ∨ (∃ q, s ∈ default ∅ (PACKAGES_RELS g !! q)) →
     (String.length s ≤ 50)%nat) ∧
  (∀ books1 books2 g0,
     Forall2 same_display books1 books2 →
     setup_globals books1 g0 = setup_globals books2 g0) ∧
  (∀ books g row1 row2 f1 f2 n1 n2,
     setup_globals books fresh = (Ret tt, g) →
     row1 ∈ books → row2 ∈ books →
     r_subjects row1 = Some f1 → r_subjects row2 = Some f2 →
     n1 ∈ Str.split_on ";" f1 → n2 ∈ Str.split_on ";" f2 →
     shorten (Str.strip n1) = shorten (Str.strip n2) →
     ∃ i l, IDS_OF_SUBJECTS g !! shorten (Str.strip n1) = Some i ∧
            IDS_OF_SUBJECTS g !! shorten (Str.strip n2) = Some i ∧
            TOPICS_BOOKS g !! i = Some l ∧ r_doi row1 ∈ l ∧ r_doi row2 ∈ l).
Proof.
  split_and!.
  - intros name Hlen. rewrite shorten_long by (unfold LONGEST in *; lia). split; [done|].
    rewrite append_length, take_length. unfold LONGEST in *.
    change (String.length "...") with 3%nat. lia.
  - intros books g s Hrun Hs. by apply (subject_names_bounded books g s).
  - intros books1 books2 g0 Hall. unfold setup_globals.
    by rewrite (add_rows_same_display books1 books2 _ Hall).
  - intros books g row1 row2 f1 f2 n1 n2 Hrun Hr1 Hr2 Hf1 Hf2 Hn1 Hn2 Heq.
    assert (shorten (Str.strip n1) ∈ row_subjects row1) as Hs1.
    { unfold row_subjects. rewrite Hf1. simpl. unfold subjects_of.
      by do 2 apply list_elem_of_fmap_2. }
    assert (shorten (Str.strip n1) ∈ row_subjects row2) as Hs2.
    { rewrite Heq. unfold row_subjects. rewrite Hf2. simpl. unfold subjects_of.
      by do 2 apply list_elem_of_fmap_2. }
    destruct (row_under_its_subjects books g row1 _ Hrun Hr1 Hs1) as (i & Hi & _ & Hb & Hin1 & _).
    destruct (row_under_its_subjects books g row2 _ Hrun Hr2 Hs2) as (i' & Hi' & _ & Hb' & Hin2 & _).
    exists i, (books_in_subject (shorten (Str.strip n1)) books).
    split_and!; try done. by rewrite <-Heq.
Qed.

(** Two different raw names, both longer than 50 characters and equal on
    their first 47, are one subject with both books. *)
Example ex_truncated_names_collide :
  long_name_1 ≠ long_name_2 ∧
  shorten long_name_1 = "Computational Intelligence and Complexity in th..." ∧
  shorten long_name_2 = "Computational Intelligence and Complexity in th..." ∧
  let g := (setup_globals
              [ mkRow (Some "Book A") (Some "Pkg1") (Some long_name_1) (Some "10.1/aaa");
                mkRow (Some "Book B") (Some "Pkg1") (Some long_name_2) (Some "10.1/bbb") ]
              fresh).2 in
  map_to_list (IDS_OF_SUBJECTS g)
    = [("Computational Intelligence and Complexity in th...", 2)] ∧
  TOPICS_BOOKS g !! 2 = Some [Some "10.1/aaa"; Some "10.1/bbb"].
Proof. vm_compute. split_and!; done. Qed.

(** ** Running the loops *)

Lemma foldM_app {S A B} (body : A → B → M S A) acc l1 l2 s :
  foldM body acc (l1 ++ l2) s
  = match foldM body acc l1 s with
    | (Ret acc', s') => foldM body acc' l2 s'
    | (Exc e, s') => (Exc e, s')
    end.
Proof.
  revert acc s. induction l1 as [|x l1 IH]; intros acc s; [done|].
  cbn [foldM app]. rewrite !bind_run. destruct (body acc x s) as [[acc'|e] s']; [apply IH|done].
Qed.

(** An invariant of the loop holds at its end when the loop returns. *)
Lemma foldM_invariant {S A B} (body : A → B → M S A) (I : A → S → Prop) l :
  (∀ acc x s acc' s', x ∈ l → I acc s → body acc x s = (Ret acc', s') → I acc' s') →
  ∀ acc s acc' s', I acc s → foldM body acc l s = (Ret acc', s') → I acc' s'.
Proof.
  induction l as [|x l IH]; intros Hbody acc s acc' s' HI Hrun.
  - change ((Ret acc, s) = (Ret acc', s')) in Hrun. by simplify_eq.
  - cbn [foldM] in Hrun. rewrite bind_run in Hrun.
    destruct (body acc x s) as [[acc1|e] s1] eqn:Hstep; [|done].
    eapply (IH (λ a y t a' t' Hy, Hbody a y t a' t' (list_elem_of_further _ _ _ Hy))); [|done].
    eapply Hbody; [apply list_elem_of_here|done|done].
Qed.

(** ** What a computation adds to the trace *)

Section adds.

Context (Q : nat → list event → option exn → Prop) (HQ : sequential Q).

Lemma adds_ret {A} (a : A) : adds Q (mret a).
Proof. intros w r w' [= <- <-]. exists []. rewrite app_nil_r. split; [done|apply HQ]. Qed.

Lemma adds_raise {A} e : adds Q (raise (A:=A) e).
Proof. intros w r w' [= <- <-]. exists []. rewrite app_nil_r. split; [done|apply HQ]. Qed.

Lemma adds_get : adds Q get.
Proof. intros w r w' [= <- <-]. exists []. rewrite app_nil_r. split; [done|apply HQ]. Qed.

Lemma adds_topics_books tid : adds Q (topics_books tid).
Proof.
  intros w r w' Hrun. unfold topics_books in Hrun.
  destruct (TOPICS_BOOKS (idx w) !! tid); simplify_eq/=;
    exists []; rewrite app_nil_r; (split; [done|apply HQ]).
Qed.

Lemma adds_bind {A B} (m : M world A) (f : A → M world B) :
  adds Q m → (∀ a, adds Q (f a)) → adds Q (m ≫= f).
Proof.
  intros Hm Hf w r w' Hrun. rewrite bind_run in Hrun.
  destruct (m w) as [[a|e] w1] eqn:Hmw.
  - destruct (Hm _ _ _ Hmw) as (t1 & Ht1 & HQ1).
    destruct (Hf a _ _ _ Hrun) as (t2 & Ht2 & HQ2).
    exists (t1 ++ t2). split; [by rewrite Ht2, Ht1, app_assoc|].
    apply HQ; [done|]. by rewrite Ht1, length_app in HQ2.
  - simplify_eq. destruct (Hm _ _ _ Hmw) as (t1 & Ht1 & HQ1). eauto.
Qed.

Lemma adds_foldM {A B} (body : A → B → M world A) l :
  (∀ acc x, adds Q (body acc x)) → ∀ acc, adds Q (foldM body acc l).
Proof.
  intros Hbody. induction l as [|x l IH]; intros acc; cbn [foldM].
  - apply adds_ret.
  - apply adds_bind; [apply Hbody|apply IH].
Qed.

End adds.

(** ** One call of [_download_book] *)

Lemma length_snoc1 {A} (l : list A) x : List.length (l ++ [x]) = (List.length l + 1)%nat.
Proof. rewrite length_app. simpl. lia. Qed.

Lemma length_snoc2 {A} (l : list A) x y :
  List.length ((l ++ [x]) ++ [y]) = (List.length l + 2)%nat.
Proof. rewrite !length_app. simpl. lia. Qed.

Lemma length_snoc3 {A} (l : list A) x y z :
  List.length (((l ++ [x]) ++ [y]) ++ [z]) = (List.length l + 3)%nat.
Proof. rewrite !length_app. simpl. lia. Qed.

Lemma download_book_run env doi dest ext grp ad w r w' :
  _download_book env doi dest ext grp ad w = (r, w') →
  idx w' = idx w ∧
  ∃ t, trace w' = trace w ++ t ∧
       book_run env (List.length (trace w)) (idx w) doi dest ext grp ad r t.
Proof.
  unfold _download_book. destruct (decide (doi ∈ ad)) as [Hin|Hnot].
  { intros [= <- <-]. split; [done|]. eexists. split; [done|]. by constructor. }
  unfold log, emit, modify, get, getitem, lift, mkdir, requests_get, write_file, clock, raise.
  unfold mbind, M_bind, mret, M_ret. cbn.
  destruct (BOOKS_TITLES (idx w) !! doi) as [bookname|] eqn:Hbt; cbn;
    [|intros [= <- <-]; split; [done|]; eexists; split; [done|]; by constructor].
  destruct doi as [d|]; cbn;
    [|intros [= <- <-]; split; [done|]; eexists; split; [done|]; by constructor].
  destruct bookname as [title|]; cbn;
    [|intros [= <- <-]; split; [done|]; eexists; split; [done|]; by constructor].
  destruct (book_path dest grp ext title) as [path|e] eqn:Hpath; cbn;
    [|intros [= <- <-]; split; [done|]; eexists; split; [done|]; by constructor].
  assert (locates (idx w) (Some d) dest ext grp d path) as Hloc.
  { split; [done|]. by exists title. }
  rewrite length_snoc1.
  destruct (mkdir_ok env (List.length (trace w) + 1) (Pathlib.parent path)) eqn:Hmk; cbn;
    [|intros [= <- <-]; split; [done|]; eexists; split; [by rewrite <-app_assoc|];
      by eapply br_mkdir_fails].
  destruct (LINKS ext) as [tmpl|] eqn:Hlinks; cbn;
    [|intros [= <- <-]; split; [done|]; eexists; split; [by rewrite <-app_assoc|];
      eapply br_no_link; try done; unfold link_of; by rewrite Hlinks].
  assert (link_of ext d = Some (tmpl.1 +:+ Str.quote d +:+ tmpl.2)) as Hlink.
  { unfold link_of. by rewrite Hlinks. }
  rewrite length_snoc2.
  destruct (response env (List.length (trace w) + 2) _) as [status|] eqn:Hresp; cbn;
    [|intros [= <- <-]; split; [done|]; eexists; split; [by rewrite <-!app_assoc|];
      by eapply br_get_fails].
  destruct (status =? 200) eqn:Hst; cbn.
  - apply Z.eqb_eq in Hst as ->. rewrite length_snoc3.
    destruct (write_ok env (List.length (trace w) + 3) path) eqn:Hwr; cbn;
      intros [= <- <-]; (split; [done|]); eexists; (split; [by rewrite <-!app_assoc|]).
    + by eapply br_saved.
    + by eapply br_write_fails.
  - apply Z.eqb_neq in Hst. intros [= <- <-]. split; [done|]. eexists.
    split; [by rewrite <-!app_assoc|]. by eapply br_refused.
Qed.

(** ** The loop over books *)

Lemma download_loop_unfold env topics dest ext group ad :
  download_loop env topics dest ext group ad
  = foldM (topic_body env dest ext group) ad topics.
Proof. reflexivity. Qed.

Lemma alike_refl w : alike w w.
Proof. by split_and!. Qed.

Lemma alike_sym w1 w2 : alike w1 w2 → alike w2 w1.
Proof. intros (? & ? & ? & ?). by split_and!. Qed.

Lemma alike_trans w1 w2 w3 : alike w1 w2 → alike w2 w3 → alike w1 w3.
Proof.
  intros (Ha1 & Ha2 & Ha3 & Ha4) (Hb1 & Hb2 & Hb3 & Hb4). split_and!; try congruence.
Qed.

Lemma download_book_alike env doi dest ext grp ad w1 w2 :
  alike w1 w2 →
  (_download_book env doi dest ext grp ad w1).1 = (_download_book env doi dest ext grp ad w2).1 ∧
  alike (_download_book env doi dest ext grp ad w1).2 (_download_book env doi dest ext grp ad w2).2.
Proof.
  intros (Ht & Hbt & Hbp & Hb).
  destruct (_download_book env doi dest ext grp ad w1) as [r1 w1'] eqn:Hrun1.
  destruct (_download_book env doi dest ext grp ad w2) as [r2 w2'] eqn:Hrun2.
  revert Hrun1 Hrun2. unfold _download_book.
  unfold log, emit, modify, get, getitem, lift, mkdir, requests_get, write_file, clock, raise.
  unfold mbind, M_bind, mret, M_ret.
  assert (∀ (r : result (gset value)) t,
            (r, mkWorld (idx w1) t) = (r1, w1') → (r, mkWorld (idx w2) t) = (r2, w2') →
            (r1, w1').1 = (r2, w2').1 ∧ alike (r1, w1').2 (r2, w2').2) as Hfin.
  { intros r t [= <- <-] [= <- <-]. cbn. split; [done|]. by split_and!. }
  destruct (decide (doi ∈ ad)) as [Hin|Hnot]; cbn; [rewrite Ht; apply Hfin|].
  rewrite Hbt, Ht.
  destruct (BOOKS_TITLES (idx w2) !! doi) as [bookname|]; cbn; [|apply Hfin].
  destruct doi as [d|]; cbn; [|apply Hfin].
  destruct bookname as [title|]; cbn; [|apply Hfin].
  destruct (book_path dest grp ext title) as [path|e]; cbn; [|apply Hfin].
  destruct (mkdir_ok env _ _); cbn; [|apply Hfin].
  destruct (LINKS ext) as [tmpl|]; cbn; [|apply Hfin].
  destruct (response env _ _) as [status|]; cbn; [|apply Hfin].
  destruct (status =? 200); cbn; [|apply Hfin].
  destruct (write_ok env _ _); cbn; apply Hfin.
Qed.

Lemma book_body_alike env dest ext group ad doi w1 w2 :
  alike w1 w2 →
  (book_body env dest ext group ad doi w1).1 = (book_body env dest ext group ad doi w2).1 ∧
  alike (book_body env dest ext group ad doi w1).2 (book_body env dest ext group ad doi w2).2.
Proof.
  intros Hal. pose proof Hal as (Ht & Hbt & Hbp & Hb). unfold book_body.
  rewrite !bind_run. unfold get. cbn. destruct group.
  - rewrite !bind_run. unfold getitem. rewrite Hbp.
    destruct (BOOKS_PACKAGES (idx w2) !! doi) as [grp|]; cbn.
    + by apply download_book_alike.
    + done.
  - rewrite !bind_run. cbn. by apply download_book_alike.
Qed.

(** Loops whose bodies cannot tell alike worlds apart cannot either. *)
Lemma foldM_alike {A B} (body : A → B → M world A) l :
  (∀ acc x w1 w2, alike w1 w2 →
     (body acc x w1).1 = (body acc x w2).1 ∧ alike (body acc x w1).2 (body acc x w2).2) →
  ∀ acc w1 w2, alike w1 w2 →
    (foldM body acc l w1).1 = (foldM body acc l w2).1 ∧
    alike (foldM body acc l w1).2 (foldM body acc l w2).2.
Proof.
  intros Hbody. induction l as [|x l IH]; intros acc w1 w2 Hal; [done|].
  cbn [foldM]. rewrite !bind_run.
  destruct (Hbody acc x w1 w2 Hal) as [Hr Hw].
  destruct (body acc x w1) as [[a1|e1] w1'], (body acc x w2) as [[a2|e2] w2'];
    simplify_eq/=; [by apply IH|done].
Qed.

Lemma topics_books_alike tid w1 w2 :
  alike w1 w2 →
  (topics_books tid w1).1 = Ret (books_of (idx w2) tid) ∧
  alike (topics_books tid w1).2 w2.
Proof.
  intros (Ht & Hbt & Hbp & Hb). unfold topics_books.
  destruct (TOPICS_BOOKS (idx w1) !! tid) as [books|] eqn:Hlk; cbn.
  - split; [|by split_and!]. rewrite <-Hb. unfold books_of. by rewrite Hlk.
  - split; [rewrite <-Hb; unfold books_of; by rewrite Hlk|].
    split_and!; cbn; try done.
    intros k. rewrite <-Hb. unfold books_of. cbn.
    destruct (decide (tid = k)) as [->|Hne].
    + by rewrite lookup_insert_eq, Hlk.
    + by rewrite lookup_insert_ne.
Qed.

Lemma topic_body_alike env dest ext group ad tid w1 w2 :
  alike w1 w2 →
  (topic_body env dest ext group ad tid w1).1 = (topic_body env dest ext group ad tid w2).1 ∧
  alike (topic_body env dest ext group ad tid w1).2 (topic_body env dest ext group ad tid w2).2.
Proof.
  intros Hal. unfold topic_body. rewrite !bind_run.
  destruct (topics_books_alike tid w1 w2 Hal) as [Hr1 Hw1].
  destruct (topics_books_alike tid w2 w2 (alike_refl w2)) as [Hr2 Hw2].
  destruct (topics_books tid w1) as [r1 w1'], (topics_books tid w2) as [r2 w2'].
  cbn in *. subst r1 r2.
  apply foldM_alike; [apply book_body_alike|].
  eapply alike_trans; [done|by apply alike_sym].
Qed.

(** The two nested loops do what one loop over the books of the requested
    topics does. *)

(** What every turn of a loop keeps, the loop keeps, however it ends. *)
Lemma foldM_keeps {S A B C} (body : A → B → M S A) (f : S → C) l :
  (∀ acc x s r s', body acc x s = (r, s') → f s' = f s) →
  ∀ acc s r s', foldM body acc l s = (r, s') → f s' = f s.
Proof.
  intros Hbody. induction l as [|x l IH]; intros acc s r s' Hrun.
  - change ((Ret acc, s) = (r, s')) in Hrun. by simplify_eq.
  - cbn [foldM] in Hrun. rewrite bind_run in Hrun.
    destruct (body acc x s) as [[acc1|e] s1] eqn:Hstep.
    + rewrite (IH _ _ _ _ Hrun). by eapply Hbody.
    + simplify_eq. by eapply Hbody.
Qed.

Lemma book_body_run env dest ext group ad doi w r w' :
  book_body env dest ext group ad doi w = (r, w') →
  idx w' = idx w ∧
  ∃ t, trace w' = trace w ++ t ∧
       ((t = [] ∧ r = Exc KeyError ∧ group = true ∧ BOOKS_PACKAGES (idx w) !! doi = None)
        ∨ ∃ grp, group_of (idx w) group doi = Some grp ∧
                 book_run env (List.length (trace w)) (idx w) doi dest ext grp ad r t).
Proof.
  unfold book_body, group_of. rewrite bind_run. unfold get. cbn. rewrite bind_run.
  destruct group.
  - unfold getitem. destruct (BOOKS_PACKAGES (idx w) !! doi) as [grp|] eqn:Hgrp; cbn.
    + intros (Hidx & t & Ht & Hrun)%download_book_run. split; [done|].
      exists t. split; [done|]. right. by exists grp.
    + intros [= <- <-]. split; [done|]. exists []. rewrite app_nil_r. split; [done|]. by left.
  - cbn. intros (Hidx & t & Ht & Hrun)%download_book_run. split; [done|].
    exists t. split; [done|]. right. by eexists.
Qed.

Lemma book_loop_idx env dest ext group books ad w r w' :
  foldM (book_body env dest ext group) ad books w = (r, w') → idx w' = idx w.
Proof.
  apply (foldM_keeps _ idx). intros acc x s r0 s' Hrun. by apply book_body_run in Hrun as [? _].
Qed.

Lemma flat_books_alike w1 w2 topics :
  alike w1 w2 → flat_books (idx w1) topics = flat_books (idx w2) topics.
Proof.
  intros (_ & _ & _ & Hb). unfold flat_books.
  induction topics as [|tid topics IH]; [done|]. cbn. by rewrite Hb, IH.
Qed.

Lemma download_loop_flat env dest ext group topics ad w :
  (download_loop env topics dest ext group ad w).1
  = (foldM (book_body env dest ext group) ad (flat_books (idx w) topics) w).1 ∧
  alike (download_loop env topics dest ext group ad w).2
        (foldM (book_body env dest ext group) ad (flat_books (idx w) topics) w).2.
Proof.
  rewrite download_loop_unfold. revert ad w.
  induction topics as [|tid topics IH]; intros ad w.
  - split; [done|apply alike_refl].
  - cbn [foldM]. unfold flat_books. cbn [mbind list_bind]. fold (flat_books (idx w) topics).
    rewrite foldM_app, bind_run.
    destruct (topics_books_alike tid w w (alike_refl w)) as [Hr1 Hw1].
    destruct (topics_books tid w) as [r1 w1] eqn:Htopics. cbn in Hr1, Hw1. subst r1.
    assert (topic_body env dest ext group ad tid w
            = foldM (book_body env dest ext group) ad (books_of (idx w) tid) w1) as ->.
    { unfold topic_body. by rewrite bind_run, Htopics. }
    destruct (foldM_alike (book_body env dest ext group) (books_of (idx w) tid)
                (book_body_alike env dest ext group) ad w1 w Hw1) as [Hr2 Hw2].
    destruct (foldM (book_body env dest ext group) ad (books_of (idx w) tid) w1)
      as [[ad1|e1] w2] eqn:Ha;
      destruct (foldM (book_body env dest ext group) ad (books_of (idx w) tid) w)
      as [[ad1'|e1'] w2'] eqn:Hb; simplify_eq/=; [|by split].
    destruct (IH ad1' w2) as [Hr3 Hw3].
    destruct (foldM_alike (book_body env dest ext group) (flat_books (idx w2) topics)
                (book_body_alike env dest ext group) ad1' w2 w2' Hw2) as [Hr4 Hw4].
    assert (flat_books (idx w2) topics = flat_books (idx w) topics) as Hflat.
    { rewrite (book_loop_idx _ _ _ _ _ _ _ _ _ Ha). by apply flat_books_alike. }
    rewrite Hflat in *. split; [congruence|]. by eapply alike_trans.
Qed.

(** ** [download_books] around the loops *)

Lemma download_books_unsupported env topics dest ext group w :
  LINKS ext = None →
  download_books env topics dest ext group w
  = (Ret tt, mkWorld (idx w) (trace w ++ [Log ERROR ("Unsupported format: '" +:+ ext +:+ "'.")])).
Proof. intros Hl. unfold download_books. by rewrite Hl. Qed.

Lemma download_books_empty_index env topics dest ext group w :
  is_Some (LINKS ext) → BOOKS_TITLES (idx w) = ∅ →
  download_books env topics dest ext group w = (Exc TypeError, w).
Proof.
  intros [tmpl Hl] Hbt. unfold download_books. rewrite Hl.
  rewrite bind_run. unfold get. cbn. rewrite bind_run. by rewrite decide_True.
Qed.

Lemma download_books_loop env topics dest ext group w :
  is_Some (LINKS ext) → BOOKS_TITLES (idx w) ≠ ∅ →
  download_books env topics dest ext group w
  = match download_loop env topics dest ext group ∅
            (mkWorld (idx w) (trace w ++ [entering ext])) with
    | (Ret _, w1) => (Ret tt, mkWorld (idx w1) (trace w1 ++ [finished ext]))
    | (Exc e, w1) => (Exc e, w1)
    end.
Proof.
  intros [tmpl Hl] Hbt. unfold download_books. rewrite Hl.
  rewrite bind_run. unfold get. cbn. rewrite bind_run. rewrite decide_False by done.
  cbn. rewrite bind_run. unfold log, emit, modify at 1. cbn. rewrite bind_run.
  destruct (download_loop env topics dest ext group ∅ _) as [[ad|e] w1]; done.
Qed.

(** ** Counting fetches and writes *)

Lemma fetches_app d t1 t2 : fetches d (t1 ++ t2) = (fetches d t1 + fetches d t2)%nat.
Proof. unfold fetches. by rewrite List.filter_app, length_app. Qed.

Lemma writes_app d t1 t2 : writes d (t1 ++ t2) = (writes d t1 + writes d t2)%nat.
Proof. unfold writes. by rewrite List.filter_app, length_app. Qed.

Lemma occurrences_snoc d l x :
  occurrences d (l ++ [x]) = (occurrences d l + if decide (x = Some d) then 1 else 0)%nat.
Proof.
  unfold occurrences. rewrite filter_app, length_app. f_equal.
  rewrite filter_cons, filter_nil. by case_decide.
Qed.

Lemma occurrences_pos d l : Some d ∈ l ↔ (0 < occurrences d l)%nat.
Proof.
  unfold occurrences. split.
  - intros Hin. assert (Some d ∈ filter (λ x, x = Some d) l) as Hf by by apply list_elem_of_filter.
    destruct (filter _ l); [by apply elem_of_nil in Hf|simpl; lia].
  - intros Hlen. destruct (filter (λ x, x = Some d) l) as [|y f] eqn:Hf; [simpl in Hlen; lia|].
    assert (y ∈ filter (λ x, x = Some d) l) as [-> Hin]%list_elem_of_filter
      by (rewrite Hf; apply list_elem_of_here). done.
Qed.

(** An invariant that may mention the elements gone through so far. *)
Lemma foldM_invariant_prefix {S A B} (body : A → B → M S A)
    (I : list B → A → S → Prop) l :
  (∀ pre acc x s acc' s', I pre acc s → body acc x s = (Ret acc', s') → I (pre ++ [x]) acc' s') →
  ∀ pre acc s acc' s', I pre acc s → foldM body acc l s = (Ret acc', s') → I (pre ++ l) acc' s'.
Proof.
  intros Hbody. induction l as [|x l IH]; intros pre acc s acc' s' HI Hrun.
  - change ((Ret acc, s) = (Ret acc', s')) in Hrun. simplify_eq. by rewrite app_nil_r.
  - cbn [foldM] in Hrun. rewrite bind_run in Hrun.
    destruct (body acc x s) as [[acc1|e] s1] eqn:Hstep; [|done].
    replace (pre ++ x :: l) with ((pre ++ [x]) ++ l) by by rewrite <-app_assoc.
    eapply IH; [|done]. by eapply Hbody.
Qed.

(** The fetches and writes of one call, read off the way it went. *)
Lemma book_run_counts env n g doi dest ext grp ad r t d :
  book_run env n g doi dest ext grp ad r t →
  (doi ≠ Some d → fetches d t = 0%nat ∧ writes d t = 0%nat) ∧
  (doi ∈ ad → fetches d t = 0%nat ∧ writes d t = 0%nat) ∧
  (∀ ad', r = Ret ad' → (Some d ∈ ad' ↔ Some d ∈ ad ∨ (doi = Some d ∧ writes d t = 1%nat))) ∧
  (doi = Some d → doi ∉ ad → ∀ ad', r = Ret ad' →
     fetches d t = 1%nat ∧
     ∃ link status, link_of ext d = Some link ∧ response env (n + 2) link = Some status ∧
       ((status = 200 ∧ writes d t = 1%nat ∧ ad' = ad ∪ {[doi]})
        ∨ (status ≠ 200 ∧ writes d t = 0%nat ∧ ad' = ad))).
Proof.
  intros Hrun. unfold fetches, writes.
  destruct Hrun as [msg Hin|e msg Hnot|d' path msg Hnot [-> Hloc] Hmk
                   |d' path msg Hnot [-> Hloc] Hmk Hlink
                   |d' path link msg Hnot [-> Hloc] Hmk Hlink Hresp
                   |d' path link status msg msg' Hnot [-> Hloc] Hmk Hlink Hresp Hst
                   |d' path link msg Hnot [-> Hloc] Hmk Hlink Hresp Hwr
                   |d' path link msg msg' Hnot [-> Hloc] Hmk Hlink Hresp Hwr];
    cbn; split_and!; try done; try (intros; simplify_eq; done).
  all: try (intros Hne; assert (d' ≠ d) by congruence; by rewrite !bool_decide_false).
  all: try (intros ad' [= <-]; set_solver).
  - intros [= ->] _ ad' [= <-]. rewrite bool_decide_true by done. split; [done|].
    exists link, status. split_and!; try done. by right.
  - intros ad' [= <-]. destruct (decide (d' = d)) as [->|Hne].
    + rewrite !bool_decide_true by done. set_solver.
    + rewrite !bool_decide_false by done. simpl. set_solver.
  - intros [= ->] _ ad' [= <-]. rewrite !bool_decide_true by done. split; [done|].
    exists link, 200. split_and!; try done. by left.
Qed.

Lemma book_body_counts env dest ext group ad doi w ad' w' d :
  book_body env dest ext group ad doi w = (Ret ad', w') →
  ∃ t, trace w' = trace w ++ t ∧
    (doi ≠ Some d → fetches d t = 0%nat ∧ writes d t = 0%nat) ∧
    (doi ∈ ad → fetches d t = 0%nat ∧ writes d t = 0%nat) ∧
    (Some d ∈ ad' ↔ Some d ∈ ad ∨ (doi = Some d ∧ writes d t = 1%nat)) ∧
    (doi = Some d → doi ∉ ad →
       fetches d t = 1%nat ∧
       ∃ link status, link_of ext d = Some link ∧
         response env (List.length (trace w) + 2) link = Some status ∧
         ((status = 200 ∧ writes d t = 1%nat ∧ ad' = ad ∪ {[doi]})
          ∨ (status ≠ 200 ∧ writes d t = 0%nat ∧ ad' = ad))).
Proof.
  intros (_ & t & Ht & [(_ & [=] & _)|(grp & _ & Hrun)])%book_body_run.
  destruct (book_run_counts _ _ _ _ _ _ _ _ _ _ d Hrun) as (H1 & H2 & H3 & H4).
  exists t. split_and!; eauto.
Qed.

(** With a server that answers 200 to every request for the book [d], the
    loop fetches and writes [d] once if it is listed and never otherwise. *)
Lemma book_loop_once env dest ext group d l w ad' w' :
  (∀ n link status, link_of ext d = Some link →
                    response env n link = Some status → status = 200) →
  foldM (book_body env dest ext group) ∅ l w = (Ret ad', w') →
  ∃ t, trace w' = trace w ++ t ∧
       (Some d ∈ l → fetches d t = 1%nat ∧ writes d t = 1%nat) ∧
       (Some d ∉ l → fetches d t = 0%nat ∧ writes d t = 0%nat).
Proof.
  intros H200 Hrun.
  pose (I := λ (pre : list value) (acc : gset value) (s : world),
    ∃ t, trace s = trace w ++ t ∧ (Some d ∈ acc ↔ Some d ∈ pre) ∧
         (Some d ∈ acc → fetches d t = 1%nat ∧ writes d t = 1%nat) ∧
         (Some d ∉ acc → fetches d t = 0%nat ∧ writes d t = 0%nat)).
  assert (I ([] ++ l) ad' w') as (t & Ht & Hiff & Hin & Hout).
  { eapply (foldM_invariant_prefix (book_body env dest ext group) I); [|..|exact Hrun].
    - clear Hrun. intros pre acc x s acc' s' (t & Ht & Hiff & Hin & Hout) Hstep.
      destruct (book_body_counts _ _ _ _ _ _ _ _ _ d Hstep) as (t1 & Ht1 & Hne & Hskip & Hmem & Hnew).
      exists (t ++ t1). split; [by rewrite Ht1, Ht, app_assoc|].
      rewrite fetches_app, writes_app.
      destruct (decide (x = Some d)) as [->|Hx].
      + destruct (decide (Some d ∈ acc)) as [Hacc|Hacc].
        * destruct (Hskip Hacc) as [-> ->], (Hin Hacc) as [-> ->].
          split_and!; [|done|]; set_solver.
        * destruct (Hnew eq_refl Hacc) as (Hf & link & status & Hlink & Hresp & Hcase).
          destruct (Hout Hacc) as [-> ->]. rewrite Hf.
          destruct Hcase as [(_ & Hw & ->)|(Hst & _)];
            [|by destruct Hst; eapply H200].
          rewrite Hw. split_and!; [|done|]; set_solver.
      + destruct (Hne Hx) as [Hf Hw]. rewrite Hf, Hw, !Nat.add_0_r.
        assert (Some d ∈ acc' ↔ Some d ∈ acc) as Hsame by (rewrite Hmem; naive_solver).
        split_and!.
        * rewrite Hsame, Hiff. set_solver.
        * intros ?%Hsame. auto.
        * intros Hn. apply Hout. by rewrite <-Hsame.
    - exists []. rewrite app_nil_r. split_and!; [done|set_solver|set_solver|done]. }
  exists t. split; [done|]. simpl in Hiff. split.
  - intros Hl. apply Hin, Hiff, Hl.
  - intros Hl. apply Hout. by rewrite Hiff.
Qed.

(** With a server that never answers 200 to a request for the book [d], the
    loop fetches [d] each time it is listed and never writes it. *)
Lemma book_loop_again env dest ext group d l w ad' w' :
  (∀ n link status, link_of ext d = Some link →
                    response env n link = Some status → status ≠ 200) →
  foldM (book_body env dest ext group) ∅ l w = (Ret ad', w') →
  Some d ∉ ad' ∧
  ∃ t, trace w' = trace w ++ t ∧ fetches d t = occurrences d l ∧ writes d t = 0%nat.
Proof.
  intros Hfail Hrun.
  pose (I := λ (pre : list value) (acc : gset value) (s : world),
    Some d ∉ acc ∧
    ∃ t, trace s = trace w ++ t ∧ fetches d t = occurrences d pre ∧ writes d t = 0%nat).
  change (I ([] ++ l) ad' w').
  eapply (foldM_invariant_prefix (book_body env dest ext group) I); [|..|exact Hrun].
  - clear Hrun. intros pre acc x s acc' s' (Hacc & t & Ht & Hf & Hw) Hstep.
    destruct (book_body_counts _ _ _ _ _ _ _ _ _ d Hstep) as (t1 & Ht1 & Hne & Hskip & Hmem & Hnew).
    unfold I. rewrite occurrences_snoc.
    destruct (decide (x = Some d)) as [->|Hx].
    + destruct (Hnew eq_refl Hacc) as (Hf1 & link & status & Hlink & Hresp & Hcase).
      destruct Hcase as [(-> & _)|(_ & Hw1 & ->)]; [by destruct (Hfail _ _ _ Hlink Hresp)|].
      split; [done|].
      exists (t ++ t1). rewrite fetches_app, writes_app, Ht1, Ht, app_assoc. split; [done|]. lia.
    + destruct (Hne Hx) as [Hf1 Hw1]. split; [rewrite Hmem; naive_solver|].
      exists (t ++ t1). rewrite fetches_app, writes_app, Ht1, Ht, app_assoc. split; [done|]. lia.
  - split; [set_solver|]. exists []. by rewrite app_nil_r.
Qed.

(** A call of [download_books] that returns, for a supported format, is the
    loop over the books of the requested topics between two log lines. *)
Lemma download_books_returns env topics dest ext group w w' :
  is_Some (LINKS ext) →
  download_books env topics dest ext group w = (Ret tt, w') →
  ∃ ad' w2 t,
    foldM (book_body env dest ext group) ∅ (flat_books (idx w) topics)
      (mkWorld (idx w) (trace w ++ [entering ext])) = (Ret ad', w2) ∧
    trace w2 = (trace w ++ [entering ext]) ++ t ∧
    trace w' = trace w ++ [entering ext] ++ t ++ [finished ext].
Proof.
  intros Hl Hrun.
  destruct (decide (BOOKS_TITLES (idx w) = ∅)) as [Hbt|Hbt].
  { by rewrite download_books_empty_index in Hrun. }
  rewrite download_books_loop in Hrun by done.
  pose proof (download_loop_flat env dest ext group topics ∅
                (mkWorld (idx w) (trace w ++ [entering ext]))) as [Hr Hal].
  cbn [idx] in *.
  destruct (download_loop env topics dest ext group ∅ _) as [[ad|e] w1]; [|done].
  destruct (foldM (book_body env dest ext group) ∅ (flat_books (idx w) topics) _)
    as [[ad2|e2] w2] eqn:Hflat; cbn in Hr; [|done].
  simplify_eq. destruct Hal as (Htr & _). cbn in Htr.
  assert (∃ t, trace w2 = (trace w ++ [entering ext]) ++ t) as [t Ht].
  { pose (Q := λ (n : nat) (t : list event) (r : option exn), True).
    assert (sequential Q) as HQ by (by split).
    destruct (adds_foldM Q HQ (book_body env dest ext group) (flat_books (idx w) topics)
                (λ acc x s r s' Hs,
                   match book_body_run _ _ _ _ _ _ _ _ _ Hs with
                   | conj _ (ex_intro _ t' (conj Ht' _)) => ex_intro _ t' (conj Ht' I)
                   end) ∅ _ _ _ Hflat) as (t & Ht & _).
    by exists t. }
  exists ad2, w2, t. split_and!; [done|done|]. cbn. rewrite Htr, Ht. by rewrite <-!app_assoc.
Qed.

(** ** C2: a book listed under several requested topics *)

(** C2, counterexample.  The book 10.1/aaa is listed under the requested
    topics 1 and 3; the server answers 404; the call returns, having fetched
    the book twice and written no file. *)
Lemma C2_refused_book_is_fetched_for_each_topic :
  refused_run.1 = Ret tt ∧
  Some "10.1/aaa" ∈ books_of example_index 1 ∧
  Some "10.1/aaa" ∈ books_of example_index 3 ∧
  fetches "10.1/aaa" (trace refused_run.2) = 2%nat ∧
  writes "10.1/aaa" (trace refused_run.2) = 0%nat.
Proof. vm_compute. split_and!; try reflexivity; repeat constructor. Qed.

(** C2, as amended.  In a call of [download_books] that returns, for a
    format that has a link and a server that answers 200 to every request
    for the book, a book listed under two different requested topics is
    fetched exactly once and its file is written exactly once. *)
Theorem C2_fetched_once_when_the_server_accepts
    env g t0 topics dest ext group d link tid1 tid2 w' :
  download_books env topics dest ext group (mkWorld g t0) = (Ret tt, w') →
  link_of ext d = Some link →
  (∀ n, response env n link = Some 200) →
  tid1 ∈ topics → tid2 ∈ topics → tid1 ≠ tid2 →
  Some d ∈ books_of g tid1 → Some d ∈ books_of g tid2 →
  ∃ t, trace w' = t0 ++ t ∧ fetches d t = 1%nat ∧ writes d t = 1%nat.
Proof.
  intros Hrun Hlink H200 Htid1 _ _ Hd1 _.
  assert (is_Some (LINKS ext)) as Hl.
  { unfold link_of in Hlink. destruct (LINKS ext); [eauto|done]. }
  destruct (download_books_returns _ _ _ _ _ _ _ Hl Hrun) as (ad' & w2 & t & Hflat & Ht & Htr).
  cbn [idx trace] in *.
  destruct (book_loop_once env dest ext group d _ _ _ _
              (λ n link' status Hlink' Hresp,
                 ltac:(rewrite Hlink in Hlink'; simplify_eq; rewrite H200 in Hresp;
                       by simplify_eq))
              Hflat) as (t' & Ht' & Hin & _).
  rewrite Ht in Ht'. apply app_inv_head in Ht' as <-.
  destruct Hin as [Hf Hw].
  { unfold flat_books. apply list_elem_of_bind. eauto. }
  exists ([entering ext] ++ t ++ [finished ext]). split; [done|].
  rewrite !fetches_app, !writes_app, Hf, Hw. done.
Qed.

Lemma C2_witness :
  ∃ t, trace (download_books env_serving [1; 3] out_dir "pdf" false
                (mkWorld example_index [])).2 = [] ++ t
       ∧ fetches "10.1/aaa" t = 1%nat ∧ writes "10.1/aaa" t = 1%nat.
Proof.
  apply (C2_fetched_once_when_the_server_accepts env_serving example_index [] [1; 3]
           out_dir "pdf" false "10.1/aaa"
           "https://link.springer.com/content/pdf/10.1%2Faaa.pdf" 1 3).
  - vm_compute. reflexivity.
  - vm_compute. reflexivity.
  - intros n. reflexivity.
  - apply list_elem_of_here.
  - apply list_elem_of_further, list_elem_of_here.
  - discriminate.
  - vm_compute. apply list_elem_of_here.
  - vm_compute. apply list_elem_of_here.
Defined.

(** ** C9: when a book enters the set of downloaded books *)

(** One call of [_download_book] for a book that is not in the set and
    reaches the fetch: what it returns and appends, by the answers of the
    outside. *)
Lemma download_book_fetch env d dest ext grp ad w title path link status :
  Some d ∉ ad →
  BOOKS_TITLES (idx w) !! Some d = Some (Some title) →
  book_path dest grp ext title = Ret path →
  mkdir_ok env (List.length (trace w) + 1) (Pathlib.parent path) = true →
  link_of ext d = Some link →
  response env (List.length (trace w) + 2) link = Some status →
  _download_book env (Some d) dest ext grp ad w
  = if decide (status = 200) then
      if write_ok env (List.length (trace w) + 3) path then
        (Ret (ad ∪ {[Some d]}),
         mkWorld (idx w)
           (trace w ++ [Log INFO ("Downloading book " +:+ d +:+ "."); Mkdir (Pathlib.parent path);
                        Get d link; Write d path; Log INFO ("Book " +:+ d +:+ " saved.")]))
      else
        (Exc OSError,
         mkWorld (idx w)
           (trace w ++ [Log INFO ("Downloading book " +:+ d +:+ "."); Mkdir (Pathlib.parent path);
                        Get d link; Write d path]))
    else
      (Ret ad,
       mkWorld (idx w)
         (trace w ++ [Log INFO ("Downloading book " +:+ d +:+ "."); Mkdir (Pathlib.parent path);
                      Get d link; refusal title status])).
Proof.
  intros Hnot Htitle Hpath Hmk Hlink Hresp.
  unfold link_of in Hlink. destruct (LINKS ext) as [tmpl|] eqn:Hl; [|done].
  cbn in Hlink. simplify_eq.
  unfold _download_book. rewrite decide_False by done.
  unfold log, emit, modify, get, getitem, lift, mkdir, requests_get, write_file, clock, raise.
  unfold mbind, M_bind, mret, M_ret. cbn.
  rewrite Htitle. cbn. rewrite Hpath. cbn. rewrite length_snoc1, Hmk. cbn.
  rewrite Hl. cbn. rewrite length_snoc2, Hresp. cbn.
  destruct (decide (status = 200)) as [->|Hst].
  - cbn. rewrite length_snoc3. destruct (write_ok env _ path); cbn; by rewrite <-!app_assoc.
  - apply Z.eqb_neq in Hst. rewrite Hst. cbn. by rewrite <-!app_assoc.
Qed.

(** With an outside that never fails, a turn of the loop over books returns
    for a book that is ready. *)
Lemma book_body_returns env dest ext group ad doi w :
  never_fails env → is_Some (LINKS ext) → ready (idx w) dest ext group doi →
  ∃ ad' w', book_body env dest ext group ad doi w = (Ret ad', w').
Proof.
  intros (Hmk & Hwr & Hresp) [tmpl Hl] (d & title & grp & path & -> & Htitle & Hgrp & Hpath).
  assert (book_body env dest ext group ad (Some d) w
          = _download_book env (Some d) dest ext grp ad w) as ->.
  { unfold book_body, group_of in *. rewrite bind_run. unfold get. cbn.
    rewrite bind_run. destruct group.
    - unfold getitem. by rewrite Hgrp.
    - by simplify_eq. }
  destruct (decide (Some d ∈ ad)) as [Hin|Hnot].
  { unfold _download_book. rewrite decide_True by done. eauto. }
  destruct (Hresp (List.length (trace w) + 2)%nat (tmpl.1 +:+ Str.quote d +:+ tmpl.2))
    as [status Hst].
  rewrite (download_book_fetch env d dest ext grp ad w title path
             (tmpl.1 +:+ Str.quote d +:+ tmpl.2) status);
    try done; [|unfold link_of; by rewrite Hl].
  rewrite Hwr. case_decide; eauto.
Qed.

Lemma book_loop_returns env dest ext group l ad w :
  never_fails env → is_Some (LINKS ext) → Forall (ready (idx w) dest ext group) l →
  ∃ ad' w', foldM (book_body env dest ext group) ad l w = (Ret ad', w').
Proof.
  intros Henv Hl. revert ad w. induction l as [|doi l IH]; intros ad w Hall.
  - by exists ad, w.
  - apply Forall_cons in Hall as [Hdoi Hall].
    destruct (book_body_returns env dest ext group ad doi w Henv Hl Hdoi) as (ad1 & w1 & Hstep).
    cbn [foldM]. rewrite bind_run, Hstep.
    apply IH. apply book_body_run in Hstep as [-> _]. done.
Qed.

(** With an outside that never fails, a call of [download_books] for books
    that are ready returns. *)
Lemma download_books_total env topics dest ext group w :
  never_fails env → is_Some (LINKS ext) → BOOKS_TITLES (idx w) ≠ ∅ →
  Forall (ready (idx w) dest ext group) (flat_books (idx w) topics) →
  ∃ w', download_books env topics dest ext group w = (Ret tt, w').
Proof.
  intros Henv Hl Hbt Hall. rewrite download_books_loop by done.
  destruct (book_loop_returns env dest ext group (flat_books (idx w) topics) ∅
              (mkWorld (idx w) (trace w ++ [entering ext])) Henv Hl Hall) as (ad' & w2 & Hflat).
  destruct (download_loop_flat env dest ext group topics ∅
              (mkWorld (idx w) (trace w ++ [entering ext]))) as [Hr _].
  cbn [idx] in Hr. rewrite Hflat in Hr.
  destruct (download_loop env topics dest ext group ∅ _) as [[ad|e] w1]; [eauto|done].
Qed.

Lemma occurrences_app d l1 l2 :
  occurrences d (l1 ++ l2) = (occurrences d l1 + occurrences d l2)%nat.
Proof. unfold occurrences. by rewrite filter_app, length_app. Qed.

(** A book listed under two of the requested topics is listed twice. *)
Lemma occurrences_two_topics g d l1 tid1 l2 tid2 l3 :
  Some d ∈ books_of g tid1 → Some d ∈ books_of g tid2 →
  (2 ≤ occurrences d (flat_books g (l1 ++ tid1 :: l2 ++ tid2 :: l3)))%nat.
Proof.
  intros H1%occurrences_pos H2%occurrences_pos. unfold flat_books.
  rewrite bind_app, bind_cons, bind_app, bind_cons, !occurrences_app. lia.
Qed.

(** C9.  (1) One call of [_download_book] adds the identifier to the set
    only at the end of a run that fetched the book with status 200 and then
    wrote its file.  (2) A call that reaches the fetch and is answered with
    another status returns normally, with the set as it was, after logging a
    warning and without writing.  (3) Hence, with an outside that never fails
    and books that are ready, a call of [download_books] returns, and a book
    for which the server never answers 200 stays out of the set: it is
    fetched as many times as it is listed under the requested topics -- at
    least twice when two requested topics list it -- and never written. *)
Theorem C9_refused_book_is_fetched_again :
  (∀ env doi dest ext grp ad w ad' w',
     _download_book env doi dest ext grp ad w = (Ret ad', w') →
     doi ∉ ad → doi ∈ ad' →
     ∃ d path link msg msg',
       doi = Some d ∧ ad' = ad ∪ {[doi]} ∧
       trace w' = trace w ++ [Log INFO msg; Mkdir (Pathlib.parent path); Get d link;
                              Write d path; Log INFO msg'] ∧
       response env (List.length (trace w) + 2) link = Some 200 ∧
       write_ok env (List.length (trace w) + 3) path = true) ∧
  (∀ env d dest ext grp ad w title path link status,
     Some d ∉ ad →
     BOOKS_TITLES (idx w) !! Some d = Some (Some title) →
     book_path dest grp ext title = Ret path →
     mkdir_ok env (List.length (trace w) + 1) (Pathlib.parent path) = true →
     link_of ext d = Some link →
     response env (List.length (trace w) + 2) link = Some status → status ≠ 200 →
     _download_book env (Some d) dest ext grp ad w
     = (Ret ad,
        mkWorld (idx w)
          (trace w ++ [Log INFO ("Downloading book " +:+ d +:+ ".");
                       Mkdir (Pathlib.parent path); Get d link; refusal title status]))) ∧
  (∀ env g t0 topics dest ext group d link,
     never_fails env →
     BOOKS_TITLES g ≠ ∅ →
     Forall (ready g dest ext group) (flat_books g topics) →
     link_of ext d = Some link →
     (∀ n status, response env n link = Some status → status ≠ 200) →
     ∃ w' t,
       download_books env topics dest ext group (mkWorld g t0) = (Ret tt, w') ∧
       trace w' = t0 ++ t ∧
       fetches d t = occurrences d (flat_books g topics) ∧ writes d t = 0%nat ∧
       ∀ l1 tid1 l2 tid2 l3,
         topics = l1 ++ tid1 :: l2 ++ tid2 :: l3 →
         Some d ∈ books_of g tid1 → Some d ∈ books_of g tid2 →
         (2 ≤ fetches d t)%nat).
Proof.
  split_and!.
  - intros env doi dest ext grp ad w ad' w' Hrun Hnot Hin.
    apply download_book_run in Hrun as (_ & t & Ht & Hrun).
    remember (Ret ad') as r eqn:Hr.
    destruct Hrun as [msg Hin'|e msg Hnot'|d' path msg Hnot' [Hdoi Hloc] Hmk
                   |d' path msg Hnot' [Hdoi Hloc] Hmk Hlink'
                   |d' path link' msg Hnot' [Hdoi Hloc] Hmk Hlink' Hresp'
                   |d' path link' status' msg msg' Hnot' [Hdoi Hloc] Hmk Hlink' Hresp' Hst'
                   |d' path link' msg Hnot' [Hdoi Hloc] Hmk Hlink' Hresp' Hwr
                   |d' path link' msg msg' Hnot' [Hdoi Hloc] Hmk Hlink' Hresp' Hwr];
      simplify_eq; try done.
    rewrite Ht. eauto 12.
  - intros env d dest ext grp ad w title path link status Hnot Htitle Hpath Hmk Hlink Hresp Hst.
    rewrite (download_book_fetch env d dest ext grp ad w title path link status) by done.
    by rewrite decide_False.
  - intros env g t0 topics dest ext group d link Henv Hbt Hall Hlink Hfail.
    assert (is_Some (LINKS ext)) as Hl.
    { unfold link_of in Hlink. destruct (LINKS ext); [eauto|done]. }
    destruct (download_books_total env topics dest ext group (mkWorld g t0) Henv Hl Hbt Hall)
      as [w' Hrun].
    destruct (download_books_returns _ _ _ _ _ _ _ Hl Hrun) as (ad' & w2 & t & Hflat & Ht & Htr).
    cbn [idx trace] in *.
    destruct (book_loop_again env dest ext group d _ _ _ _
                (λ n link' status Hlink' Hresp,
                   ltac:(rewrite Hlink in Hlink'; simplify_eq; by eapply Hfail))
                Hflat) as (_ & t' & Ht' & Hf & Hw).
    rewrite Ht in Ht'. apply app_inv_head in Ht' as <-.
    assert (fetches d ([entering ext] ++ t ++ [finished ext])
            = occurrences d (flat_books g topics)) as Hcount.
    { rewrite !fetches_app, Hf. cbn. lia. }
    exists w', ([entering ext] ++ t ++ [finished ext]). split_and!; try done.
    + rewrite !writes_app, Hw. done.
    + intros l1 tid1 l2 tid2 l3 -> H1 H2. rewrite Hcount.
      by apply occurrences_two_topics.
Qed.

(** The book 10.1/aaa of the example, listed under the package 1 and the
    subject 3, with a server that answers 404: the call returns and the book
    is fetched twice. *)
Lemma C9_witness :
  ∃ w' t,
    download_books env_refusing [1; 3] out_dir "pdf" false (mkWorld example_index [])
    = (Ret tt, w') ∧
    trace w' = [] ++ t ∧ (2 ≤ fetches "10.1/aaa" t)%nat.
Proof.
  destruct C9_refused_book_is_fetched_again as (_ & _ & Hcall).
  destruct (Hcall env_refusing example_index [] [1; 3] out_dir "pdf" false "10.1/aaa"
              "https://link.springer.com/content/pdf/10.1%2Faaa.pdf")
    as (w' & t & Hrun & Ht & _ & _ & Htwice).
  - by split_and!; intros; eauto.
  - vm_compute. discriminate.
  - vm_compute. repeat constructor; by repeat eexists.
  - vm_compute. reflexivity.
  - intros n status [= <-]. discriminate.
  - exists w', t. split_and!; [done|done|].
    apply (Htwice [] 1 [] 3 []); [done|vm_compute; apply list_elem_of_here..].
Defined.

(** ** C10: topic IDs that were never assigned *)

(** In an index built from the empty dictionaries, an ID without a topic has
    no list of books, and every ID outside 1..P+S is without a topic. *)
Lemma unassigned_topic_has_no_books books g :
  setup_globals books fresh = (Ret tt, g) →
  (∀ tid, TOPICS_IDS g !! tid = None → TOPICS_BOOKS g !! tid = None) ∧
  (∀ tid, ¬ (0 < tid ≤ Z.of_nat (size (PACKAGES_RELS g)) + Z.of_nat (size (SUBJECTS_RELS g))) →
          TOPICS_IDS g !! tid = None).
Proof.
  intros Hrun.
  assert (rows_ok books) as Hok by (apply setup_globals_succeeds_iff; by rewrite Hrun).
  destruct (setup_globals_fresh books Hok) as (g' & g1 & loc & pk & Hrun' & Hix & Hsorted & Hnb).
  assert (g' = g) as -> by congruence.
  set (sk := sorted_str (keys (SUBJECTS_RELS g1))) in *.
  split.
  - intros tid Hnone. rewrite (nb_tb_old _ _ _ _ _ _ Hnb); [done|..].
    + intros k p Hk _ ->. by rewrite (nb_tids_p _ _ _ _ _ _ Hnb _ _ Hk) in Hnone.
    + intros k s Hk _ ->. by rewrite (nb_tids_s _ _ _ _ _ _ Hnb _ _ Hk) in Hnone.
  - intros tid Hout. rewrite (nb_tids_old _ _ _ _ _ _ Hnb); [done|].
    rewrite (nb_prel _ _ _ _ _ _ Hnb), (nb_srel _ _ _ _ _ _ Hnb), <-!length_keys,
      <-(nb_pk _ _ _ _ _ _ Hnb), <-(nb_sk _ _ _ _ _ _ Hnb) in Hout. lia.
Qed.

Lemma flat_books_skip g l1 l2 tid :
  books_of g tid = [] → flat_books g (l1 ++ tid :: l2) = flat_books g (l1 ++ l2).
Proof.
  intros Hb. unfold flat_books. rewrite !bind_app. cbn. by rewrite Hb.
Qed.

(** Two lists of topics with the same books make the same call. *)
Lemma download_books_same_books env topics1 topics2 dest ext group w :
  flat_books (idx w) topics1 = flat_books (idx w) topics2 →
  (download_books env topics1 dest ext group w).1
  = (download_books env topics2 dest ext group w).1 ∧
  alike (download_books env topics1 dest ext group w).2
        (download_books env topics2 dest ext group w).2.
Proof.
  intros Hflat. destruct (LINKS ext) as [tmpl|] eqn:Hl.
  - destruct (decide (BOOKS_TITLES (idx w) = ∅)) as [Hbt|Hbt].
    + rewrite !download_books_empty_index by eauto. split; [done|apply alike_refl].
    + rewrite !download_books_loop by eauto.
      destruct (download_loop_flat env dest ext group topics1 ∅
                  (mkWorld (idx w) (trace w ++ [entering ext]))) as [Hr1 Ha1].
      destruct (download_loop_flat env dest ext group topics2 ∅
                  (mkWorld (idx w) (trace w ++ [entering ext]))) as [Hr2 Ha2].
      cbn [idx] in *. rewrite Hflat in *.
      pose proof (alike_trans _ _ _ Ha1 (alike_sym _ _ Ha2)) as Hal.
      destruct (download_loop env topics1 dest ext group ∅ _) as [[a1|e1] w1],
               (download_loop env topics2 dest ext group ∅ _) as [[a2|e2] w2];
        cbn in *; try congruence.
      * split; [done|]. destruct Hal as (Ht & ? & ? & ?). split_and!; cbn; try done.
        by rewrite Ht.
      * split; [congruence|done].
  - rewrite !download_books_unsupported by done. split; [done|apply alike_refl].
Qed.

(** C10.  In an index built by [setup_globals], a requested topic ID to
    which no package or subject was assigned -- as is every ID below 1 or
    above P+S -- changes nothing in a call of [download_books]: with it or
    without it the call ends the same way with the same trace of log lines,
    directories, fetches and writes, and leaves the same books under every
    ID. *)
Theorem C10_unassigned_topic_changes_nothing env books g tid l1 l2 dest ext group t0 :
  setup_globals books fresh = (Ret tt, g) →
  TOPICS_IDS g !! tid = None →
  (download_books env (l1 ++ tid :: l2) dest ext group (mkWorld g t0)).1
  = (download_books env (l1 ++ l2) dest ext group (mkWorld g t0)).1 ∧
  trace (download_books env (l1 ++ tid :: l2) dest ext group (mkWorld g t0)).2
  = trace (download_books env (l1 ++ l2) dest ext group (mkWorld g t0)).2 ∧
  (∀ i, books_of (idx (download_books env (l1 ++ tid :: l2) dest ext group (mkWorld g t0)).2) i
        = books_of (idx (download_books env (l1 ++ l2) dest ext group (mkWorld g t0)).2) i) ∧
  (∀ i, ¬ (0 < i ≤ Z.of_nat (size (PACKAGES_RELS g)) + Z.of_nat (size (SUBJECTS_RELS g))) →
        TOPICS_IDS g !! i = None).
Proof.
  intros Hrun Hnone.
  destruct (unassigned_topic_has_no_books books g Hrun) as [Hnb Hrange].
  destruct (download_books_same_books env (l1 ++ tid :: l2) (l1 ++ l2) dest ext group
              (mkWorld g t0)) as (Hr & Ht & _ & _ & Hb).
  { cbn. apply flat_books_skip. unfold books_of. by rewrite (Hnb tid Hnone). }
  by split_and!.
Qed.

Lemma C10_witness :
  trace (download_books env_serving ([1] ++ 7 :: [3]) out_dir "pdf" false
           (mkWorld example_index [])).2
  = trace (download_books env_serving ([1] ++ [3]) out_dir "pdf" false
             (mkWorld example_index [])).2.
Proof.
  apply (C10_unassigned_topic_changes_nothing env_serving example_rows example_index 7
           [1] [3] out_dir "pdf" false []).
  - vm_compute. reflexivity.
  - vm_compute. reflexivity.
Defined.

(** ** C6: errors of the file system *)

Lemma fail_stop_sequential env : sequential (fail_stop env).
Proof.
  split.
  - intros n r. split; intros k ? ? Hk; by rewrite lookup_nil in Hk.
  - intros n t1 t2 r [H1a H1b] [H2a H2b]. split.
    + intros k e x Hk Hx. destruct (decide (k < List.length t1)%nat) as [Hlt|Hge].
      * rewrite lookup_app_l in Hk by done. by destruct (H1a k e x Hk Hx) as [? _].
      * rewrite lookup_app_r in Hk by lia.
        destruct (H2a (k - List.length t1)%nat e x Hk) as [-> Hlen].
        { by replace (n + List.length t1 + (k - List.length t1))%nat with (n + k)%nat by lia. }
        split; [done|]. rewrite length_app. lia.
    + intros k d p Hk. destruct (decide (k < List.length t1)%nat) as [Hlt|Hge].
      * rewrite lookup_app_l in Hk by done.
        destruct (H1b k d p Hk) as (link & Hk2 & Hget & Hmk).
        exists link. rewrite !lookup_app_l by lia. done.
      * rewrite lookup_app_r in Hk by lia.
        destruct (H2b _ d p Hk) as (link & Hk2 & Hget & Hmk).
        exists link. split; [lia|]. rewrite !lookup_app_r by lia.
        replace (k - 1 - List.length t1)%nat with (k - List.length t1 - 1)%nat by lia.
        replace (k - 2 - List.length t1)%nat with (k - List.length t1 - 2)%nat by lia.
        done.
Qed.

Lemma adds_log env lvl msg : adds (fail_stop env) (log lvl msg).
Proof.
  intros w r w' [= <- <-]. exists [Log lvl msg]. split; [done|]. split.
  - intros [|k] e x Hk Hx; simplify_eq/=; try (by rewrite lookup_nil in Hk).
  - intros [|k] d p Hk; simplify_eq/=; try (by rewrite lookup_nil in Hk).
Qed.

Lemma adds_book_body env dest ext group ad doi :
  adds (fail_stop env) (book_body env dest ext group ad doi).
Proof.
  intros w r w' (_ & t & Ht & Hrun)%book_body_run. exists t. split; [done|].
  destruct Hrun as [(-> & _)|(grp & _ & Hrun)]; [apply fail_stop_sequential|].
  set (n := List.length (trace w)) in *.
  destruct Hrun as [msg Hin'|e msg Hnot'|d' path msg Hnot' [Hdoi Hloc] Hmk
                   |d' path msg Hnot' [Hdoi Hloc] Hmk Hlink'
                   |d' path link' msg Hnot' [Hdoi Hloc] Hmk Hlink' Hresp'
                   |d' path link' status' msg msg' Hnot' [Hdoi Hloc] Hmk Hlink' Hresp' Hst'
                   |d' path link' msg Hnot' [Hdoi Hloc] Hmk Hlink' Hresp' Hwr
                   |d' path link' msg msg' Hnot' [Hdoi Hloc] Hmk Hlink' Hresp' Hwr];
    (split;
     [ intros k e0 x Hk Hx; split_lookup k Hk; simplify_eq; cbn in Hx;
       rewrite ?Nat.add_0_r in Hx; try done;
       rewrite ?Hmk, ?Hresp', ?Hwr in Hx; by simplify_eq
     | intros k d0 p Hk; split_lookup k Hk; simplify_eq;
       exists link'; split_and!; first [lia|done] ]).
Qed.

Lemma adds_download_loop env dest ext group topics ad :
  adds (fail_stop env) (download_loop env topics dest ext group ad).
Proof.
  rewrite download_loop_unfold.
  apply adds_foldM; [apply fail_stop_sequential|]. intros acc tid. unfold topic_body.
  apply adds_bind; [apply fail_stop_sequential|apply adds_topics_books, fail_stop_sequential|].
  intros books. apply adds_foldM; [apply fail_stop_sequential|]. intros acc' doi.
  apply adds_book_body.
Qed.

Lemma adds_download_books env topics dest ext group :
  adds (fail_stop env) (download_books env topics dest ext group).
Proof.
  pose proof (fail_stop_sequential env) as HQ.
  unfold download_books. destruct (LINKS ext); [|apply adds_log].
  apply adds_bind; [done|by apply adds_get|]. intros w.
  apply adds_bind; [done| |].
  { case_decide; [by apply adds_raise|by apply adds_ret]. }
  intros _. apply adds_bind; [done|apply adds_log|]. intros _.
  apply adds_bind; [done|apply adds_download_loop|]. intros _. apply adds_log.
Qed.

(** C6, counterexample.  Package 1 has the books 10.1/aaa and 10.1/bbb.
    Creating the directory fails for the first book only: the call ends with
    [OSError] right there, no warning is logged and the second book is never
    fetched. *)
Lemma C6_failed_mkdir_ends_the_batch :
  books_of example_index 1 = [Some "10.1/aaa"; Some "10.1/bbb"] ∧
  interrupted_run.1 = Exc OSError ∧
  trace interrupted_run.2
  = [Log INFO "Entering pdf download section.";
     Log INFO "Downloading book 10.1/aaa.";
     Mkdir out_dir] ∧
  fetches "10.1/bbb" (trace interrupted_run.2) = 0%nat.
Proof. vm_compute. done. Qed.

(** C6, as amended.  An error of the file system is not caught.  In every
    call of [download_books], an event that raises -- a failed creation of a
    directory or a failed write, with [OSError] -- is the last event of the
    call and its exception is the outcome of the call, so no later book is
    fetched or written; and every write follows the fetch of the same book,
    which follows the successful creation ([mkdir] with [exist_ok]) of the
    parent directory of the written path. *)
Theorem C6_filesystem_error_ends_the_call env topics dest ext group w :
  ∃ t, trace (download_books env topics dest ext group w).2 = trace w ++ t ∧
    (∀ k p, (t !! k = Some (Mkdir p) ∧ mkdir_ok env (List.length (trace w) + k) p = false)
            ∨ (∃ d, t !! k = Some (Write d p)
                    ∧ write_ok env (List.length (trace w) + k) p = false) →
            (download_books env topics dest ext group w).1 = Exc OSError ∧
            List.length t = S k) ∧
    (∀ k d p, t !! k = Some (Write d p) →
              ∃ link, (2 ≤ k)%nat ∧ t !! (k - 1)%nat = Some (Get d link) ∧
                      t !! (k - 2)%nat = Some (Mkdir (Pathlib.parent p)) ∧
                      mkdir_ok env (List.length (trace w) + (k - 2)) (Pathlib.parent p) = true).
Proof.
  destruct (download_books env topics dest ext group w) as [r w'] eqn:Hrun.
  destruct (adds_download_books env topics dest ext group w r w' Hrun) as (t & Ht & Ha & Hb).
  exists t. cbn. split; [done|]. split.
  - intros k p [[Hk Hmk]|(d & Hk & Hwr)].
    + destruct (Ha k _ OSError Hk) as [Hr Hlen]; [cbn; by rewrite Hmk|].
      split; [|done]. destruct r; by simplify_eq/=.
    + destruct (Ha k _ OSError Hk) as [Hr Hlen]; [cbn; by rewrite Hwr|].
      split; [|done]. destruct r; by simplify_eq/=.
  - intros k d p Hk. destruct (Hb k d p Hk) as (link & Hk2 & Hget & Hmk).
    exists link. split_and!; try done.
    destruct (mkdir_ok env _ _) eqn:Hok; [done|].
    destruct (Ha (k - 2)%nat _ OSError Hmk) as [_ Hlen]; [cbn; by rewrite Hok|].
    apply lookup_lt_Some in Hk. lia.
Qed.

(** ** C1: listing the books of requested topics *)

(** C1, the failing input.  The example of the specification has two
    packages and two subjects; the subject Math has the ID 3 and two books.
    Asked for the books of subject 3, [print_books_in_topic] answers that
    there is no subject with that ID: the test compares the ID with the
    number of subjects, not with the number of packages and subjects. *)
Theorem C1_subject_of_the_example_is_not_listed :
  size (PACKAGES_RELS example_index) = 2%nat ∧
  size (SUBJECTS_RELS example_index) = 2%nat ∧
  IDS_OF_SUBJECTS example_index !! "Math" = Some 3 ∧
  TOPICS_IDS example_index !! 3 = Some (Some "Math") ∧
  TOPICS_BOOKS example_index !! 3 = Some [Some "10.1/aaa"; Some "10.1/bbb"] ∧
  print_books_in_topic (Some [3]) None (mkWorld example_index [])
  = (Ret tt, mkWorld example_index [Print "NO SUBJECT WITH ID = 3."]).
Proof. vm_compute. done. Qed.

(** ** C8: where a book is saved *)

Lemma contains_append c s1 s2 :
  Str.contains c (s1 +:+ s2) = Str.contains c s1 || Str.contains c s2.
Proof.
  induction s1 as [|a s1 IH]; [done|].
  change (Str.contains c (String a (s1 +:+ s2))
          = Str.contains c (String a s1) || Str.contains c s2).
  cbn [Str.contains]. by case_decide.
Qed.

Lemma contains_cons c a s :
  Str.contains c (String a s) = false ↔ a ≠ c ∧ Str.contains c s = false.
Proof. cbn. case_decide; naive_solver. Qed.

(** The words of [s.split()] are made of characters of [s], and none of
    them is empty. *)
Lemma split_words c s :
  Str.contains c s = false → Forall (λ w, Str.contains c w = false) (Str.split s).
Proof.
  induction s as [|a s IH]; [constructor|].
  intros [Ha Hs]%contains_cons. specialize (IH Hs). cbn [Str.split].
  destruct (Str.isspace a); [done|].
  destruct s as [|a' s']; [repeat constructor; by apply contains_cons|].
  destruct (Str.isspace a').
  - constructor; [by apply contains_cons|done].
  - destruct (Str.split (String a' s')) as [|w ws]; [repeat constructor; by apply contains_cons|].
    apply Forall_cons in IH as [Hw Hws]. constructor; [by apply contains_cons|done].
Qed.

Lemma split_words_nonempty s : Forall (λ w, w ≠ "") (Str.split s).
Proof.
  induction s as [|a s IH]; [constructor|]. cbn [Str.split].
  destruct (Str.isspace a); [done|].
  destruct s as [|a' s']; [by repeat constructor|].
  destruct (Str.isspace a').
  - by constructor.
  - destruct (Str.split (String a' s')) as [|w ws]; [by repeat constructor|].
    apply Forall_cons in IH as [Hw Hws]. by constructor.
Qed.

Lemma join_cons sep w ws :
  Str.join sep (w :: ws) = match ws with [] => w | _ => w +:+ sep +:+ Str.join sep ws end.
Proof. by destruct ws. Qed.

Lemma contains_join c sep ws :
  Str.contains c sep = false → Forall (λ w, Str.contains c w = false) ws →
  Str.contains c (Str.join sep ws) = false.
Proof.
  intros Hsep. induction 1 as [|w ws Hw Hws IH]; [done|].
  rewrite join_cons. destruct ws; [done|].
  by rewrite !contains_append, Hw, Hsep, IH.
Qed.

Lemma join_nonempty sep ws : ws ≠ [] → Forall (λ w, w ≠ "") ws → Str.join sep ws ≠ "".
Proof.
  intros Hne Hall. destruct Hall as [|w ws Hw Hws]; [done|].
  rewrite join_cons. destruct ws; [done|]. by destruct w.
Qed.

Lemma rfind_dot_None s : Str.contains "." s = false → Str.rfind_dot s = None.
Proof.
  induction s as [|a s IH]; [done|]. intros [Ha Hs]%contains_cons.
  cbn. rewrite (IH Hs). by rewrite decide_False.
Qed.

Lemma split_on_absent c s : Str.contains c s = false → Str.split_on c s = [s].
Proof.
  induction s as [|a s IH]; [done|]. intros [Ha Hs]%contains_cons.
  cbn. rewrite decide_False by done. by rewrite (IH Hs).
Qed.

(** [p / name] for a name that is one component. *)
Lemma join1_component p nm :
  nm ≠ "" → nm ≠ "." → Str.contains "/" nm = false →
  Pathlib.join1 p nm = mkPath (root p) (parts p ++ [nm]).
Proof.
  intros Hne Hdot Hsep. unfold Pathlib.join1, Pathlib.parse_segment, Pathlib.splitroot.
  destruct nm as [|a nm']; [done|].
  apply contains_cons in Hsep as Hsep'. destruct Hsep' as [Ha _].
  unfold Pathlib.sep. rewrite decide_False by done.
  rewrite split_on_absent by done. cbn [List.filter].
  unfold Pathlib.keep_part. rewrite !bool_decide_false by done. cbn.
  by rewrite decide_True.
Qed.

Lemma supported_format ext : is_Some (LINKS ext) → ext = "pdf" ∨ ext = "epub".
Proof. unfold LINKS. repeat case_decide; [auto|auto|by intros [? [=]]]. Qed.

Lemma last_snoc_str (l : list string) x d : List.last (l ++ [x]) d = x.
Proof. apply last_last. Qed.

Lemma removelast_snoc {A} (l : list A) x : removelast (l ++ [x]) = l.
Proof. apply removelast_last. Qed.

(** The path of a book whose title has no dot and no slash. *)
Lemma book_path_plain dest gname ext title :
  is_Some (LINKS ext) →
  Str.contains "." title = false → Str.contains "/" title = false →
  Str.split title ≠ [] →
  book_path dest (Some gname) ext title
  = Ret (mkPath (root (Pathlib.join1 dest gname))
           (parts (Pathlib.join1 dest gname)
              ++ [Str.join "-" (Str.split title) +:+ "." +:+ ext])).
Proof.
  intros Hext Hdot Hsep Hne. unfold book_path.
  set (fn := Str.join "-" (Str.split title)).
  assert (Str.contains "." fn = false) as Hfdot by (apply contains_join; [done|by apply split_words]).
  assert (Str.contains "/" fn = false) as Hfsep by (apply contains_join; [done|by apply split_words]).
  assert (fn ≠ "") as Hfne by (apply join_nonempty; [done|apply split_words_nonempty]).
  assert (fn ≠ ".") as Hfd by (intros Heq; by rewrite Heq in Hfdot).
  unfold Pathlib.joinpath. cbn [mapM id mbind option_bind mret option_ret foldl].
  change (foldl Pathlib.join1 dest [gname; fn])
    with (Pathlib.join1 (Pathlib.join1 dest gname) fn).
  rewrite (join1_component _ fn) by done.
  set (dg := Pathlib.join1 dest gname).
  unfold Pathlib.with_suffix, Pathlib.name. cbn [parts root].
  rewrite last_snoc_str, removelast_snoc.
  unfold Pathlib.suffix_of. rewrite rfind_dot_None by done.
  destruct (supported_format ext Hext) as [-> | ->];
    [change ("." +:+ "pdf") with ".pdf"|change ("." +:+ "epub") with ".epub"];
    cbn [bool_decide]; (rewrite bool_decide_false by done);
    [change (Str.contains Pathlib.sep ".pdf") with false
    |change (Str.contains Pathlib.sep ".epub") with false];
    cbn match; rewrite (decide_True (P := "."%char = "."%char)) by done;
    rewrite (decide_False (P := fn = "")) by done;
    by rewrite (decide_True (P := "" = "")).
Qed.

Lemma join1_empty p : Pathlib.join1 p "" = p.
Proof. destruct p as [r ps]. unfold Pathlib.join1. cbn. by rewrite app_nil_r. Qed.

(** What every turn of a loop appends, the loop appends. *)
Lemma foldM_appends {A B} (body : A → B → M world A) (Q : index → event → Prop) l :
  (∀ acc x w r w', body acc x w = (r, w') →
     idx w' = idx w ∧ ∃ t, trace w' = trace w ++ t ∧ Forall (Q (idx w)) t) →
  ∀ acc w r w', foldM body acc l w = (r, w') →
     idx w' = idx w ∧ ∃ t, trace w' = trace w ++ t ∧ Forall (Q (idx w)) t.
Proof.
  intros Hbody. induction l as [|x l IH]; intros acc w r w' Hrun.
  - change ((Ret acc, w) = (r, w')) in Hrun. simplify_eq. split; [done|].
    exists []. by rewrite app_nil_r.
  - cbn [foldM] in Hrun. rewrite bind_run in Hrun.
    destruct (body acc x w) as [[acc1|e] w1] eqn:Hstep.
    + destruct (Hbody _ _ _ _ _ Hstep) as (Hi1 & t1 & Ht1 & HQ1).
      destruct (IH _ _ _ _ Hrun) as (Hi2 & t2 & Ht2 & HQ2).
      split; [congruence|]. exists (t1 ++ t2). split; [by rewrite Ht2, Ht1, app_assoc|].
      apply Forall_app. split; [done|]. by rewrite <-Hi1.
    + simplify_eq. by apply Hbody in Hstep.
Qed.

Lemma book_body_saved_at env dest ext group ad doi w r w' :
  book_body env dest ext group ad doi w = (r, w') →
  idx w' = idx w ∧
  ∃ t, trace w' = trace w ++ t ∧ Forall (saved_at (idx w) dest ext group) t.
Proof.
  intros (Hidx & t & Ht & Hrun)%book_body_run. split; [done|]. exists t. split; [done|].
  destruct Hrun as [(-> & _)|(grp & Hgrp & Hrun)]; [constructor|].
  assert (∀ d path, locates (idx w) doi dest ext grp d path →
                    saved_at (idx w) dest ext group (Write d path)) as Hloc.
  { intros d path (-> & title & Htitle & Hpath). by exists title, grp. }
  destruct Hrun; repeat constructor; by apply Hloc.
Qed.

(** The events of a call of [download_books]: every write goes where
    [book_path] sends the title of the book. *)
Lemma download_books_saved_at env topics dest ext group w :
  ∃ t, trace (download_books env topics dest ext group w).2 = trace w ++ t ∧
       ((∃ d p, Write d p ∈ t) → is_Some (LINKS ext)) ∧
       Forall (saved_at (idx w) dest ext group) t.
Proof.
  destruct (LINKS ext) as [tmpl|] eqn:Hl.
  - destruct (decide (BOOKS_TITLES (idx w) = ∅)) as [Hbt|Hbt].
    + rewrite download_books_empty_index by eauto. exists []. rewrite app_nil_r.
      split_and!; [done|eauto|done].
    + rewrite download_books_loop by eauto.
      destruct (download_loop_flat env dest ext group topics ∅
                  (mkWorld (idx w) (trace w ++ [entering ext]))) as [Hr (Htr & _)].
      cbn [idx] in *.
      destruct (foldM (book_body env dest ext group) ∅ (flat_books (idx w) topics) _)
        as [r2 w2] eqn:Hflat.
      destruct (foldM_appends (book_body env dest ext group)
                  (λ g, saved_at g dest ext group) _
                  (book_body_saved_at env dest ext group) _ _ _ _ Hflat)
        as (_ & t & Ht & Hall).
      cbn in Ht, Hall, Htr, Hr.
      destruct (download_loop env topics dest ext group ∅ _) as [[ad|e] w1]; cbn in *.
      * exists ([entering ext] ++ t ++ [finished ext]).
        split; [by rewrite Htr, Ht, <-!app_assoc|]. split; [eauto|].
        apply Forall_app. split; [by repeat constructor|].
        apply Forall_app. split; [done|by repeat constructor].
      * exists ([entering ext] ++ t). split; [by rewrite Htr, Ht, <-!app_assoc|].
        split; [eauto|]. apply Forall_app. split; [by repeat constructor|done].
  - rewrite download_books_unsupported by done. cbn. eexists. split; [done|].
    split; [|by repeat constructor].
    intros (d & p & Hin). apply list_elem_of_singleton in Hin. discriminate.
Qed.

(** C8, counterexample.  The title [Python 3.8 Guide] with its whitespace
    replaced by hyphens is [Python-3.8-Guide], yet the book is written to
    [out/Python-3.pdf]; and the title [ Logic  for All ], which the
    replacement turns into [-Logic-for-All-], goes to [out/Logic-for-All.pdf]. *)
Lemma C8_file_name_is_not_the_hyphenated_title :
  (spec_sanitized "Python 3.8 Guide" = "Python-3.8-Guide" ∧
   book_path out_dir (Some "") "pdf" "Python 3.8 Guide"
   = Ret (mkPath "" ["out"; "Python-3.pdf"]) ∧
   Write "10.1/ddd" (mkPath "" ["out"; "Python-3.pdf"]) ∈ trace dotted_run.2 ∧
   Write "10.1/ddd" (mkPath "" ["out"; "Python-3.8-Guide.pdf"]) ∉ trace dotted_run.2) ∧
  (spec_sanitized " Logic  for All " = "-Logic-for-All-" ∧
   book_path out_dir (Some "") "pdf" " Logic  for All "
   = Ret (mkPath "" ["out"; "Logic-for-All.pdf"])).
Proof.
  split_and!; try (vm_compute; reflexivity).
  - vm_compute. repeat constructor.
  - vm_compute. intros Hin. repeat (apply elem_of_cons in Hin as [Hin|Hin]; [discriminate|]).
    by apply elem_of_nil in Hin.
Qed.

(** C8, as amended.  Every file written by [download_books] goes where
    [book_path] sends the title of its book; for a title without a dot or a
    slash and with at least one character that is not whitespace, that is
    destination / directory / words.extension: the directory is the name of
    the package of the book when grouping is asked for and nothing otherwise,
    the words are those of the title, joined by hyphens, and the extension is
    [pdf] or [epub]. *)
Theorem C8_file_is_named_by_the_joined_words env topics dest ext group w :
  ∃ t, trace (download_books env topics dest ext group w).2 = trace w ++ t ∧
    ∀ d p, Write d p ∈ t →
      (ext = "pdf" ∨ ext = "epub") ∧
      ∃ title grp,
        BOOKS_TITLES (idx w) !! Some d = Some (Some title) ∧
        (if group then BOOKS_PACKAGES (idx w) !! Some d else Some (Some "")) = Some grp ∧
        book_path dest grp ext title = Ret p ∧
        ∀ gname, grp = Some gname →
          Str.contains "." title = false → Str.contains "/" title = false →
          Str.split title ≠ [] →
          p = mkPath (root (Pathlib.join1 dest gname))
                (parts (Pathlib.join1 dest gname)
                   ++ [Str.join "-" (Str.split title) +:+ "." +:+ ext]) ∧
          (gname = "" → Pathlib.join1 dest gname = dest).
Proof.
  destruct (download_books_saved_at env topics dest ext group w) as (t & Ht & Hext & Hall).
  exists t. split; [done|]. intros d p Hin.
  assert (is_Some (LINKS ext)) as Hl by eauto.
  split; [by apply supported_format|].
  rewrite Forall_forall in Hall. destruct (Hall _ Hin) as (title & grp & Htitle & Hgrp & Hpath).
  exists title, grp. split_and!; try done.
  intros gname -> Hdot Hsep Hne. split.
  - rewrite book_path_plain in Hpath by done. by simplify_eq.
  - intros ->. apply join1_empty.
Qed.

(** A book of the example, saved with and without grouping. *)
Example ex_saved_paths :
  Write "10.1/ccc" (mkPath "" ["out"; "Pkg2"; "Book-C.pdf"])
    ∈ trace (download_books env_serving [2] out_dir "pdf" true (mkWorld example_index [])).2 ∧
  Write "10.1/ccc" (mkPath "" ["out"; "Book-C.epub"])
    ∈ trace (download_books env_serving [2] out_dir "epub" false (mkWorld example_index [])).2.
Proof. split; vm_compute; repeat constructor. Qed.

(** * Further properties *)

(** ** The index as a whole *)

(** The index built from the empty dictionaries, with the state after the
    first loop and the sorted names. *)
Lemma setup_globals_built books g :
  setup_globals books fresh = (Ret tt, g) →
  ∃ g1 loc pk,
    add_rows books (fresh, mkLocals [] []) = (Ret tt, (g1, loc)) ∧
    indexed books (fresh, mkLocals [] []) (g1, loc) ∧
    sorted (keys (PACKAGES_RELS g1)) = Ret pk ∧
    numbered books fresh g1 g pk (sorted_str (keys (SUBJECTS_RELS g1))).
Proof.
  intros Hrun.
  assert (rows_ok books) as [Hsub Hpk] by (apply setup_globals_succeeds_iff; by rewrite Hrun).
  destruct (add_rows_indexed books (fresh, mkLocals [] []) Hsub) as ([g1 loc] & Hrows & Hix).
  destruct (setup_globals_sorted_ok books fresh g1 loc Hix eq_refl Hpk) as [pk Hsorted].
  destruct (setup_globals_numbered books fresh g1 loc pk Hrows Hix Hsorted) as (g' & Hrun' & Hnb).
  assert (g' = g) as -> by congruence. by exists g1, loc, pk.
Qed.

Lemma add_row_packages row gl gl' :
  add_row row gl = (Ret tt, gl') →
  BOOKS_PACKAGES gl'.1 = <[r_doi row := r_package row]> (BOOKS_PACKAGES gl.1).
Proof.
  destruct gl as [g loc]. unfold add_row. destruct (r_subjects row) as [field|]; [|done].
  set (g1 := mkIndex _ _ _ _ _ _ _ _). set (loc1 := mkLocals _ _).
  pose proof (add_subjects_frame (r_package row) (r_doi row) (subjects_of field) g1 loc1) as Hfr.
  cbv zeta in Hfr. destruct Hfr as (_ & Hp & _).
  destruct (foldl _ (g1, loc1) _) as [g2 loc2]. intros [= <-]. cbn in *. by rewrite Hp.
Qed.

Lemma add_rows_packages books gl gl' :
  add_rows books gl = (Ret tt, gl') →
  ∀ d, BOOKS_PACKAGES gl'.1 !! d
       = match package_of books d with
         | Some p => Some p
         | None => BOOKS_PACKAGES gl.1 !! d
         end.
Proof.
  revert gl. induction books as [|row books IH]; intros gl Hrun d.
  - cbn in Hrun. by simplify_eq.
  - cbn [add_rows] in Hrun. destruct (add_row row gl) as [[[]|e] gl1] eqn:Hrow; [|done].
    rewrite (IH _ Hrun d), (add_row_packages _ _ _ Hrow). unfold package_of.
    rewrite filter_cons. destruct (decide (r_doi row = d)) as [<-|Hne].
    + rewrite last_cons. destruct (last (filter _ books)); cbn; [done|].
      by rewrite lookup_insert_eq.
    + destruct (last (filter _ books)); cbn; [done|]. by rewrite lookup_insert_ne.
Qed.

Lemma last_filter_is_Some {A} (P : A → Prop) `{∀ x, Decision (P x)} (l : list A) x :
  x ∈ l → P x → ∃ y, last (filter P l) = Some y ∧ y ∈ l ∧ P y.
Proof.
  intros Hin HP. assert (x ∈ filter P l) as Hf by by apply list_elem_of_filter.
  destruct (last (filter P l)) as [y|] eqn:Hlast.
  - exists y. split; [done|]. apply last_Some_elem_of in Hlast.
    by apply list_elem_of_filter in Hlast as [? ?].
  - apply last_None in Hlast. rewrite Hlast in Hf. by apply elem_of_nil in Hf.
Qed.

(** The titles and the packages of the books in the built index. *)
Lemma built_titles_packages books g :
  setup_globals books fresh = (Ret tt, g) →
  ∀ d, BOOKS_TITLES g !! d = title_of books d ∧ BOOKS_PACKAGES g !! d = package_of books d.
Proof.
  intros (g1 & loc & pk & Hrows & Hix & Hsorted & Hnb)%setup_globals_built d.
  rewrite (nb_titles _ _ _ _ _ _ Hnb), (nb_packages _ _ _ _ _ _ Hnb).
  pose proof (add_rows_titles _ _ _ Hrows d) as Ht.
  pose proof (add_rows_packages _ _ _ Hrows d) as Hp. cbn in Ht, Hp.
  rewrite Ht, Hp. by destruct (title_of books d), (package_of books d).
Qed.

(** The book lists of the built index: under the ID of a package, the
    identifiers of its rows; under the ID of a subject, those of the rows
    that name it; under any other ID, nothing. *)
Lemma built_topics_books books g i l :
  setup_globals books fresh = (Ret tt, g) →
  TOPICS_BOOKS g !! i = Some l →
  (∃ p, TOPICS_IDS g !! i = Some p ∧ od_get p (IDS_OF_PACKAGES g) = Some i ∧
        l = books_in_package p books)
  ∨ (∃ s, TOPICS_IDS g !! i = Some (Some s) ∧ IDS_OF_SUBJECTS g !! s = Some i ∧
          l = books_in_subject s books).
Proof.
  intros (g1 & loc & pk & Hrows & Hix & Hsorted & Hnb)%setup_globals_built Hl.
  set (sk := sorted_str (keys (SUBJECTS_RELS g1))) in *.
  assert (∀ p, p ∈ pk → p ∈ r_package <$> books) as Hpk_in.
  { intros p. rewrite (nb_pk _ _ _ _ _ _ Hnb), elem_of_keys.
    pose proof (ix_prel_dom _ _ _ Hix) as Hd. cbn in Hd. rewrite Hd. set_solver. }
  assert (∀ s, s ∈ sk → s ∈ books ≫= row_subjects) as Hsk_in.
  { intros s. rewrite (nb_sk _ _ _ _ _ _ Hnb), elem_of_keys.
    pose proof (ix_srel_dom _ _ _ Hix) as Hd. cbn in Hd. rewrite Hd. set_solver. }
  destruct (decide (1 ≤ i < 1 + Z.of_nat (List.length pk))) as [Hp|Hnp].
  { left. destruct (lookup_lt_is_Some_2 pk (Z.to_nat (i - 1))) as [p Hk]; [lia|].
    assert (i = 1 + Z.of_nat (Z.to_nat (i - 1))) as Hi by lia. rewrite Hi in Hl |- *.
    assert (p ∈ pk) as Hin%Hpk_in by (apply list_elem_of_lookup; eauto).
    exists p. rewrite (nb_tb_p _ _ _ _ _ _ Hnb _ _ Hk Hin) in Hl.
    rewrite (nb_tids_p _ _ _ _ _ _ Hnb _ _ Hk), (nb_ids_p _ _ _ _ _ _ Hnb _ _ Hk).
    by simplify_eq. }
  destruct (decide (1 + Z.of_nat (List.length pk) ≤ i
                    < 1 + Z.of_nat (List.length pk) + Z.of_nat (List.length sk))) as [Hs|Hns].
  { right.
    destruct (lookup_lt_is_Some_2 sk (Z.to_nat (i - 1 - Z.of_nat (List.length pk))))
      as [s Hk]; [lia|].
    assert (i = 1 + Z.of_nat (List.length pk)
                + Z.of_nat (Z.to_nat (i - 1 - Z.of_nat (List.length pk)))) as Hi by lia.
    rewrite Hi in Hl |- *.
    assert (s ∈ sk) as Hin%Hsk_in by (apply list_elem_of_lookup; eauto).
    exists s. rewrite (nb_tb_s _ _ _ _ _ _ Hnb _ _ Hk Hin) in Hl.
    rewrite (nb_tids_s _ _ _ _ _ _ Hnb _ _ Hk), (nb_ids_s _ _ _ _ _ _ Hnb _ _ Hk).
    by simplify_eq. }
  rewrite (nb_tb_old _ _ _ _ _ _ Hnb) in Hl; [done|..].
  - intros k p Hk _ ->. apply lookup_lt_Some in Hk. lia.
  - intros k s Hk _ ->. apply lookup_lt_Some in Hk. lia.
Qed.

(** X1.  In the built index the two relations between packages and
    subjects are each other's converse: a subject is among the subjects of a
    package exactly when the package is among the packages of the subject,
    which is exactly when some row has that package and names that subject. *)
Theorem relations_are_converse books g p s :
  setup_globals books fresh = (Ret tt, g) →
  (s ∈ default ∅ (PACKAGES_RELS g !! p) ↔ p ∈ default ∅ (SUBJECTS_RELS g !! s)) ∧
  (s ∈ default ∅ (PACKAGES_RELS g !! p)
   ↔ ∃ row, row ∈ books ∧ r_package row = p ∧ s ∈ row_subjects row).
Proof.
  intros (g1 & loc & pk & Hrows & Hix & Hsorted & Hnb)%setup_globals_built.
  rewrite (nb_prel _ _ _ _ _ _ Hnb), (nb_srel _ _ _ _ _ _ Hnb).
  pose proof (ix_prel _ _ _ Hix p) as Hp. pose proof (ix_srel _ _ _ Hix s) as Hs.
  cbn in Hp, Hs. rewrite Hp, Hs. clear Hp Hs Hix Hnb Hrows Hsorted.
  assert (s ∈ subjects_with p books
          ↔ ∃ row, row ∈ books ∧ r_package row = p ∧ s ∈ row_subjects row) as H1.
  { unfold subjects_with. rewrite elem_of_list_to_set, list_elem_of_bind. split.
    - intros (row & Hs & [Hp Hin]%list_elem_of_filter). eauto.
    - intros (row & Hin & Hp & Hs). exists row. split; [done|]. by apply list_elem_of_filter. }
  assert (p ∈ packages_with s books
          ↔ ∃ row, row ∈ books ∧ r_package row = p ∧ s ∈ row_subjects row) as H2.
  { unfold packages_with. rewrite elem_of_list_to_set, list_elem_of_fmap. split.
    - intros (row & -> & [Hs Hin]%list_elem_of_filter). eauto.
    - intros (row & Hin & Hp & Hs). exists row. split; [done|]. by apply list_elem_of_filter. }
  split; [|set_solver]. rewrite !elem_of_union, H1, H2. set_solver.
Qed.

Lemma relations_are_converse_witness :
  "Math" ∈ default ∅ (PACKAGES_RELS example_index !! Some "Pkg1")
  ↔ Some "Pkg1" ∈ default ∅ (SUBJECTS_RELS example_index !! "Math").
Proof.
  apply (relations_are_converse example_rows example_index (Some "Pkg1") "Math").
  vm_compute. reflexivity.
Defined.

(** X2.  In the built index every identifier listed under a topic ID is
    the identifier of a row, the ID has a topic name, and the identifier has
    an entry in [BOOKS_TITLES] and in [BOOKS_PACKAGES]: the lookups that
    [print_books_in_topic] and [download_books] do for a listed book never
    raise [KeyError]. *)
Theorem listed_books_are_known books g i l doi :
  setup_globals books fresh = (Ret tt, g) →
  TOPICS_BOOKS g !! i = Some l → doi ∈ l →
  is_Some (TOPICS_IDS g !! i) ∧
  (∃ row, row ∈ books ∧ r_doi row = doi) ∧
  is_Some (BOOKS_TITLES g !! doi) ∧ is_Some (BOOKS_PACKAGES g !! doi).
Proof.
  intros Hrun Hl Hin.
  assert (∃ row, row ∈ books ∧ r_doi row = doi) as (row & Hrow & Hdoi).
  { destruct (built_topics_books books g i l Hrun Hl) as [(p & _ & _ & ->)|(s & _ & _ & ->)].
    - unfold books_in_package in Hin.
      apply list_elem_of_fmap in Hin as (row & -> & [_ Hrow]%list_elem_of_filter). eauto.
    - unfold books_in_subject in Hin.
      apply list_elem_of_bind in Hin as (row & Hin & Hrow).
      apply list_elem_of_fmap in Hin as (s' & -> & _). eauto. }
  split_and!; [|eauto|..].
  - destruct (built_topics_books books g i l Hrun Hl) as [(p & -> & _)|(s & -> & _)]; eauto.
  - destruct (built_titles_packages books g Hrun doi) as [-> _]. unfold title_of.
    destruct (last_filter_is_Some (λ r, r_doi r = doi) books row Hrow Hdoi) as (y & -> & _).
    by eexists.
  - destruct (built_titles_packages books g Hrun doi) as [_ ->]. unfold package_of.
    destruct (last_filter_is_Some (λ r, r_doi r = doi) books row Hrow Hdoi) as (y & -> & _).
    by eexists.
Qed.

Lemma listed_books_are_known_witness :
  is_Some (BOOKS_TITLES example_index !! Some "10.1/bbb").
Proof.
  apply (listed_books_are_known example_rows example_index 3
           [Some "10.1/aaa"; Some "10.1/bbb"] (Some "10.1/bbb")).
  - vm_compute. reflexivity.
  - vm_compute. reflexivity.
  - apply list_elem_of_further, list_elem_of_here.
Defined.

(** X3.  When several rows carry the same identifier, the title and the
    package kept for it are those of the last such row, while every one of
    the rows adds the identifier to the book list of its package. *)
Theorem last_row_gives_title_and_package books g rows1 row rows2 :
  setup_globals books fresh = (Ret tt, g) →
  books = rows1 ++ row :: rows2 →
  (∀ r, r ∈ rows2 → r_doi r ≠ r_doi row) →
  BOOKS_TITLES g !! r_doi row = Some (r_title row) ∧
  BOOKS_PACKAGES g !! r_doi row = Some (r_package row) ∧
  ∀ r, r ∈ books → r_doi r = r_doi row →
       ∃ j l, od_get (r_package r) (IDS_OF_PACKAGES g) = Some j ∧
              TOPICS_BOOKS g !! j = Some l ∧ r_doi row ∈ l.
Proof.
  intros Hrun -> Hlast.
  assert (last (filter (λ r, r_doi r = r_doi row) (rows1 ++ row :: rows2)) = Some row) as Hl.
  { rewrite filter_app, filter_cons, decide_True by done.
    assert (filter (λ r, r_doi r = r_doi row) rows2 = []) as ->.
    { clear -Hlast. induction rows2 as [|r rows2 IH]; [done|].
      rewrite filter_cons, decide_False by (apply Hlast; apply list_elem_of_here).
      apply IH. intros r' Hr'. apply Hlast. by apply list_elem_of_further. }
    by rewrite last_snoc. }
  destruct (built_titles_packages _ g Hrun (r_doi row)) as [-> ->].
  unfold title_of, package_of. rewrite Hl. split_and!; [done|done|].
  intros r Hr Hd. destruct (row_under_its_package _ g r Hrun Hr) as (j & Hj & _ & Hb & Hin).
  exists j, (books_in_package (r_package r) (rows1 ++ row :: rows2)).
  split_and!; [done|done|]. by rewrite <-Hd.
Qed.

Lemma last_row_gives_title_and_package_witness :
  BOOKS_TITLES example_index !! Some "10.1/bbb" = Some (Some "Book B").
Proof.
  apply (last_row_gives_title_and_package example_rows example_index
           [mkRow (Some "Book A") (Some "Pkg1") (Some "Math; Physics") (Some "10.1/aaa")]
           (mkRow (Some "Book B") (Some "Pkg1") (Some "Math") (Some "10.1/bbb"))
           [mkRow (Some "Book C") (Some "Pkg2") (Some "Physics") (Some "10.1/ccc")]).
  - vm_compute. reflexivity.
  - reflexivity.
  - intros r Hr. apply list_elem_of_singleton in Hr as ->. discriminate.
Defined.

(** ** Truncation *)

Lemma take_append_exact s1 s2 : Str.take (String.length s1) (s1 +:+ s2) = s1.
Proof.
  induction s1 as [|c s1 IH]; [by destruct s2|].
  change (String c s1 +:+ s2) with (String c (s1 +:+ s2)). cbn. by rewrite IH.
Qed.

(** X4.  Truncation is idempotent, leaves names shorter than 50 characters
    as they are, and already cuts a name of exactly 50 characters, whose last
    three characters are replaced by dots. *)
Theorem shorten_idempotent :
  (∀ s, shorten (shorten s) = shorten s) ∧
  (∀ s, (String.length s < 50)%nat → shorten s = s) ∧
  (∀ s, String.length s = 50%nat →
        shorten s = Str.take 47 s +:+ "..." ∧ String.length (shorten s) = 50%nat).
Proof.
  assert (∀ s, (50 ≤ String.length s)%nat →
               shorten s = Str.take 47 s +:+ "..." ∧ String.length (shorten s) = 50%nat) as Hlong.
  { intros s Hlen. rewrite shorten_long by (unfold LONGEST; lia). split; [done|].
    rewrite append_length, take_length. change (String.length "...") with 3%nat.
    unfold LONGEST. lia. }
  split_and!.
  - intros s. destruct (decide (String.length s < 50)%nat) as [Hlt|Hge].
    + by rewrite !(shorten_short s) by (unfold LONGEST; lia).
    + destruct (Hlong s) as [Heq Hlen]; [lia|].
      destruct (Hlong (shorten s)) as [Heq' _]; [lia|].
      rewrite Heq'. rewrite Heq at 1.
      assert (String.length (Str.take 47 s) = 47%nat) as H47
        by (rewrite take_length; lia).
      rewrite <-H47 at 1. by rewrite take_append_exact.
  - intros s Hlt. apply shorten_short. unfold LONGEST. lia.
  - intros s Hlen. apply Hlong. lia.
Qed.

(** ** Quoting of identifiers *)

Lemma all_chars_append P s1 s2 :
  all_chars P (s1 +:+ s2) = all_chars P s1 && all_chars P s2.
Proof.
  induction s1 as [|c s1 IH]; [done|].
  change (String c s1 +:+ s2) with (String c (s1 +:+ s2)). cbn. by rewrite IH, andb_assoc.
Qed.

Lemma all_chars_contains P s c : all_chars P s = true → Str.contains c s = true → P c = true.
Proof.
  induction s as [|a s IH]; [done|]. cbn. intros [Ha Hs]%andb_true_iff.
  case_decide; [by subst|auto].
Qed.

Lemma quote_char_quoted a : all_chars quoted_char (Str.quote_char a) = true.
Proof. destruct a as [[] [] [] [] [] [] [] []]; vm_compute; reflexivity. Qed.

Lemma quote_char_unreserved a : Str.unreserved a = true → Str.quote_char a = String a "".
Proof. intros Ha. unfold Str.quote_char. by rewrite Ha. Qed.

(** X5.  The quoted identifier put into the link is made of letters,
    digits, [_], [.], [-], [~] and [%] only -- so it holds no slash, question
    mark, hash or space -- and an identifier made of letters, digits, [_],
    [.], [-] and [~] is left as it is. *)
Theorem quote_leaves_only_safe_characters :
  (∀ s, all_chars quoted_char (Str.quote s) = true) ∧
  (∀ s c, Str.unreserved c = false → c ≠ "%"%char → Str.contains c (Str.quote s) = false) ∧
  (∀ s, all_chars Str.unreserved s = true → Str.quote s = s).
Proof.
  assert (∀ s, all_chars quoted_char (Str.quote s) = true) as Hall.
  { induction s as [|a s IH]; [done|]. cbn [Str.quote].
    by rewrite all_chars_append, quote_char_quoted, IH. }
  split_and!; [done| |].
  - intros s c Hc Hpct. destruct (Str.contains c (Str.quote s)) eqn:Hin; [|done].
    pose proof (all_chars_contains _ _ _ (Hall s) Hin) as Hq. unfold quoted_char in Hq.
    rewrite Hc, bool_decide_false in Hq by done. done.
  - induction s as [|a s IH]; [done|]. cbn. intros [Ha Hs]%andb_true_iff.
    by rewrite (quote_char_unreserved a Ha), (IH Hs).
Qed.

(** An identifier with a slash, as they all are. *)
Example ex_quote : Str.quote "10.1007/978-3-030-25943-3" = "10.1007%2F978-3-030-25943-3".
Proof. vm_compute. reflexivity. Qed.

(** ** Stripping the address of the identifier *)

Lemma string_app_assoc (s1 s2 s3 : string) : (s1 +:+ s2) +:+ s3 = s1 +:+ (s2 +:+ s3).
Proof.
  induction s1 as [|c s1 IH]; [done|].
  change ((String c s1 +:+ s2) +:+ s3) with (String c ((s1 +:+ s2) +:+ s3)).
  change (String c s1 +:+ (s2 +:+ s3)) with (String c (s1 +:+ (s2 +:+ s3))). by rewrite IH.
Qed.

Lemma rev_app_append s1 s2 : String.rev_app s1 s2 = String.rev s1 +:+ s2.
Proof.
  unfold String.rev. revert s2. induction s1 as [|c s1 IH]; intros s2; [reflexivity|].
  cbn [String.rev_app]. rewrite (IH (String c s2)), (IH (String c "")).
  by rewrite string_app_assoc.
Qed.

Lemma rev_cons c s : String.rev (String c s) = String.rev s +:+ String c "".
Proof. unfold String.rev at 1. cbn [String.rev_app]. apply rev_app_append. Qed.

Lemma string_app_empty_r (s : string) : s +:+ "" = s.
Proof.
  induction s as [|c s IH]; [reflexivity|].
  change (String c s +:+ "") with (String c (s +:+ "")). by rewrite IH.
Qed.

Lemma rev_append s1 s2 : String.rev (s1 +:+ s2) = String.rev s2 +:+ String.rev s1.
Proof.
  induction s1 as [|c s1 IH].
  - change ("" +:+ s2) with s2. change (String.rev "") with "". by rewrite string_app_empty_r.
  - change (String c s1 +:+ s2) with (String c (s1 +:+ s2)).
    by rewrite !rev_cons, IH, string_app_assoc.
Qed.

Lemma rev_involutive s : String.rev (String.rev s) = s.
Proof.
  induction s as [|c s IH]; [done|]. by rewrite rev_cons, rev_append, IH.
Qed.

Lemma all_chars_rev P s : all_chars P (String.rev s) = all_chars P s.
Proof.
  induction s as [|c s IH]; [done|]. rewrite rev_cons, all_chars_append, IH. cbn.
  by rewrite andb_true_r, andb_comm.
Qed.

Lemma lstrip_chars_prefix chars pre s :
  all_chars (λ c, Str.contains c chars) pre = true →
  lstrip_chars chars (pre +:+ s) = lstrip_chars chars s.
Proof.
  induction pre as [|c pre IH]; [done|]. cbn. intros [Hc Hpre]%andb_true_iff.
  change (String c pre +:+ s) with (String c (pre +:+ s)). cbn. rewrite Hc. auto.
Qed.

Lemma lstrip_chars_stops chars c s :
  Str.contains c chars = false → lstrip_chars chars (String c s) = String c s.
Proof. intros Hc. cbn. by rewrite Hc. Qed.

(** X6.  [strip("http://doi.org/")] removes characters, not a prefix: of a
    text made of characters of the set around a text that starts and ends
    with a character outside the set, it keeps exactly the inner text; of a
    text made of characters of the set alone, nothing. *)
Theorem strip_chars_keeps_the_inside :
  (∀ chars pre a mid b post,
     all_chars (λ c, Str.contains c chars) pre = true →
     all_chars (λ c, Str.contains c chars) post = true →
     Str.contains a chars = false → Str.contains b chars = false →
     strip_chars chars (pre +:+ String a (mid +:+ String b post)) = String a (mid +:+ String b "")) ∧
  (∀ chars pre a post,
     all_chars (λ c, Str.contains c chars) pre = true →
     all_chars (λ c, Str.contains c chars) post = true →
     Str.contains a chars = false →
     strip_chars chars (pre +:+ String a post) = String a "") ∧
  (∀ chars s, all_chars (λ c, Str.contains c chars) s = true → strip_chars chars s = "").
Proof.
  split_and!.
  - intros chars pre a mid b post Hpre Hpost Ha Hb. unfold strip_chars.
    rewrite lstrip_chars_prefix, lstrip_chars_stops by done.
    rewrite rev_cons, rev_append, rev_cons, !string_app_assoc.
    rewrite lstrip_chars_prefix by (by rewrite all_chars_rev).
    change (String b "" +:+ String.rev mid +:+ String a "")
      with (String b (String.rev mid +:+ String a "")).
    rewrite lstrip_chars_stops by done.
    rewrite rev_cons, rev_append, rev_involutive. cbn. by rewrite string_app_assoc.
  - intros chars pre a post Hpre Hpost Ha. unfold strip_chars.
    rewrite lstrip_chars_prefix, lstrip_chars_stops by done.
    rewrite rev_cons, lstrip_chars_prefix by (by rewrite all_chars_rev).
    by rewrite lstrip_chars_stops.
  - intros chars s Hs. unfold strip_chars.
    assert (lstrip_chars chars s = "") as ->; [|done].
    induction s as [|c s IH]; [done|]. cbn in *. apply andb_true_iff in Hs as [-> Hs]. auto.
Qed.

(** An address of the listing; and an identifier that ends in characters of
    the set, which are removed with the address. *)
Example ex_strip_address :
  strip_chars "http://doi.org/" "http://doi.org/10.1007/978-3-030-25943-3"
  = "10.1007/978-3-030-25943-3" ∧
  strip_chars "http://doi.org/" "http://doi.org/10.1007/b100747.top" = "10.1007/b100747".
Proof. split; vm_compute; reflexivity. Qed.

(** ** The rows taken from the sheet *)

(** X7.  [get_raw_list_of_books] returns exactly when the sheet has a first
    row and no identifier cell is empty, the header's included; it then
    returns one row for each row of the sheet below the header, in order,
    with the title, package and subjects cells as they are and the address
    of the identifier stripped. *)
Theorem raw_list_is_the_sheet_below_its_header sheet :
  ((∃ books, get_raw_list_of_books sheet = Ret books)
   ↔ sheet ≠ [] ∧ Forall (λ c, is_Some (cell_R c)) sheet) ∧
  (∀ books, get_raw_list_of_books sheet = Ret books →
     S (List.length books) = List.length sheet ∧
     ∀ (k : nat) c, sheet !! S k = Some c →
       ∃ address, cell_R c = Some address ∧
         books !! k = Some (mkRow (cell_A c) (cell_L c) (cell_T c)
                              (Some (strip_chars "http://doi.org/" address)))).
Proof.
  destruct (get_raw_list_of_books_spec sheet)
    as [[-> ->]|[(Hne & Hids & ->)|(Hne & (c & Hin & Hnone) & ->)]].
  - split; [|done]. split; [by intros [? ?]|by intros [? _]].
  - split; [split; eauto|]. intros books [= <-].
    destruct sheet as [|h cells]; [done|]. cbn [tail]. split; [by rewrite length_fmap|].
    intros k c Hk. cbn in Hk. apply Forall_cons in Hids as [_ Hids].
    rewrite Forall_lookup in Hids. destruct (Hids k c Hk) as [address Ha].
    exists address. split; [done|]. rewrite list_lookup_fmap.
    change (cells !! k = Some c) in Hk. rewrite Hk. cbn. unfold book_of. by rewrite Ha.
  - split; [|done]. split; [by intros [? ?]|]. intros [_ Hids].
    rewrite Forall_forall in Hids. destruct (Hids c Hin) as [? ?]. congruence.
Qed.

(** ** The directory and the suffix of a saved book *)

Lemma with_suffix_name r ps nm ext :
  is_Some (LINKS ext) → nm ≠ "" →
  ∃ stem rest, nm = stem +:+ rest ∧
    Pathlib.with_suffix (mkPath r (ps ++ [nm])) ("." +:+ ext)
    = Ret (mkPath r (ps ++ [stem +:+ "." +:+ ext])).
Proof.
  intros Hext Hne. unfold Pathlib.with_suffix, Pathlib.name. cbn [parts root].
  rewrite last_snoc_str, removelast_snoc.
  set (old := Pathlib.suffix_of nm).
  exists (if decide (old = "") then nm else Str.take (String.length nm - String.length old) nm),
         (if decide (old = "") then "" else Str.drop (String.length nm - String.length old) nm).
  split.
  - case_decide; [by rewrite string_app_empty_r|].
    generalize (String.length nm - String.length old)%nat. intros n. clear.
    revert nm. induction n as [|n IH]; intros [|c nm]; cbn; try done.
    change (String c (Str.take n nm) +:+ Str.drop n nm)
      with (String c (Str.take n nm +:+ Str.drop n nm)). by rewrite <-IH.
  - destruct (supported_format ext Hext) as [-> | ->];
      [change ("." +:+ "pdf") with ".pdf"|change ("." +:+ "epub") with ".epub"];
      cbn [bool_decide]; (rewrite bool_decide_false by done);
      [change (Str.contains Pathlib.sep ".pdf") with false
      |change (Str.contains Pathlib.sep ".epub") with false];
      cbn match; rewrite (decide_True (P := "."%char = "."%char)) by done;
      rewrite (decide_False (P := nm = "")) by done; by case_decide.
Qed.

(** X8.  A book whose title holds no slash, has a character that is not
    whitespace and is not a single dot is saved directly in the directory
    destination/group, under a name that ends in a dot and the format; the
    directory that [_download_book] creates first is that directory. *)
Theorem book_is_saved_in_its_directory dest gname ext title :
  is_Some (LINKS ext) →
  Str.contains "/" title = false → Str.split title ≠ [] →
  Str.join "-" (Str.split title) ≠ "." →
  ∃ stem rest,
    Str.join "-" (Str.split title) = stem +:+ rest ∧
    book_path dest (Some gname) ext title
    = Ret (mkPath (root (Pathlib.join1 dest gname))
             (parts (Pathlib.join1 dest gname) ++ [stem +:+ "." +:+ ext])) ∧
    Pathlib.parent (mkPath (root (Pathlib.join1 dest gname))
                      (parts (Pathlib.join1 dest gname) ++ [stem +:+ "." +:+ ext]))
    = Pathlib.join1 dest gname.
Proof.
  intros Hext Hsep Hne Hdot. unfold book_path.
  set (fn := Str.join "-" (Str.split title)) in *.
  assert (Str.contains "/" fn = false) as Hfsep by (apply contains_join; [done|by apply split_words]).
  assert (fn ≠ "") as Hfne by (apply join_nonempty; [done|apply split_words_nonempty]).
  unfold Pathlib.joinpath. cbn [mapM id mbind option_bind mret option_ret foldl].
  change (foldl Pathlib.join1 dest [gname; fn])
    with (Pathlib.join1 (Pathlib.join1 dest gname) fn).
  rewrite (join1_component _ fn) by done.
  set (dg := Pathlib.join1 dest gname).
  destruct (with_suffix_name (root dg) (parts dg) fn ext Hext Hfne) as (stem & rest & Hfn & ->).
  exists stem, rest. split_and!; [done|done|].
  unfold Pathlib.parent. cbn [parts root]. rewrite removelast_snoc.
  destruct (parts dg ++ [_]) eqn:Hp; [by destruct (parts dg)|]. by destruct dg.
Qed.

Lemma book_is_saved_in_its_directory_witness :
  ∃ stem rest,
    Str.join "-" (Str.split "Python 3.8 Guide") = stem +:+ rest ∧
    book_path out_dir (Some "Pkg1") "epub" "Python 3.8 Guide"
    = Ret (mkPath (root (Pathlib.join1 out_dir "Pkg1"))
             (parts (Pathlib.join1 out_dir "Pkg1") ++ [stem +:+ "." +:+ "epub"])) ∧
    Pathlib.parent (mkPath (root (Pathlib.join1 out_dir "Pkg1"))
                      (parts (Pathlib.join1 out_dir "Pkg1") ++ [stem +:+ "." +:+ "epub"]))
    = Pathlib.join1 out_dir "Pkg1".
Proof.
  apply (book_is_saved_in_its_directory out_dir "Pkg1" "epub" "Python 3.8 Guide").
  - by eexists.
  - reflexivity.
  - discriminate.
  - discriminate.
Defined.

(** ** [download_books] at its edges *)

(** X9.  Asked for a format other than pdf and epub, [download_books] logs
    one error and returns: it creates, fetches and writes nothing and leaves
    the index as it is, whatever the topics and the index are. *)
Theorem unknown_format_is_only_logged env topics dest ext group w :
  ext ≠ "pdf" → ext ≠ "epub" →
  download_books env topics dest ext group w
  = (Ret tt, mkWorld (idx w) (trace w ++ [Log ERROR ("Unsupported format: '" +:+ ext +:+ "'.")])).
Proof.
  intros Hpdf Hepub. apply download_books_unsupported.
  unfold LINKS. by rewrite !decide_False.
Qed.

Lemma unknown_format_is_only_logged_witness :
  download_books env_serving [1; 3] out_dir "mobi" true (mkWorld fresh [Log INFO "start"])
  = (Ret tt,
     mkWorld (idx (mkWorld fresh [Log INFO "start"]))
       (trace (mkWorld fresh [Log INFO "start"])
          ++ [Log ERROR ("Unsupported format: '" +:+ "mobi" +:+ "'.")])).
Proof.
  apply (unknown_format_is_only_logged env_serving [1; 3] out_dir "mobi" true
           (mkWorld fresh [Log INFO "start"])); discriminate.
Defined.

(** X10.  Called for pdf or epub while [BOOKS_TITLES] is empty,
    [download_books] raises [TypeError] before it logs or fetches anything:
    its call of [setup_globals] lacks the argument. *)
Theorem empty_index_is_a_type_error env topics dest ext group w :
  ext = "pdf" ∨ ext = "epub" → BOOKS_TITLES (idx w) = ∅ →
  download_books env topics dest ext group w = (Exc TypeError, w).
Proof.
  intros Hext Hbt. apply download_books_empty_index; [|done].
  destruct Hext as [-> | ->]; by eexists.
Qed.

Lemma empty_index_is_a_type_error_witness :
  download_books env_serving [1] out_dir "pdf" false (mkWorld fresh [])
  = (Exc TypeError, mkWorld fresh []).
Proof.
  apply (empty_index_is_a_type_error env_serving [1] out_dir "pdf" false (mkWorld fresh []));
    [by left|reflexivity].
Defined.

(** ** Every fetch follows the creation of a directory *)

Lemma fetch_follows_mkdir_sequential env ext : sequential (fetch_follows_mkdir env ext).
Proof.
  split.
  - intros n r k ? ? Hk. by rewrite lookup_nil in Hk.
  - intros n t1 t2 r H1 H2 k d link Hk.
    destruct (decide (k < List.length t1)%nat) as [Hlt|Hge].
    + rewrite lookup_app_l in Hk by done.
      destruct (H1 k d link Hk) as (Hlink & p & Hk1 & Hmk & Hok).
      split; [done|]. exists p. rewrite lookup_app_l by lia. done.
    + rewrite lookup_app_r in Hk by lia.
      destruct (H2 _ d link Hk) as (Hlink & p & Hk1 & Hmk & Hok).
      split; [done|]. exists p. split; [lia|]. rewrite lookup_app_r by lia.
      replace (k - 1 - List.length t1)%nat with (k - List.length t1 - 1)%nat by lia.
      split; [done|].
      by replace (n + (k - 1))%nat with (n + List.length t1 + (k - List.length t1 - 1))%nat by lia.
Qed.

Lemma fetch_follows_mkdir_log env ext lvl msg : adds (fetch_follows_mkdir env ext) (log lvl msg).
Proof.
  intros w r w' [= <- <-]. exists [Log lvl msg]. split; [done|].
  intros [|k] d link Hk; simplify_eq/=; try (by rewrite lookup_nil in Hk).
Qed.

Lemma fetch_follows_mkdir_book env dest ext group ad doi :
  adds (fetch_follows_mkdir env ext) (book_body env dest ext group ad doi).
Proof.
  intros w r w' (_ & t & Ht & Hrun)%book_body_run. exists t. split; [done|].
  destruct Hrun as [(-> & _)|(grp & _ & Hrun)]; [apply fetch_follows_mkdir_sequential|].
  set (n := List.length (trace w)) in *.
  destruct Hrun as [msg Hin'|e msg Hnot'|d' path msg Hnot' [Hdoi Hloc] Hmk
                   |d' path msg Hnot' [Hdoi Hloc] Hmk Hlink'
                   |d' path link' msg Hnot' [Hdoi Hloc] Hmk Hlink' Hresp'
                   |d' path link' status' msg msg' Hnot' [Hdoi Hloc] Hmk Hlink' Hresp' Hst'
                   |d' path link' msg Hnot' [Hdoi Hloc] Hmk Hlink' Hresp' Hwr
                   |d' path link' msg msg' Hnot' [Hdoi Hloc] Hmk Hlink' Hresp' Hwr];
    intros k d0 link0 Hk; split_lookup k Hk; simplify_eq;
    (split; [done|]); exists (Pathlib.parent path); split_and!; first [lia|done].
Qed.

(** X11.  In every call of [download_books], however it ends, each fetch
    comes right after the successful creation of a directory, and the link
    fetched is the link of the format with the quoted identifier of the
    book. *)
Theorem every_fetch_follows_a_mkdir env topics dest ext group w :
  ∃ t, trace (download_books env topics dest ext group w).2 = trace w ++ t ∧
    ∀ k d link, t !! k = Some (Get d link) →
      (∃ template, LINKS ext = Some template ∧
                   link = template.1 +:+ Str.quote d +:+ template.2) ∧
      ∃ p, (1 ≤ k)%nat ∧ t !! (k - 1)%nat = Some (Mkdir p) ∧
           mkdir_ok env (List.length (trace w) + (k - 1)) p = true.
Proof.
  pose proof (fetch_follows_mkdir_sequential env ext) as HQ.
  assert (adds (fetch_follows_mkdir env ext) (download_books env topics dest ext group)) as Hadds.
  { unfold download_books. destruct (LINKS ext); [|apply fetch_follows_mkdir_log].
    apply adds_bind; [done|by apply adds_get|]. intros w0.
    apply adds_bind; [done| |].
    { case_decide; [by apply adds_raise|by apply adds_ret]. }
    intros _. apply adds_bind; [done|apply fetch_follows_mkdir_log|]. intros _.
    apply adds_bind; [done| |intros _; apply fetch_follows_mkdir_log].
    rewrite download_loop_unfold. apply adds_foldM; [done|]. intros acc tid. unfold topic_body.
    apply adds_bind; [done|by apply adds_topics_books|].
    intros books. apply adds_foldM; [done|]. intros acc' doi.
    apply fetch_follows_mkdir_book. }
  destruct (download_books env topics dest ext group w) as [r w'] eqn:Hrun.
  destruct (Hadds w r w' Hrun) as (t & Ht & Hq). exists t. split; [done|].
  intros k d link Hk. destruct (Hq k d link Hk) as (Hlink & p & Hk1 & Hmk & Hok).
  split; [|by exists p]. unfold link_of in Hlink.
  destruct (LINKS ext) as [template|]; [|done]. cbn in Hlink. simplify_eq. by exists template.
Qed.

(** ** What [download_books] leaves of the index *)

(** A relation between states that every turn of a loop extends is extended
    by the loop. *)
Lemma foldM_related {S A B} (body : A → B → M S A) (R : S → S → Prop) l :
  (∀ s, R s s) → (∀ s1 s2 s3, R s1 s2 → R s2 s3 → R s1 s3) →
  (∀ acc x s r s', x ∈ l → body acc x s = (r, s') → R s s') →
  ∀ acc s r s', foldM body acc l s = (r, s') → R s s'.
Proof.
  intros Hrefl Htrans. induction l as [|x l IH]; intros Hbody acc s r s' Hrun.
  - change ((Ret acc, s) = (r, s')) in Hrun. by simplify_eq.
  - cbn [foldM] in Hrun. rewrite bind_run in Hrun.
    destruct (body acc x s) as [[acc1|e] s1] eqn:Hstep.
    + eapply Htrans; [eapply Hbody; [apply list_elem_of_here|done]|].
      eapply IH; [|done]. intros a y t r0 t' Hy. apply Hbody. by apply list_elem_of_further.
    + simplify_eq. eapply Hbody; [apply list_elem_of_here|done].
Qed.

Lemma same_books_refl T g : same_books T g g.
Proof. split; [by repeat split|]. by left. Qed.

Lemma same_books_trans T g1 g2 g3 : same_books T g1 g2 → same_books T g2 g3 → same_books T g1 g3.
Proof.
  intros [(A1 & A2 & A3 & A4 & A5 & A6 & A7) Ha] [(B1 & B2 & B3 & B4 & B5 & B6 & B7) Hb].
  split; [repeat split; congruence|].
  intros tid. destruct (Ha tid) as [Ha1|(Hin & Ha1 & Ha2)], (Hb tid) as [Hb1|(Hin' & Hb1 & Hb2)].
  - left. congruence.
  - right. split_and!; congruence.
  - right. split_and!; congruence.
  - congruence.
Qed.

Lemma topics_books_same_books T tid w r w' :
  tid ∈ T → topics_books tid w = (r, w') → same_books T (idx w) (idx w').
Proof.
  intros Hin. unfold topics_books. destruct (TOPICS_BOOKS (idx w) !! tid) as [books|] eqn:Hlk.
  - intros [= <- <-]. apply same_books_refl.
  - intros [= <- <-]. cbn. split; [by repeat split|]. intros k. cbn.
    destruct (decide (tid = k)) as [<-|Hne].
    + right. by rewrite lookup_insert_eq.
    + left. by rewrite lookup_insert_ne.
Qed.

Lemma download_loop_same_books env topics dest ext group ad w r w' :
  download_loop env topics dest ext group ad w = (r, w') → same_books topics (idx w) (idx w').
Proof.
  rewrite download_loop_unfold.
  apply (foldM_related (topic_body env dest ext group)
           (λ s s', same_books topics (idx s) (idx s'))).
  - intros s. apply same_books_refl.
  - intros s1 s2 s3. apply same_books_trans.
  - intros acc tid s r0 s' Hin. unfold topic_body. rewrite bind_run.
    destruct (topics_books tid s) as [[books|e] s1] eqn:Htb.
    + intros Hloop%book_loop_idx. rewrite Hloop. by eapply topics_books_same_books.
    + intros [= <- <-]. by eapply topics_books_same_books.
Qed.

(** X12.  A call of [download_books], however it ends, leaves the titles,
    the packages, the IDs and the relations of the index as they are; of the
    book lists it changes nothing but to store an empty list under a
    requested ID that had none. *)
Theorem download_books_keeps_the_index env topics dest ext group w :
  BOOKS_TITLES (idx (download_books env topics dest ext group w).2) = BOOKS_TITLES (idx w) ∧
  BOOKS_PACKAGES (idx (download_books env topics dest ext group w).2) = BOOKS_PACKAGES (idx w) ∧
  IDS_OF_PACKAGES (idx (download_books env topics dest ext group w).2) = IDS_OF_PACKAGES (idx w) ∧
  IDS_OF_SUBJECTS (idx (download_books env topics dest ext group w).2) = IDS_OF_SUBJECTS (idx w) ∧
  TOPICS_IDS (idx (download_books env topics dest ext group w).2) = TOPICS_IDS (idx w) ∧
  PACKAGES_RELS (idx (download_books env topics dest ext group w).2) = PACKAGES_RELS (idx w) ∧
  SUBJECTS_RELS (idx (download_books env topics dest ext group w).2) = SUBJECTS_RELS (idx w) ∧
  ∀ tid,
    TOPICS_BOOKS (idx (download_books env topics dest ext group w).2) !! tid
    = TOPICS_BOOKS (idx w) !! tid
    ∨ (tid ∈ topics ∧ TOPICS_BOOKS (idx w) !! tid = None ∧
       TOPICS_BOOKS (idx (download_books env topics dest ext group w).2) !! tid = Some []).
Proof.
  assert (same_books topics (idx w) (idx (download_books env topics dest ext group w).2)) as Hsame.
  { destruct (LINKS ext) as [tmpl|] eqn:Hl.
    - destruct (decide (BOOKS_TITLES (idx w) = ∅)) as [Hbt|Hbt].
      + rewrite download_books_empty_index by eauto. apply same_books_refl.
      + rewrite download_books_loop by eauto.
        destruct (download_loop env topics dest ext group ∅ _) as [[ad|e] w1] eqn:Hloop;
          apply download_loop_same_books in Hloop; exact Hloop.
    - rewrite download_books_unsupported by done. apply same_books_refl. }
  destruct Hsame as [(H1 & H2 & H3 & H4 & H5 & H6 & H7) Hb]. by split_and!.
Qed.

(** ** Listing the books of topics *)


Lemma subject_rejected i rest w :
  ¬ (Z.of_nat (size (PACKAGES_RELS (idx w))) < i ≤ Z.of_nat (size (SUBJECTS_RELS (idx w)))) →
  print_books_in_topic (Some (i :: rest)) None w
  = print_books_in_topic (Some rest) None (mkWorld (idx w) (trace w ++ [no_subject i])).
Proof.
  intros Hout.
  assert ((Z.of_nat (size (PACKAGES_RELS (idx w))) <? i)
          && (i <=? Z.of_nat (size (SUBJECTS_RELS (idx w)))) = false) as Hc.
  { apply andb_false_iff.
    destruct (Z.ltb_spec (Z.of_nat (size (PACKAGES_RELS (idx w)))) i); [|by left].
    right. apply Z.leb_gt. lia. }
  unfold print_books_in_topic.
  change (default [] (Some (i :: rest))) with (i :: rest).
  change (default [] (Some rest)) with rest.
  change (default [] None) with (@nil Z).
  rewrite !bind_run. cbn [foldM]. unfold mret at 1 2, M_ret at 1 2. cbn beta iota.
  rewrite !bind_run. unfold get at 1. cbn beta iota. rewrite Hc. reflexivity.
Qed.


(** The sizes of the two relations of the built index are the numbers of
    packages and of subjects, and both are positive once there is a row. *)
Lemma built_sizes books g g1 pk :
  indexed books (fresh, mkLocals [] []) g1 →
  numbered books fresh g1.1 g pk (sorted_str (keys (SUBJECTS_RELS g1.1))) →
  size (PACKAGES_RELS g) = List.length pk ∧
  size (SUBJECTS_RELS g) = List.length (sorted_str (keys (SUBJECTS_RELS g1.1))) ∧
  (Forall (λ row, is_Some (r_subjects row)) books → books ≠ [] →
   (0 < List.length pk)%nat ∧ (0 < List.length (sorted_str (keys (SUBJECTS_RELS g1.1))))%nat).
Proof.
  intros Hix Hnb.
  pose proof (nb_pk _ _ _ _ _ _ Hnb) as Hpk. pose proof (nb_sk _ _ _ _ _ _ Hnb) as Hsk.
  set (sk := sorted_str (keys (SUBJECTS_RELS g1.1))) in *.
  split_and!.
  - rewrite (nb_prel _ _ _ _ _ _ Hnb), <-length_keys. by rewrite Hpk.
  - rewrite (nb_srel _ _ _ _ _ _ Hnb), <-length_keys. by rewrite Hsk.
  - intros Hsub Hne. destruct books as [|row books]; [done|].
    apply Forall_cons in Hsub as [[field Hf] _]. split.
    + assert (r_package row ∈ pk) as Hin.
      { rewrite Hpk, elem_of_keys, (ix_prel_dom _ _ _ Hix). set_solver. }
      destruct pk; [by apply elem_of_nil in Hin|simpl; lia].
    + destruct (subjects_of field) as [|s ss] eqn:Hs; [by destruct (subjects_of_nonempty field)|].
      assert (s ∈ sk) as Hin.
      { rewrite Hsk, elem_of_keys, (ix_srel_dom _ _ _ Hix).
        apply elem_of_union_r, elem_of_list_to_set. cbn. unfold row_subjects at 1.
        rewrite Hf. cbn. rewrite Hs. set_solver. }
      destruct sk; [by apply elem_of_nil in Hin|simpl; lia].
Qed.

(** X14.  In every index built from at least one row, the subject with the
    highest ID, P+S, exists and is never listed: asked for its books,
    [print_books_in_topic] answers that there is no subject with that ID. *)
Theorem last_subject_is_reported_missing books g t0 :
  setup_globals books fresh = (Ret tt, g) → books ≠ [] →
  ∃ s, IDS_OF_SUBJECTS g !! s
       = Some (Z.of_nat (size (PACKAGES_RELS g)) + Z.of_nat (size (SUBJECTS_RELS g))) ∧
       TOPICS_IDS g !! (Z.of_nat (size (PACKAGES_RELS g)) + Z.of_nat (size (SUBJECTS_RELS g)))
       = Some (Some s) ∧
       print_books_in_topic
         (Some [Z.of_nat (size (PACKAGES_RELS g)) + Z.of_nat (size (SUBJECTS_RELS g))]) None
         (mkWorld g t0)
       = (Ret tt,
          mkWorld g (t0 ++ [no_subject (Z.of_nat (size (PACKAGES_RELS g))
                                        + Z.of_nat (size (SUBJECTS_RELS g)))])).
Proof.
  intros Hrun Hne.
  assert (rows_ok books) as [Hsub _] by (apply setup_globals_succeeds_iff; by rewrite Hrun).
  destruct (setup_globals_built books g Hrun) as (g1 & loc & pk & Hrows & Hix & Hsorted & Hnb).
  destruct (built_sizes books g (g1, loc) pk Hix Hnb) as (HP & HS & Hpos).
  destruct (Hpos Hsub Hne) as [Hp Hs]. cbn [fst] in *.
  set (sk := sorted_str (keys (SUBJECTS_RELS g1))) in *.
  destruct (lookup_lt_is_Some_2 sk (List.length sk - 1)) as [s Hk]; [lia|].
  assert (Z.of_nat (size (PACKAGES_RELS g)) + Z.of_nat (size (SUBJECTS_RELS g))
          = 1 + Z.of_nat (List.length pk) + Z.of_nat (List.length sk - 1)) as Hid by lia.
  exists s. split_and!.
  - rewrite Hid. apply (nb_ids_s _ _ _ _ _ _ Hnb _ _ Hk).
  - rewrite Hid. apply (nb_tids_s _ _ _ _ _ _ Hnb _ _ Hk).
  - rewrite subject_rejected by (cbn [idx]; lia). reflexivity.
Qed.

Lemma last_subject_is_reported_missing_witness :
  ∃ s, IDS_OF_SUBJECTS example_index !! s
       = Some (Z.of_nat (size (PACKAGES_RELS example_index))
               + Z.of_nat (size (SUBJECTS_RELS example_index))) ∧
       TOPICS_IDS example_index
         !! (Z.of_nat (size (PACKAGES_RELS example_index))
             + Z.of_nat (size (SUBJECTS_RELS example_index)))
       = Some (Some s) ∧
       print_books_in_topic
         (Some [Z.of_nat (size (PACKAGES_RELS example_index))
                + Z.of_nat (size (SUBJECTS_RELS example_index))]) None
         (mkWorld example_index [])
       = (Ret tt,
          mkWorld example_index
            ([] ++ [no_subject (Z.of_nat (size (PACKAGES_RELS example_index))
                                + Z.of_nat (size (SUBJECTS_RELS example_index)))])).
Proof.
  apply (last_subject_is_reported_missing example_rows example_index []).
  - vm_compute. reflexivity.
  - discriminate.
Defined.

(** The line printed for the title of a book. *)
Lemma Forall_exists_Forall2 {A B} (P : A → B → Prop) (l : list A) :
  Forall (λ x, ∃ y, P x y) l → ∃ k, Forall2 P l k.
Proof.
  induction 1 as [|x l [y Hy] _ [k Hk]]; [by exists []|]. exists (y :: k). by constructor.
Qed.

(** [print_topic] for an ID that has a name and a list of books with
    titles: the opening line, then one line for each book of the list. *)
Lemma print_topic_run kind i w topic l titles :
  TOPICS_IDS (idx w) !! i = Some topic →
  TOPICS_BOOKS (idx w) !! i = Some l →
  Forall2 (λ doi t, BOOKS_TITLES (idx w) !! doi = Some (Some t)) l titles →
  print_topic kind i w
  = (Ret tt, mkWorld (idx w)
               (trace w ++ books_in kind topic :: ((λ t, Print ("   " +:+ t)) <$> titles))).
Proof.
  intros Hname Hbooks Htitles. unfold print_topic.
  rewrite bind_run. unfold get at 1. cbn beta iota.
  rewrite bind_run. unfold getitem at 1. rewrite Hname. unfold mret at 1, M_ret at 1.
  cbn beta iota. rewrite bind_run. unfold print at 1, emit at 1, modify at 1. cbn beta iota.
  rewrite bind_run. unfold topics_books at 1. cbn [idx trace]. rewrite Hbooks. cbn beta iota.
  match goal with |- foldM ?b _ _ _ = _ => set (body := b) end.
  assert (∀ t0, foldM body () l (mkWorld (idx w) t0)
                = (Ret tt, mkWorld (idx w) (t0 ++ ((λ t, Print ("   " +:+ t)) <$> titles))))
    as Hloop.
  { clear Hbooks. induction Htitles as [|doi t l titles Hdoi _ IH]; intros t0.
    - cbn. by rewrite app_nil_r.
    - cbn [foldM]. rewrite bind_run. unfold body at 1.
      rewrite bind_run. unfold get at 1. cbn beta iota.
      rewrite bind_run. unfold getitem at 1. cbn [idx]. rewrite Hdoi.
      unfold mret at 1, M_ret at 1. cbn beta iota.
      unfold print at 1, emit at 1, modify at 1. cbn [idx trace].
      rewrite IH. cbn. by rewrite <-app_assoc. }
  rewrite Hloop. unfold books_in. by rewrite <-app_assoc.
Qed.

(** X15.  In an index built from rows that all have a title, asking for the
    books of a package by its ID prints the line that names the package and
    then, for each row of the package in the order of the listing, the title
    kept for the identifier of the row. *)
Theorem package_listing_prints_its_titles books g p i t0 :
  setup_globals books fresh = (Ret tt, g) →
  Forall (λ row, is_Some (r_title row)) books →
  od_get p (IDS_OF_PACKAGES g) = Some i →
  ∃ titles,
    Forall2 (λ doi t, BOOKS_TITLES g !! doi = Some (Some t)) (books_in_package p books) titles ∧
    print_books_in_topic None (Some [i]) (mkWorld g t0)
    = (Ret tt,
       mkWorld g (t0 ++ books_in "package" p :: ((λ t, Print ("   " +:+ t)) <$> titles))).
Proof.
  intros Hrun Htitled Hid.
  destruct (setup_globals_built books g Hrun) as (g1 & loc & pk & Hrows & Hix & Hsorted & Hnb).
  destruct (built_sizes books g (g1, loc) pk Hix Hnb) as (HP & _ & _).
  assert (∃ k : nat, pk !! k = Some p ∧ i = 1 + Z.of_nat k) as (k & Hk & ->).
  { destruct (decide (p ∈ pk)) as [[k Hk]%list_elem_of_lookup|Hp].
    - rewrite (nb_ids_p _ _ _ _ _ _ Hnb _ _ Hk) in Hid. exists k. split; [done|congruence].
    - by rewrite (nb_ids_p_old _ _ _ _ _ _ Hnb) in Hid. }
  assert (p ∈ r_package <$> books) as Hin.
  { assert (p ∈ pk) as Hp by (apply list_elem_of_lookup; eauto).
    pose proof (ix_prel_dom _ _ _ Hix) as Hd. cbn in Hd.
    rewrite (nb_pk _ _ _ _ _ _ Hnb), elem_of_keys, Hd in Hp. set_solver. }
  destruct (Forall_exists_Forall2
              (λ doi t, BOOKS_TITLES g !! doi = Some (Some t)) (books_in_package p books))
    as [titles Hall].
  { apply Forall_forall. intros doi Hdoi.
    apply list_elem_of_fmap in Hdoi as (row & -> & [_ Hrow]%list_elem_of_filter).
    destruct (built_titles_packages books g Hrun (r_doi row)) as [-> _]. unfold title_of.
    destruct (last_filter_is_Some (λ r, r_doi r = r_doi row) books row Hrow eq_refl)
      as (y & -> & Hy & _).
    rewrite Forall_forall in Htitled. destruct (Htitled y Hy) as [t Ht].
    exists t. cbn. by rewrite Ht. }
  exists titles. split; [done|].
  apply lookup_lt_Some in Hk as Hlt.
  unfold print_books_in_topic.
  change (default [] (Some [1 + Z.of_nat k])) with [1 + Z.of_nat k].
  change (default [] None) with (@nil Z).
  rewrite bind_run. cbn [foldM]. rewrite !bind_run. unfold get at 1. cbn beta iota.
  cbn [idx].
  assert ((0 <? 1 + Z.of_nat k) && (1 + Z.of_nat k <=? Z.of_nat (size (PACKAGES_RELS g))) = true)
    as ->.
  { apply andb_true_iff. split; [apply Z.ltb_lt|apply Z.leb_le]; lia. }
  cbn [negb].
  rewrite (print_topic_run "package" (1 + Z.of_nat k) (mkWorld g t0) p
             (books_in_package p books) titles).
  - reflexivity.
  - apply (nb_tids_p _ _ _ _ _ _ Hnb _ _ Hk).
  - apply (nb_tb_p _ _ _ _ _ _ Hnb _ _ Hk Hin).
  - done.
Qed.

Lemma package_listing_prints_its_titles_witness :
  ∃ titles,
    Forall2 (λ doi t, BOOKS_TITLES example_index !! doi = Some (Some t))
      (books_in_package (Some "Pkg1") example_rows) titles ∧
    print_books_in_topic None (Some [1]) (mkWorld example_index [])
    = (Ret tt,
       mkWorld example_index
         ([] ++ books_in "package" (Some "Pkg1") :: ((λ t, Print ("   " +:+ t)) <$> titles))).
Proof.
  apply (package_listing_prints_its_titles example_rows example_index (Some "Pkg1") 1 []).
  - vm_compute. reflexivity.
  - repeat constructor; by eexists.
  - vm_compute. reflexivity.
Defined.

(** The listing of package 1 of the example. *)
Example ex_package_listing :
  trace (print_books_in_topic None (Some [1; 5]) (mkWorld example_index [])).2
  = [ books_in "package" (Some "Pkg1"); Print "   Book A"; Print "   Book B"; no_package 5 ].
Proof. vm_compute. reflexivity. Qed.

(** ** The table of packages *)

(** The loop of [print_available_packages] over packages that have a name
    and a list of books. *)
Lemma package_lines_run g items lines t0 :
  Forall2 (λ (it : value * Z) line,
             ∃ name l, it.1 = Some name ∧ TOPICS_BOOKS g !! it.2 = Some l ∧
                       line = package_line it.2 name (List.length l)) items lines →
  foldM (λ _ (it : value * Z),
           name ← match it.1 with Some n => mret n | None => raise TypeError end;
           books ← topics_books it.2;
           print (package_line it.2 name (List.length books)))
        tt items (mkWorld g t0)
  = (Ret tt, mkWorld g (t0 ++ (Print <$> lines))).
Proof.
  intros Hall. revert t0.
  induction Hall as [|[p i] line items lines (name & l & Hp & Hl & ->) _ IH]; intros t0.
  - cbn. by rewrite app_nil_r.
  - cbn [foldM]. cbn [fst snd] in *. subst p. rewrite bind_run. rewrite bind_run.
    unfold mret at 1, M_ret at 1. cbn beta iota. rewrite bind_run.
    unfold topics_books at 1. cbn [idx trace]. rewrite Hl. cbn beta iota.
    unfold print at 1, emit at 1, modify at 1. cbn [idx trace].
    rewrite IH. cbn. by rewrite <-app_assoc.
Qed.

(** The IDs of the packages of the built index, in the order in which they
    were entered: that of the sorted names. *)
Lemma built_ids_of_packages books g g1 pk :
  indexed books (fresh, mkLocals [] []) g1 →
  numbered books fresh g1.1 g pk (sorted_str (keys (SUBJECTS_RELS g1.1))) →
  IDS_OF_PACKAGES g = (λ it, (it.2, it.1)) <$> enumerate 1 pk.
Proof.
  intros Hix Hnb. rewrite (nb_ids_p_list _ _ _ _ _ _ Hnb).
  pose proof (ix_ids_p _ _ _ Hix) as Hids. cbn in Hids.
  rewrite number_packages_order.
  - by rewrite Hids.
  - rewrite (nb_pk _ _ _ _ _ _ Hnb). apply NoDup_keys.
  - intros p _. by rewrite Hids.
Qed.

Lemma package_lines_built books g (names : list string) start :
  (∀ (k : nat) name, names !! k = Some name →
     TOPICS_BOOKS g !! (start + Z.of_nat k) = Some (books_in_package (Some name) books)) →
  Forall2 (λ (it : value * Z) line,
             ∃ name l, it.1 = Some name ∧ TOPICS_BOOKS g !! it.2 = Some l ∧
                       line = package_line it.2 name (List.length l))
    ((λ it, (it.2, it.1)) <$> enumerate start (Some <$> names))
    ((λ it, package_line it.1 it.2 (List.length (books_in_package (Some it.2) books)))
       <$> enumerate start names).
Proof.
  revert start. induction names as [|name names IH]; intros start Hb; [constructor|].
  cbn. constructor.
  - exists name, (books_in_package (Some name) books). split_and!; [done| |done].
    cbn. specialize (Hb 0%nat name eq_refl). by rewrite Z.add_0_r in Hb.
  - apply IH. intros k nm Hk. specialize (Hb (S k) nm Hk).
    by replace (start + 1 + Z.of_nat k) with (start + Z.of_nat (S k)) by lia.
Qed.

(** X16.  For an index built from rows whose packages all have a name,
    [print_available_packages] prints its three heading lines and then one
    line for each package, in increasing order of name and of ID, with the ID,
    the name and the number of rows of the package; it raises nothing and
    leaves the index as it is. *)
Theorem packages_are_listed_in_id_order books g t0 :
  setup_globals books fresh = (Ret tt, g) →
  Forall (λ row, is_Some (r_package row)) books →
  ∃ names : list string,
    StronglySorted String.le names ∧ NoDup names ∧
    (∀ p, p ∈ names ↔ Some p ∈ r_package <$> books) ∧
    print_available_packages (mkWorld g t0)
    = (Ret tt,
       mkWorld g
         (t0 ++ (Print <$> packages_head)
             ++ (Print <$>
                   ((λ it, package_line it.1 it.2
                             (List.length (books_in_package (Some it.2) books)))
                      <$> enumerate 1 names)))).
Proof.
  intros Hrun Hnamed.
  destruct (setup_globals_built books g Hrun) as (g1 & loc & pk & Hrows & Hix & Hsorted & Hnb).
  assert (∀ q, q ∈ pk ↔ q ∈ r_package <$> books) as Hpk_in.
  { intros q. pose proof (ix_prel_dom _ _ _ Hix) as Hd. cbn in Hd.
    rewrite (nb_pk _ _ _ _ _ _ Hnb), elem_of_keys, Hd. set_solver. }
  assert (NoDup pk) as Hnd by (rewrite (nb_pk _ _ _ _ _ _ Hnb); apply NoDup_keys).
  assert (Forall is_Some pk) as Hsome.
  { apply Forall_forall. intros q Hq%Hpk_in. apply list_elem_of_fmap in Hq as (row & -> & Hin).
    rewrite Forall_forall in Hnamed. by apply Hnamed. }
  set (names := omap id pk). pose proof (all_Some_fmap pk Hsome) as Hpn. fold names in Hpn.
  exists names. split_and!.
  - apply StronglySorted_Some. rewrite <-Hpn. apply (nb_pk_sorted _ _ _ _ _ _ Hnb).
  - apply (NoDup_fmap_1 Some). by rewrite <-Hpn.
  - intros p. rewrite <-Hpk_in, Hpn, list_elem_of_fmap. naive_solver.
  - unfold print_available_packages. rewrite bind_run.
    unfold print at 1, emit at 1, modify at 1. cbn beta iota.
    do 2 (rewrite bind_run; unfold print at 1, emit at 1, modify at 1; cbn beta iota).
    cbn [idx trace]. rewrite bind_run.
    rewrite <-!app_assoc.
    change ([Print (newline +:+ "List of available packages:" +:+ newline)]
              ++ [Print (" ID   " +:+ ljust LONGEST "PACKAGE NAME" +:+ "   BOOKS")]
              ++ [Print ("   " +:+ times "-" (13 + LONGEST))])
      with (Print <$> packages_head). unfold get at 1. cbn beta iota. cbn [idx].
    rewrite (built_ids_of_packages books g (g1, loc) pk Hix Hnb), Hpn.
    assert (∀ (k : nat) name, names !! k = Some name →
              TOPICS_BOOKS g !! (1 + Z.of_nat k)
              = Some (books_in_package (Some name) books)) as Hb.
    { intros k name Hk. apply (nb_tb_p _ _ _ _ _ _ Hnb).
      - by rewrite Hpn, list_lookup_fmap, Hk.
      - apply Hpk_in. rewrite Hpn. apply list_elem_of_fmap. exists name. split; [done|].
        apply list_elem_of_lookup. eauto. }
    rewrite (package_lines_run g _ _ _ (package_lines_built books g names 1 Hb)).
    by rewrite <-app_assoc.
Qed.

Lemma packages_are_listed_in_id_order_witness :
  ∃ names : list string,
    StronglySorted String.le names ∧ NoDup names ∧
    (∀ p, p ∈ names ↔ Some p ∈ r_package <$> example_rows) ∧
    print_available_packages (mkWorld example_index [])
    = (Ret tt,
       mkWorld example_index
         ([] ++ (Print <$> packages_head)
             ++ (Print <$>
                   ((λ it, package_line it.1 it.2
                             (List.length (books_in_package (Some it.2) example_rows)))
                      <$> enumerate 1 names)))).
Proof.
  apply (packages_are_listed_in_id_order example_rows example_index []).
  - vm_compute. reflexivity.
  - repeat constructor; by eexists.
Defined.

(** The table of the example. *)
Example ex_packages_table :
  trace (print_available_packages (mkWorld example_index [])).2
  = Print <$> (packages_head
                 ++ [ "    1   Pkg1                                                     2";
                      "    2   Pkg2                                                     1" ]).
Proof. vm_compute. reflexivity. Qed.
